(** * simple-chat-ai: the message exchange of [OpenAIService.sendMessage]
      and the citation sanitizer [removeCitations]

    The development embeds two pieces of the repository:

    - [src/utils/textFormat.js]: [removeCitations], a global regular
      expression replace followed by [trim];
    - [services/openaiService.js]: [sendMessage], the sequence of remote
      calls (post the user message, create a run, poll the run, list the
      messages), together with the class method [logError], which logs
      and throws again.

    JavaScript strings are sequences of UTF-16 code units; exceptions,
    the remote calls, the timers and the log are made explicit in a small
    monad whose state is the trace of effects performed so far. *)

From Stdlib Require Import List NArith ZArith Arith Bool Lia String Ascii.
Import ListNotations.

Set Implicit Arguments.

(* ================================================================== *)
(** * JavaScript strings *)
(* ================================================================== *)

Module JsString.

(** A string is a list of UTF-16 code units. *)
Definition char16 := N.
Definition jsstring := list char16.

(** An ASCII literal of the source, as code units. *)
Definition js (s : string) : jsstring :=
  List.map N_of_ascii (list_ascii_of_string s).

Definition eqb (a b : jsstring) : bool :=
  if list_eq_dec N.eq_dec a b then true else false.

(** [!s] for a string: only the empty string is falsy. *)
Definition falsy (s : jsstring) : bool :=
  match s with [] => true | _ :: _ => false end.

(** ** [String.prototype.includes] and [String.prototype.replace] with a
    string pattern and the replacement [""] *)

Fixpoint starts_with (pat s : jsstring) : bool :=
  match pat, s with
  | [], _ => true
  | _ :: _, [] => false
  | p :: pat', c :: s' => N.eqb p c && starts_with pat' s'
  end.

Fixpoint includes (pat s : jsstring) : bool :=
  starts_with pat s ||
  match s with
  | [] => false
  | _ :: s' => includes pat s'
  end.

(** [s.replace(pat, "")]: the first occurrence of [pat], scanning from
    the left, is dropped; without an occurrence [s] is returned. *)
Fixpoint replace_first (pat s : jsstring) : jsstring :=
  if starts_with pat s then skipn (List.length pat) s
  else match s with
       | [] => []
       | c :: s' => c :: replace_first pat s'
       end.

(** ** [String.prototype.trim] *)

(** LineTerminator: LF, CR, LS, PS. *)
Definition line_terminator (c : char16) : bool :=
  N.eqb c 10 || N.eqb c 13 || N.eqb c 8232 || N.eqb c 8233.

(** WhiteSpace: TAB, VT, FF, SP, NBSP, ZWNBSP and the Unicode space
    separators (category Zs). *)
Definition white_space (c : char16) : bool :=
  N.eqb c 9 || N.eqb c 11 || N.eqb c 12 || N.eqb c 32 || N.eqb c 160 ||
  N.eqb c 65279 || N.eqb c 5760 || (N.leb 8192 c && N.leb c 8202) ||
  N.eqb c 8239 || N.eqb c 8287 || N.eqb c 12288.

Definition trimmable (c : char16) : bool :=
  white_space c || line_terminator c.

Fixpoint trimStart (s : jsstring) : jsstring :=
  match s with
  | [] => []
  | c :: s' => if trimmable c then trimStart s' else s
  end.

Definition trimEnd (s : jsstring) : jsstring := rev (trimStart (rev s)).

Definition trim (s : jsstring) : jsstring := trimEnd (trimStart s).

End JsString.
Import JsString.

(* ================================================================== *)
(** * The regular expression of [removeCitations] *)
(* ================================================================== *)

Module Regex.

(** The fragment of the regular expression syntax that the pattern of
    [removeCitations] uses.  [LazyDotStar] is the lazy quantifier applied
    to the dot: without the s flag the dot matches any code unit but a
    line terminator. *)
Inductive regex : Type :=
| Lit (c : char16)
| LazyDotStar
| Cat (r1 r2 : regex)
| Alt (r1 r2 : regex).

(** Backtracking matcher in continuation style: [exec r s k] matches [r]
    at the head of [s] and hands the rest of the input to [k]; the first
    alternative has priority, and a lazy quantifier tries the
    continuation before it takes one more code unit. *)
Fixpoint exec (r : regex) (s : jsstring)
         (k : jsstring -> option jsstring) : option jsstring :=
  match r with
  | Lit c =>
      match s with
      | d :: s' => if N.eqb d c then k s' else None
      | [] => None
      end
  | LazyDotStar =>
      (fix lazy (s : jsstring) : option jsstring :=
         match k s with
         | Some rest => Some rest
         | None =>
             match s with
             | d :: s' => if line_terminator d then None else lazy s'
             | [] => None
             end
         end) s
  | Cat r1 r2 => exec r1 s (fun s' => exec r2 s' k)
  | Alt r1 r2 =>
      match exec r1 s k with
      | Some rest => Some rest
      | None => exec r2 s k
      end
  end.

(** Code units of the four brackets. *)
Definition thick_open : char16 := 12304%N.   (* U+3010 *)
Definition thick_close : char16 := 12305%N.  (* U+3011 *)
Definition square_open : char16 := 91%N.
Definition square_close : char16 := 93%N.

(** The pattern: a thick bracket pair or a square bracket pair, each
    with a lazy body. *)
Definition citation : regex :=
  Alt (Cat (Lit thick_open) (Cat LazyDotStar (Lit thick_close)))
      (Cat (Lit square_open) (Cat LazyDotStar (Lit square_close))).

(** A match attempt at the head of [s]: the input after the match. *)
Definition match_here (s : jsstring) : option jsstring :=
  exec citation s Some.

(** [s.replace(re, "")] with the g flag: the scan goes from left to
    right; a match is dropped and the scan resumes after it, a code unit
    at which no match starts is copied.  A match of [citation] is never
    empty, so the rule for empty matches does not arise.  The fuel bounds
    the number of scan steps; [replaceAll] gives the length of the
    input, which is enough ([replace_loop_fuel]). *)
Fixpoint replace_loop (fuel : nat) (s : jsstring) : jsstring :=
  match fuel with
  | O => s
  | S fuel' =>
      match s with
      | [] => []
      | c :: rest =>
          match match_here s with
          | Some after => replace_loop fuel' after
          | None => c :: replace_loop fuel' rest
          end
      end
  end.

Definition replaceAll (s : jsstring) : jsstring :=
  replace_loop (List.length s) s.

End Regex.
Import Regex.

(* ================================================================== *)
(** * [src/utils/textFormat.js] *)
(* ================================================================== *)

(** [removeCitations(text)]: an empty text gives the empty string,
    otherwise the citations are replaced by nothing and the result is
    trimmed. *)
Definition removeCitations (text : jsstring) : jsstring :=
  if falsy text then [] else trim (replaceAll text).

(** [sendMessage] drops the first ["Assistant:"] of the answer:
    [if (resultMessage.includes("Assistant:"))
       resultMessage = resultMessage.replace("Assistant:", "")]. *)
Definition assistant_label : jsstring := js "Assistant:".

Definition strip_assistant (resultMessage : jsstring) : jsstring :=
  if includes assistant_label resultMessage
  then replace_first assistant_label resultMessage
  else resultMessage.

(* ================================================================== *)
(** * The remote service and the effects of [sendMessage] *)
(* ================================================================== *)

Module Remote.

(** The run object of the remote API, as far as the code reads it. *)
Record run : Type := { run_id : jsstring; run_status : jsstring }.

(** A content part of a message: [content[0]["text"].value] reads the
    text of the first part; a part of another type (an image, a
    refusal) has no field [text]. *)
Inductive content_part : Type :=
| TextPart (value : jsstring)
| OtherPart.

(** A message of the thread; [msg_run_id] is null for a user message,
    [msg_content] is the array of content parts (null or absent is
    [None]). *)
Record message : Type := {
  msg_run_id : option jsstring;
  msg_role : jsstring;
  msg_content : option (list content_part)
}.

(** Exceptions: [new Error(msg)], the rejection of an axios call
    (transport failure, time-out, status outside 2xx), and the
    TypeError of a property read on undefined. *)
Inductive exn : Type :=
| Error (msg : jsstring)
| AxiosError (msg : jsstring)
| TypeError.

(** The four remote calls of [sendMessage]:
    - [PostMessage]: POST /v1/threads/{threadId}/messages with
      [{role: "user", content}];
    - [CreateRun]: POST /v1/threads/{threadId}/runs with
      [{assistant_id}];
    - [GetRun]: GET /v1/threads/{threadId}/runs/{runId};
    - [ListMessages]: GET /v1/threads/{threadId}/messages. *)
Inductive request : Type :=
| PostMessage (threadId content : jsstring)
| CreateRun (threadId assistantId : jsstring)
| GetRun (threadId runId : jsstring)
| ListMessages (threadId : jsstring).

(** The places of [sendMessage] that call [this.logError]: the labels
    "sendMessage 1", "sendMessage 2", "sendMessage 3",
    "sendMessage retry {attempt + 1}" and "sendMessage 5". *)
Inductive log_site : Type :=
| Site1 | Site2 | Site3
| SiteRetry (n : nat)
| Site5.

(** What [sendMessage] does to the outside, in order: a remote call, a
    timer ([setTimeout], in milliseconds), a call of [this.logError]
    with its label and error, a line "Retrying to fetch messages...
    Attempt n" on the console. *)
Inductive event : Type :=
| Call (q : request)
| Sleep (ms : N)
| Log (site : log_site) (e : exn)
| Console (attempt : nat).

(** The remote service during one [sendMessage]: what it answers to the
    message post and to the run creation (each issued at most once), to
    the n-th status fetch and to the n-th message listing (counted from
    0).  [inl] is a rejected promise. *)
Record remote : Type := {
  post_message : jsstring + unit;
  create_run : jsstring + run;
  get_run : nat -> jsstring + run;
  list_messages : nat -> jsstring + list message
}.

Definition is_get_run (e : event) : bool :=
  match e with Call (GetRun _ _) => true | _ => false end.

Definition is_list_messages (e : event) : bool :=
  match e with Call (ListMessages _) => true | _ => false end.

Definition is_create_run (e : event) : bool :=
  match e with Call (CreateRun _ _) => true | _ => false end.

Definition is_call (e : event) : bool :=
  match e with Call _ => true | _ => false end.

Definition count (p : event -> bool) (tr : list event) : nat :=
  List.length (filter p tr).

(** Number of status fetches, message listings and remote calls of a
    trace. *)
Definition status_fetches : list event -> nat := count is_get_run.
Definition listings : list event -> nat := count is_list_messages.
Definition remote_calls : list event -> nat := count is_call.

End Remote.
Import Remote.

(* ================================================================== *)
(** * The monad: a trace of effects, exceptions, fuel for [while] *)
(* ================================================================== *)

Module Eff.

(** The result of an async function: a value, a thrown exception, or
    [OutOfFuel] when the [while] loop was cut off (no [catch] sees
    that one). *)
Inductive outcome (A : Type) : Type :=
| Return (a : A)
| Throw (e : exn)
| OutOfFuel.
Arguments Throw {A} e.
Arguments OutOfFuel {A}.

Definition M (A : Type) : Type := list event -> outcome A * list event.

Definition ret {A} (a : A) : M A := fun tr => (Return a, tr).

Definition throw {A} (e : exn) : M A := fun tr => (Throw e, tr).

Definition out_of_fuel {A} : M A := fun tr => (OutOfFuel, tr).

Definition bind {A B} (m : M A) (f : A -> M B) : M B :=
  fun tr =>
    match m tr with
    | (Return a, tr') => f a tr'
    | (Throw e, tr') => (Throw e, tr')
    | (OutOfFuel, tr') => (OutOfFuel, tr')
    end.

(** [try { m } catch (error) { h error }]. *)
Definition try_catch {A} (m : M A) (h : exn -> M A) : M A :=
  fun tr =>
    match m tr with
    | (Throw e, tr') => h e tr'
    | other => other
    end.

Definition emit (e : event) : M unit := fun tr => (Return tt, tr ++ [e]).

(** An awaited axios call: the request goes out, the promise resolves
    with the data or rejects. *)
Definition await {A} (q : request) (answer : jsstring + A) : M A :=
  fun tr =>
    match answer with
    | inl e => (Throw (AxiosError e), tr ++ [Call q])
    | inr a => (Return a, tr ++ [Call q])
    end.

End Eff.
Import Eff.

Declare Scope eff_scope.
Delimit Scope eff_scope with eff.
Notation "x <- m ;; k" := (bind m (fun x => k))
  (at level 61, m at next level, right associativity) : eff_scope.
Notation "m ;; k" := (bind m (fun _ => k))
  (at level 61, right associativity) : eff_scope.
Notation "'try' m 'catch' h" := (try_catch m h)
  (at level 60, m at level 59, h at level 59) : eff_scope.
Local Open Scope eff_scope.

(* ================================================================== *)
(** * [services/openaiService.js] *)
(* ================================================================== *)

Module OpenAIService.

Section Service.

(** The remote service this instance talks to. *)
Variable api : remote.

(** [async logError(source, url, error)]: hands the response body or
    the message of [error] to the logger of [services/logError.js] (the
    event [Log] records this call) and throws [error] again; it never
    returns. *)
Definition logError {A} (source : log_site) (error : exn) : M A :=
  emit (Log source error) ;; throw error.

(** The axios calls of [sendMessage]; a status fetch and a message
    listing get the answer that the remote has for their rank among
    the calls made so far. *)
Definition axios_post_message (threadId content : jsstring) : M unit :=
  await (PostMessage threadId content) (post_message api).

Definition axios_create_run (threadId assistantId : jsstring) : M run :=
  await (CreateRun threadId assistantId) (create_run api).

Definition axios_get_run (threadId runId : jsstring) : M run :=
  fun tr => await (GetRun threadId runId) (get_run api (status_fetches tr)) tr.

Definition axios_list_messages (threadId : jsstring) : M (list message) :=
  fun tr => await (ListMessages threadId) (list_messages api (listings tr)) tr.

Definition sleep (ms : N) : M unit := emit (Sleep ms).

Definition console_log (attempt : nat) : M unit := emit (Console attempt).

(** The condition of the [while]:
    [status === "in_progress" || status === "queued"]. *)
Definition pending (status : jsstring) : bool :=
  eqb status (js "in_progress") || eqb status (js "queued").

(** The polling loop.  [response] is the variable of the source, which
    holds the last status fetch; [fuel] bounds the number of iterations
    (the source has no bound). *)
Fixpoint poll (fuel : nat) (threadId runId : jsstring) (response : run)
  : M run :=
  if pending (run_status response) then
    match fuel with
    | O => out_of_fuel
    | S fuel' =>
        sleep 5000 ;;
        response' <- try (axios_get_run threadId runId)
                     catch (logError Site3) ;;
        poll fuel' threadId runId response'
    end
  else ret response.

(** [messageList.data.filter(m => m.run_id === run.id &&
    m.role === "assistant").pop()]. *)
Definition of_run (runId : jsstring) (m : message) : bool :=
  match msg_run_id m with
  | Some id => eqb id runId
  | None => false
  end && eqb (msg_role m) (js "assistant").

Fixpoint pop {A} (l : list A) : option A :=
  match l with
  | [] => None
  | [a] => Some a
  | _ :: l' => pop l'
  end.

Definition select (runId : jsstring) (data : list message) : option message :=
  pop (filter (of_run runId) data).

(** [lastMessage && lastMessage.content &&
    lastMessage.content[0]["text"].value]: an empty array of parts, or a
    first part without [text], makes the property read throw. *)
Definition has_text (lastMessage : option message) : M bool :=
  match lastMessage with
  | None => ret false
  | Some m =>
      match msg_content m with
      | None => ret false
      | Some [] => throw TypeError
      | Some (OtherPart :: _) => throw TypeError
      | Some (TextPart value :: _) => ret (negb (falsy value))
      end
  end.

(** [lastMessage.content[0]["text"].value]. *)
Definition text_value (lastMessage : option message) : M jsstring :=
  match lastMessage with
  | Some m =>
      match msg_content m with
      | Some (TextPart value :: _) => ret value
      | _ => throw TypeError
      end
  | None => throw TypeError
  end.

Definition retries : nat := 5.
Definition delay : N := 5000.

(** How one turn of the [for] ends: by [break], or by reaching the end
    of the body. *)
Inductive turn : Type :=
| Break (lastMessage : option message)
| Next (lastMessage : option message).

(** The retrieval loop, [for (attempt = 0; attempt < retries; attempt++)];
    [remaining] is [retries - attempt], [lastMessage] the variable of
    that name. *)
Fixpoint retrieve (remaining attempt : nat) (threadId runId : jsstring)
         (lastMessage : option message) : M (option message) :=
  match remaining with
  | O => ret lastMessage
  | S remaining' =>
      t <- try (data <- axios_list_messages threadId ;;
                let lastMessage := select runId data in
                found <- has_text lastMessage ;;
                if found then ret (Break lastMessage)
                else
                  console_log (attempt + 1) ;;
                  sleep delay ;;
                  ret (Next lastMessage))
           catch (logError (SiteRetry (attempt + 1))) ;;
      match t with
      | Break lastMessage => ret lastMessage
      | Next lastMessage =>
          retrieve remaining' (S attempt) threadId runId lastMessage
      end
  end.

Definition invalid_payload : exn :=
  Error (js "Invalid 'message, threadId, assistantId' in the assistant payload.").

Definition not_retrieved : exn :=
  Error (js "Failed to retrieve assistant message after retries.").

(** [async sendMessage(message, threadId, assistantId)]. *)
Definition sendMessage (fuel : nat) (message threadId assistantId : jsstring)
  : M jsstring :=
  if falsy message || falsy threadId || falsy assistantId
  then throw invalid_payload
  else
    try (axios_post_message threadId message) catch (logError Site1) ;;
    try (run <- axios_create_run threadId assistantId ;;
         response <- try (axios_get_run threadId (run_id run))
                     catch (logError Site2) ;;
         _ <- poll fuel threadId (run_id run) response ;;
         lastMessage <- retrieve retries 0 threadId (run_id run) None ;;
         found <- has_text lastMessage ;;
         if negb found then throw not_retrieved
         else
           resultMessage <- text_value lastMessage ;;
           ret (strip_assistant resultMessage))
    catch (logError Site5).

End Service.

End OpenAIService.
Import OpenAIService.

(* ================================================================== *)
(** * [src/controllers/conversationController.js] *)
(* ================================================================== *)

(** The end of [sendMessageToAgent]: the answer of [sendMessage] goes
    through [removeCitations] before it is sent back. *)
Definition sendMessageToAgent (api : remote) (fuel : nat)
           (message threadId assistantId : jsstring) : M jsstring :=
  openAIResponse <- sendMessage api fuel message threadId assistantId ;;
  ret (removeCitations openAIResponse).


(* ================================================================== *)
(** * Vocabulary of the properties *)
(* ================================================================== *)

Module Span.

(** [contains s u]: [u] is a substring of [s]. *)
Definition contains (s u : jsstring) : Prop :=
  exists a b, s = a ++ u ++ b.

(** A bracket pair enclosing arbitrary code units. *)
Definition span (op cl : char16) (u : jsstring) : Prop :=
  exists body, u = op :: body ++ [cl].

(** A bracket pair whose body holds no line terminator: what the dot of
    the pattern can cross. *)
Definition one_line (body : jsstring) : bool :=
  forallb (fun c => negb (line_terminator c)) body.

Definition line_span (op cl : char16) (u : jsstring) : Prop :=
  exists body, u = op :: body ++ [cl] /\ one_line body = true.

(** No citation span of either kind is left in [s]. *)
Definition span_free (s : jsstring) : Prop :=
  forall u, span thick_open thick_close u \/ span square_open square_close u ->
            ~ contains s u.

(** The same for the spans that stay on one line. *)
Definition line_span_free (s : jsstring) : Prop :=
  forall u, line_span thick_open thick_close u \/
            line_span square_open square_close u ->
            ~ contains s u.

(** The lazy body followed by the closing bracket, as a scan: the input
    after the nearest [cl], unless a line terminator comes first. *)
Fixpoint find_close (cl : char16) (s : jsstring) : option jsstring :=
  match s with
  | [] => None
  | d :: s' =>
      if N.eqb d cl then Some s'
      else if line_terminator d then None
      else find_close cl s'
  end.

(** No match of the pattern starts anywhere in [s]. *)
Fixpoint no_match (s : jsstring) : Prop :=
  match s with
  | [] => True
  | _ :: rest => match_here s = None /\ no_match rest
  end.

(** [start_ok s]: [trimStart] has nothing to remove from [s]. *)
Definition start_ok (s : jsstring) : Prop :=
  match s with
  | [] => True
  | c :: _ => trimmable c = false
  end.

(** [occurs_at pat s n]: [pat] occurs in [s] at index [n]. *)
Definition occurs_at (pat s : jsstring) (n : nat) : Prop :=
  exists a b, s = a ++ pat ++ b /\ List.length a = n.

End Span.
Import Span.

Module Script.

(** [emits P m]: [m] only adds events at the end of the trace, and
    each of them satisfies [P]. *)
Definition emits (P : event -> Prop) {A} (m : M A) : Prop :=
  forall tr, exists evs, snd (m tr) = tr ++ evs /\ Forall P evs.

(** The events of the retrieval: no status fetch, no run creation, no
    post. *)
Definition retrieval_event (e : event) : Prop :=
  match e with
  | Call (ListMessages _) | Console _ | Sleep _ | Log _ _ => True
  | Call _ => False
  end.

Definition any_event (e : event) : Prop := True.

(** The run is pending at each of the first [n] status fetches. *)
Definition pending_before (api : remote) (n : nat) : Prop :=
  forall i, i < n ->
    exists x, get_run api i = inr x /\ pending (run_status x) = true.

(** The first status fetches return runs with the statuses [l], in
    that order. *)
Definition statuses (api : remote) (l : list jsstring) : Prop :=
  forall i s, nth_error l i = Some s ->
    exists x, get_run api i = inr x /\ run_status x = s.

(** The events of [n] turns of the polling loop. *)
Fixpoint poll_events (threadId runId : jsstring) (n : nat) : list event :=
  match n with
  | O => []
  | S n' =>
      Sleep 5000 :: Call (GetRun threadId runId)
        :: poll_events threadId runId n'
  end.

(** The events up to the end of the polling: the post, the run
    creation, the first status fetch and [n] turns of the loop. *)
Definition polled_events (message threadId assistantId runId : jsstring)
           (n : nat) : list event :=
  [Call (PostMessage threadId message);
   Call (CreateRun threadId assistantId);
   Call (GetRun threadId runId)] ++ poll_events threadId runId n.

(** The place that logs a rejected status fetch: "sendMessage 2" for
    the fetch before the loop, "sendMessage 3" for a fetch of the loop. *)
Definition fetch_site (n : nat) : log_site :=
  match n with O => Site2 | S _ => Site3 end.

(** The first status fetch and the polling loop. *)
Definition await_run (api : remote) (fuel : nat) (threadId runId : jsstring)
  : M run :=
  response <- try (axios_get_run api threadId runId)
              catch (logError Site2) ;;
  poll api fuel threadId runId response.

(** The events of [k] turns of the retrieval loop that find no answer,
    the first of them being attempt number [attempt]. *)
Fixpoint retry_events (threadId : jsstring) (attempt k : nat) : list event :=
  match k with
  | O => []
  | S k' =>
      Call (ListMessages threadId) :: Console (attempt + 1) :: Sleep delay
        :: retry_events threadId (S attempt) k'
  end.

(** The text that the check of the code accepts in the selected message:
    the text of the first content part, when it is not empty. *)
Definition answer_of (lastMessage : option message) : option jsstring :=
  match lastMessage with
  | Some m =>
      match msg_content m with
      | Some (TextPart (c :: v) :: _) => Some (c :: v)
      | _ => None
      end
  | None => None
  end.

(** The check finds nothing to return: no message, no content, or an
    empty text in the first content part. *)
Definition unanswered (lastMessage : option message) : bool :=
  match lastMessage with
  | None => true
  | Some m =>
      match msg_content m with
      | None => true
      | Some (TextPart [] :: _) => true
      | Some _ => false
      end
  end.

(** The first [k] listings succeed and the selection finds no answer
    in any of them. *)
Definition misses (api : remote) (runId : jsstring) (k : nat) : Prop :=
  forall i, i < k ->
    exists data, list_messages api i = inr data /\
                 unanswered (select runId data) = true.

(** A message is an answer of the run: role assistant, the run id of
    the run, a text that is not empty. *)
Definition answers (runId : jsstring) (m : message) : Prop :=
  of_run runId m = true /\
  exists c v rest, msg_content m = Some (TextPart (c :: v) :: rest).

(** Listing number [i] contains an answer of the run. *)
Definition yields (api : remote) (runId : jsstring) (i : nat) : Prop :=
  exists data m, list_messages api i = inr data /\ In m data /\
                 answers runId m.

(** [m] is the last message of the run in [data]. *)
Definition last_of_run (runId : jsstring) (data : list message)
           (m : message) : Prop :=
  exists before after,
    data = before ++ m :: after /\ of_run runId m = true /\
    forall m', In m' after -> of_run runId m' = false.

(** The error kinds of the specification, on the exceptions of the
    code. *)
Definition transport_error (e : exn) : Prop := exists msg, e = AxiosError msg.

Definition answer_not_found (e : exn) : Prop := e = not_retrieved.

Definition invalid_request (e : exn) : Prop := e = invalid_payload.

(** A failure of the job of its own kind: neither a transport error nor
    the error of the exhausted retrieval. *)
Definition job_failed (e : exn) : Prop :=
  ~ transport_error e /\ ~ answer_not_found e.

Definition terminal_failure (status : jsstring) : Prop :=
  status = js "failed" \/ status = js "cancelled" \/ status = js "expired".

(** The remote [api] with the status of the [n]-th status fetch
    replaced by [status]. *)
Definition with_status (api : remote) (n : nat) (status : jsstring) : remote :=
  {| post_message := post_message api;
     create_run := create_run api;
     get_run := fun i =>
       if Nat.eqb i n then
         match get_run api i with
         | inr x => inr {| run_id := run_id x; run_status := status |}
         | inl e => inl e
         end
       else get_run api i;
     list_messages := list_messages api |}.

(** The part of [sendMessage] after the polling loop, from the
    retrieval loop to the return. *)
Definition answer_phase (api : remote) (threadId runId : jsstring)
  : M jsstring :=
  lastMessage <- retrieve api retries 0 threadId runId None ;;
  found <- has_text lastMessage ;;
  if negb found then throw not_retrieved
  else
    resultMessage <- text_value lastMessage ;;
    ret (strip_assistant resultMessage).

End Script.
Import Script.

(** What the claims say of an outcome. *)
Module Claim.

(** The outcome is a failure of the job of its own kind. *)
Definition surfaces_job_failed {A} (res : outcome A * list event) : Prop :=
  exists e, fst res = Throw e /\ job_failed e.

(** The trace holds a run creation. *)
Definition starts_job (tr : list event) : Prop :=
  exists t a, In (Call (CreateRun t a)) tr.

(** After the rejected status fetch of rank [n] one more status fetch
    is made. *)
Definition fetches_again (n : nat) (tr : list event) : Prop :=
  S n < status_fetches tr.

End Claim.
Import Claim.

(** Scripted remotes, for the examples. *)
Module Scenario.

Definition run_1 (status : string) : run :=
  {| run_id := js "run_1"; run_status := js status |}.

Definition user_message : message :=
  {| msg_run_id := None; msg_role := js "user";
     msg_content := Some [TextPart (js "hello")] |}.

Definition assistant_message (text : jsstring) : message :=
  {| msg_run_id := Some (js "run_1"); msg_role := js "assistant";
     msg_content := Some [TextPart text] |}.

(** The statuses queued, in_progress, in_progress, completed; the answer
    shows at the second listing. *)
Definition api_scripted : remote :=
  {| post_message := inr tt;
     create_run := inr (run_1 "queued");
     get_run := fun n =>
       match n with
       | 0 => inr (run_1 "queued")
       | 1 | 2 => inr (run_1 "in_progress")
       | _ => inr (run_1 "completed")
       end;
     list_messages := fun n =>
       match n with
       | 0 => inr [user_message]
       | _ => inr [user_message;
                   assistant_message (js "Assistant: see [1] Assistant: x")]
       end |}.

(** The post of the user message is rejected. *)
Definition api_post_down : remote :=
  {| post_message := inl (js "ECONNRESET");
     create_run := inr (run_1 "queued");
     get_run := fun _ => inr (run_1 "completed");
     list_messages := fun _ => inr [assistant_message (js "hi")] |}.

(** The second status fetch is rejected, the third would succeed. *)
Definition api_fetch_flaky : remote :=
  {| post_message := inr tt;
     create_run := inr (run_1 "queued");
     get_run := fun n =>
       match n with
       | 0 => inr (run_1 "queued")
       | 1 => inl (js "timeout")
       | _ => inr (run_1 "completed")
       end;
     list_messages := fun _ => inr [assistant_message (js "hi")] |}.

(** The run fails; the thread holds no message of the run. *)
Definition api_job_failed : remote :=
  {| post_message := inr tt;
     create_run := inr (run_1 "queued");
     get_run := fun _ => inr (run_1 "failed");
     list_messages := fun _ => inr [user_message] |}.

(** The run fails after a partial answer. *)
Definition api_job_failed_late : remote :=
  {| post_message := inr tt;
     create_run := inr (run_1 "queued");
     get_run := fun n =>
       match n with
       | 0 => inr (run_1 "in_progress")
       | _ => inr (run_1 "expired")
       end;
     list_messages := fun _ => inr [assistant_message (js "partial")] |}.

(** The run completes, the listing of the messages is rejected. *)
Definition api_list_down : remote :=
  {| post_message := inr tt;
     create_run := inr (run_1 "queued");
     get_run := fun _ => inr (run_1 "completed");
     list_messages := fun _ => inl (js "timeout") |}.

(** The run completes and never shows a message. *)
Definition api_silent : remote :=
  {| post_message := inr tt;
     create_run := inr (run_1 "queued");
     get_run := fun _ => inr (run_1 "completed");
     list_messages := fun _ => inr [user_message] |}.

(** The run has two messages, the last of them with an empty text. *)
Definition api_empty_last : remote :=
  {| post_message := inr tt;
     create_run := inr (run_1 "queued");
     get_run := fun _ => inr (run_1 "completed");
     list_messages := fun _ =>
       inr [assistant_message (js "hello"); assistant_message []] |}.

(** A square bracket pair over two lines. *)
Definition two_lines : jsstring := js "[a" ++ [10%N] ++ js "b]".

End Scenario.
Import Scenario.


(* ================================================================== *)
(** * Vocabulary of further properties *)
(* ================================================================== *)

Module Text.

(** [subseq u s]: [u] is [s] with some code units left out, the others
    in their order. *)
Inductive subseq : jsstring -> jsstring -> Prop :=
| subseq_nil : subseq [] []
| subseq_keep (c : char16) (u s : jsstring) :
    subseq u s -> subseq (c :: u) (c :: s)
| subseq_drop (c : char16) (u s : jsstring) :
    subseq u s -> subseq u (c :: s).

(** The opening brackets of the pattern, and the closing ones. *)
Definition opening (c : char16) : bool :=
  N.eqb c thick_open || N.eqb c square_open.

Definition closing (c : char16) : bool :=
  N.eqb c thick_close || N.eqb c square_close.

(** [without p s]: no code unit of [s] satisfies [p]. *)
Definition without (p : char16 -> bool) (s : jsstring) : bool :=
  forallb (fun c => negb (p c)) s.

(** The two bracket pairs of the pattern. *)
Definition bracket_pair (op cl : char16) : Prop :=
  (op = thick_open /\ cl = thick_close) \/
  (op = square_open /\ cl = square_close).

End Text.
Import Text.

Module Budget.

Definition is_post_message (e : event) : bool :=
  match e with Call (PostMessage _ _) => true | _ => false end.

(** [adds p n m]: [m] adds at most [n] events that satisfy [p] to the
    trace. *)
Definition adds (p : event -> bool) (n : nat) {A} (m : M A) : Prop :=
  forall tr, count p (snd (m tr)) <= count p tr + n.

(** The run is pending at every status fetch. *)
Definition always_pending (api : remote) : Prop :=
  forall i, exists x, get_run api i = inr x /\ pending (run_status x) = true.

(** The selected message has a content that the check of the code cannot
    read: an empty array of parts, or a first part without text. *)
Definition unreadable (lastMessage : option message) : bool :=
  match lastMessage with
  | Some m =>
      match msg_content m with
      | Some [] | Some (OtherPart :: _) => true
      | _ => false
      end
  | None => false
  end.

End Budget.
Import Budget.

(* ================================================================== *)
(** * [src/utils/validation.js] *)
(* ================================================================== *)

Module Validation.

Section Validate.

(** The values of the fields and their truthiness ([!body[field]]). *)
Variable value : Type.
Variable truthy : value -> bool.

(** [body[field]]: the value of the property, [None] for undefined. *)
Definition present (body : jsstring -> option value) (field : jsstring)
  : bool :=
  match body field with
  | Some v => truthy v
  | None => false
  end.

(** The [for ... of] loop over the required fields. *)
Fixpoint first_missing (body : jsstring -> option value)
         (fields : list jsstring) : option jsstring :=
  match fields with
  | [] => None
  | field :: rest =>
      if negb (present body field)
      then Some (js "Missing required field: " ++ field)
      else first_missing body rest
  end.

(** [validate(body, requiredFields)]; [requiredFields] is [None] when it
    is null or undefined; the result [None] is null. *)
Definition validate (body : jsstring -> option value)
           (requiredFields : option (list jsstring)) : option jsstring :=
  match requiredFields with
  | Some (field :: rest) => first_missing body (field :: rest)
  | Some [] | None => None
  end.

End Validate.

End Validation.
Import Validation.

(* ================================================================== *)
(** * Values, replies, database and the effects of the controllers *)
(* ================================================================== *)

Module Js.

(** The values a field of a JSON body or a route parameter can hold, as
    far as the handlers below use them: undefined (an absent field),
    null, booleans, integers and strings. *)
Inductive jsval : Type :=
| VUndefined
| VNull
| VBool (b : bool)
| VNumber (n : Z)
| VString (s : jsstring).

(** [!v] is [negb (truthy v)]. *)
Definition truthy (v : jsval) : bool :=
  match v with
  | VUndefined | VNull => false
  | VBool b => b
  | VNumber n => negb (Z.eqb n 0)
  | VString s => negb (falsy s)
  end.

(** The global [isNaN(v)]: [Number(v)] is NaN for undefined; null, the
    booleans and the numbers convert to a number; for a string it is
    [string_nan], whether the string fails to parse as a numeric
    literal. *)
Definition isNaN (string_nan : jsstring -> bool) (v : jsval) : bool :=
  match v with
  | VUndefined => true
  | VString s => string_nan s
  | VNull | VBool _ | VNumber _ => false
  end.

(** A column or a field that holds a string or null, as a value. *)
Definition of_text (o : option jsstring) : jsval :=
  match o with Some s => VString s | None => VNull end.

(** The same read as a string: null as the empty string, which is as
    falsy as null. *)
Definition text_of (o : option jsstring) : jsstring :=
  match o with Some s => s | None => [] end.

End Js.
Import Js.

Module Db.

(** A row of the table agents. *)
Record agent : Type := {
  agent_id : Z;
  agent_name : jsstring;
  agent_instructions : jsstring;
  assistant_id : option jsstring;
  vector_store_id : option jsstring
}.

(** A row of the table conversations. *)
Record conversation : Type := {
  conversation_id : Z;
  conversation_agent_id : Z;
  conversation_thread_id : option jsstring
}.

(** The statements of [models/agent.js] and [models/conversation.js]
    that the handlers below issue, with their parameters (the dates of
    the inserted and updated rows are left out):
    - "SELECT * FROM agents WHERE id = ?";
    - "DELETE FROM agents WHERE id = ?";
    - "SELECT * FROM conversations WHERE agent_id = ?";
    - "SELECT * FROM conversations WHERE thread_id = ?";
    - "INSERT INTO conversations SET ?";
    - "UPDATE conversations SET ? WHERE id = ?". *)
Inductive sql : Type :=
| SelectAgentById (id : jsval)
| DeleteAgentById (id : jsval)
| SelectConversationByAgentId (agentId : jsval)
| SelectConversationByThreadId (threadId : jsstring)
| InsertConversation (agentId : jsval) (threadId : jsstring)
| UpdateConversationById (id : Z).

(** What the database answers to each statement; [inl] is the [err] of
    the callback of [db.query]. *)
Record database : Type := {
  agents_by_id : jsval -> jsstring + list agent;
  agent_deleted : jsval -> jsstring + unit;
  conversations_by_agent : jsval -> jsstring + list conversation;
  conversations_by_thread : jsstring -> jsstring + list conversation;
  conversation_inserted : jsval -> jsstring -> jsstring + unit;
  conversation_updated : Z -> jsstring + unit
}.

End Db.
Import Db.

Module Http.

(** The first argument of [response] and [responseWithoutData]: a
    number, or the string 'success'. *)
Inductive code : Type :=
| CodeNumber (n : N)
| CodeText (s : jsstring).

(** The third argument of [response]. *)
Inductive data : Type :=
| DataError (e : exn)
| DataMessage (message : jsstring)
| DataThread (thread_id : option jsstring) (agent : Db.agent)
| DataHistory (messages : list Remote.message).

(** [src/utils/response.js]: the two shapes of a body. *)
Inductive payload : Type :=
| response (status : code) (message : jsstring) (d : data)
| responseWithoutData (status : code) (message : jsstring).

(** [res.status(http_status).json(body)]; [res.send(body)] has the
    status 200. *)
Record reply : Type := { http_status : N; body : payload }.

End Http.
Import Http.

Module SysEvent.

Inductive verb : Type := GET | POST | DELETE.

(** The effects of a handler, in order: a statement sent to the
    database, an effect of [sendMessage], an axios call of another method
    of the service, the same with the object it sends (recorded for
    [updateAssistant]), a call of [this.logError] of the service with
    its label and error, an entry that a controller writes with
    [logError] of [services/logError.js], a line on the console. *)
Inductive sys_event : Type :=
| Query (q : sql)
| Exchange (e : event)
| Axios (v : verb) (url : jsstring)
| AxiosSend (v : verb) (url : jsstring) (sent : list (jsstring * jsval))
| ServiceLog (source : jsstring) (e : exn)
| ErrorLog (e : exn) (controllerName functionName : jsstring)
| ConsoleOut (label text : jsstring).

End SysEvent.
Import SysEvent.

Module Sys.

Definition C (A : Type) : Type :=
  list sys_event -> outcome A * list sys_event.

Definition ret {A} (a : A) : C A := fun tr => (Return a, tr).

Definition throw {A} (e : exn) : C A := fun tr => (Throw e, tr).

Definition bind {A B} (m : C A) (f : A -> C B) : C B :=
  fun tr =>
    match m tr with
    | (Return a, tr') => f a tr'
    | (Throw e, tr') => (Throw e, tr')
    | (OutOfFuel, tr') => (OutOfFuel, tr')
    end.

Definition try_catch {A} (m : C A) (h : exn -> C A) : C A :=
  fun tr =>
    match m tr with
    | (Throw e, tr') => h e tr'
    | other => other
    end.

Definition emit (e : sys_event) : C unit := fun tr => (Return tt, tr ++ [e]).

(** An awaited promise that has the effect [e] and resolves with the
    answer or rejects with [reject msg]. *)
Definition await {A} (e : sys_event) (reject : jsstring -> exn)
           (answer : jsstring + A) : C A :=
  fun tr =>
    match answer with
    | inl msg => (Throw (reject msg), tr ++ [e])
    | inr a => (Return a, tr ++ [e])
    end.

(** A call of [sendMessage]: its effects, from a trace of its own, go
    into the trace of the handler. *)
Definition exchange {A} (m : M A) : C A :=
  fun tr => let (o, evs) := m [] in (o, tr ++ List.map Exchange evs).

End Sys.

Declare Scope sys_scope.
Delimit Scope sys_scope with sys.
Notation "x <- m ;; k" := (Sys.bind m (fun x => k))
  (at level 61, m at next level, right associativity) : sys_scope.
Notation "m ;; k" := (Sys.bind m (fun _ => k))
  (at level 61, right associativity) : sys_scope.
Notation "'try' m 'catch' h" := (Sys.try_catch m h)
  (at level 60, m at level 59, h at level 59) : sys_scope.

(* ================================================================== *)
(** * [models/agent.js] and [src/models/conversation.js] *)
(* ================================================================== *)

Module Models.

Import Sys.
Local Open Scope sys_scope.

Section Models.

(** Whether a string fails to parse as a number ([isNaN] on strings). *)
Variable string_nan : jsstring -> bool.

(** [db.query(statement, parameters, callback)] in a promise. *)
Definition query {A} (q : sql) (answer : jsstring + A) : C A :=
  await (Query q) Error answer.

(** [getAgentById(db, id)] of [models/agent.js]. *)
Definition getAgentById (db : option database) (id : jsval)
  : C (list agent) :=
  match db with
  | Some conn =>
      if negb (truthy id) then throw (Error (js "Invalid database or id"))
      else if isNaN string_nan id
      then throw (Error (js "Id must be a number"))
      else query (SelectAgentById id) (agents_by_id conn id)
  | None => throw (Error (js "Invalid database or id"))
  end.

(** [deleteAgentById(db, id)] of [models/agent.js]. *)
Definition deleteAgentById (db : option database) (id : jsval) : C unit :=
  match db with
  | Some conn =>
      if negb (truthy id) then throw (Error (js "Invalid database or id"))
      else if isNaN string_nan id
      then throw (Error (js "Id must be a number"))
      else query (DeleteAgentById id) (agent_deleted conn id)
  | None => throw (Error (js "Invalid database or id"))
  end.

(** [createConversation(db, data)]; [data] is the object literal of the
    caller, which is truthy. *)
Definition createConversation (db : option database)
           (agentId : jsval) (threadId : jsstring) : C unit :=
  match db with
  | Some conn =>
      query (InsertConversation agentId threadId)
            (conversation_inserted conn agentId threadId)
  | None => throw (Error (js "Invalid database or data"))
  end.

(** [getConversationByAgentId(db, agentId)]. *)
Definition getConversationByAgentId (db : option database) (agentId : jsval)
  : C (list conversation) :=
  match db with
  | Some conn =>
      if negb (truthy agentId)
      then throw (Error (js "Invalid database or id"))
      else if isNaN string_nan agentId
      then throw (Error (js "Id must be a number"))
      else query (SelectConversationByAgentId agentId)
                 (conversations_by_agent conn agentId)
  | None => throw (Error (js "Invalid database or id"))
  end.

(** [getConversationByThreadId(db, threadId)]: no test with [isNaN]. *)
Definition getConversationByThreadId (db : option database)
           (threadId : jsstring) : C (list conversation) :=
  match db with
  | Some conn =>
      if falsy threadId
      then throw (Error (js "Invalid database or thread id"))
      else query (SelectConversationByThreadId threadId)
                 (conversations_by_thread conn threadId)
  | None => throw (Error (js "Invalid database or thread id"))
  end.

(** [updateConversationById(db, data, id)], called with the id of a
    row, a number. *)
Definition updateConversationById (db : option database) (id : Z) : C unit :=
  match db with
  | Some conn =>
      if negb (truthy (VNumber id))
      then throw (Error (js "Invalid database, data or id"))
      else if isNaN string_nan (VNumber id)
      then throw (Error (js "Id must be a number"))
      else query (UpdateConversationById id) (conversation_updated conn id)
  | None => throw (Error (js "Invalid database, data or id"))
  end.

End Models.

End Models.

(* ================================================================== *)
(** * [services/openaiService.js]: threads, assistants, vector stores *)
(* ================================================================== *)

Module ServiceCalls.

Import Sys.
Local Open Scope sys_scope.

(** The remote service behind the whole class: the exchange of
    [sendMessage] and the answers to the other calls. *)
Record openai : Type := {
  chat : remote;
  thread_created : jsstring + jsstring;
  thread_messages : jsstring -> jsstring + list message;
  store_deleted : jsstring -> jsstring + unit;
  assistant_deleted : jsstring -> jsstring + unit;
  assistant_created : jsstring + jsstring;
  assistant_updated : jsstring -> list (jsstring * jsval) -> jsstring + unit
}.

(** The payload of [createAssistant], as far as the method reads it. *)
Record assistant_payload : Type := {
  payload_name : jsval;
  payload_instructions : jsval;
  payload_model : jsval
}.

(** [typeof v === 'string']. *)
Definition is_string (v : jsval) : bool :=
  match v with VString _ => true | _ => false end.

(** [!v || typeof v !== 'string']. *)
Definition invalid_text (v : jsval) : bool :=
  negb (truthy v) || negb (is_string v).

(** The fields that [updateAssistant] lets through. *)
Definition allowedFields : list jsstring :=
  [js "model"; js "name"; js "description"; js "instructions";
   js "tools"; js "tool_resources"; js "metadata";
   js "temperature"; js "top_p"; js "response_format"].

(** [allowedFields.includes(key)]. *)
Definition allowed (key : jsstring) : bool :=
  existsb (eqb key) allowedFields.

(** [Object.keys(data).filter(...).reduce(...)]: an object is the list
    of its properties, in the order of [Object.keys]. *)
Definition filteredData (data : list (jsstring * jsval))
  : list (jsstring * jsval) :=
  filter (fun property => allowed (fst property)) data.

(** [configs/constants.js]. *)
Definition OPENAI_URL : jsstring := js "https://api.openai.com".

(** [this.logError(source, url, error)]: hands the error to the logger
    (the event records this call) and throws it again. *)
Definition logError {A} (source : jsstring) (error : exn) : C A :=
  emit (ServiceLog source error) ;; throw error.

Definition axios {A} (v : verb) (url : jsstring) (answer : jsstring + A)
  : C A :=
  await (Axios v url) AxiosError answer.

Section Service.

Variable api : openai.

(** [createThread()]: the id of [result.data]. *)
Definition createThread : C jsstring :=
  let url := OPENAI_URL ++ js "/v1/threads" in
  try (axios POST url (thread_created api))
  catch (logError (js "OpenAIService/createThread")).

(** [retrieveThreadMessages(threadId)]. *)
Definition retrieveThreadMessages (threadId : jsstring) : C (list message) :=
  let url := OPENAI_URL ++ js "/v1/threads/" ++ threadId
               ++ js "/messages?limit=10&order=asc" in
  try (axios GET url (thread_messages api threadId))
  catch (logError (js "OpenAIService/retrieveThreadMessages")).

(** [createAssistant(data)]: the id of [response.data]. *)
Definition createAssistant (data : assistant_payload) : C jsstring :=
  let url := OPENAI_URL ++ js "/v1/assistants" in
  if invalid_text (payload_name data)
  then throw (Error (js "Invalid 'name' in the assistant payload."))
  else if invalid_text (payload_instructions data)
  then throw (Error (js "Invalid 'instructions' in the assistant payload."))
  else if invalid_text (payload_model data)
  then throw (Error (js "Invalid 'model' in the assistant payload."))
  else
    try (axios POST url (assistant_created api))
    catch (logError (js "OpenAIService/createAssistant")).

(** [updateAssistant(assistantId, data)]: [axiosClient.post(url,
    filteredData, ...)]; the remote answers to the object it receives. *)
Definition updateAssistant (assistantId : jsstring)
           (data : list (jsstring * jsval)) : C unit :=
  let url := OPENAI_URL ++ js "/v1/assistants/" ++ assistantId in
  try (await (AxiosSend POST url (filteredData data)) AxiosError
             (assistant_updated api assistantId (filteredData data)))
  catch (logError (js "OpenAIService/updateAssistant")).

(** [deleteAssistant(assistantId)]. *)
Definition deleteAssistant (assistantId : jsstring) : C unit :=
  let url := OPENAI_URL ++ js "/v1/assistants/" ++ assistantId in
  try (axios DELETE url (assistant_deleted api assistantId))
  catch (logError (js "OpenAIService/deleteAssistant")).

(** [deleteStoreVector(store_id)]: a falsy id returns at once. *)
Definition deleteStoreVector (store_id : jsstring) : C unit :=
  if falsy store_id then ret tt
  else
    let url := OPENAI_URL ++ js "/v1/vector_stores/" ++ store_id in
    try (axios DELETE url (store_deleted api store_id))
    catch (logError (js "OpenAIService/deleteStoreVector")).

End Service.

End ServiceCalls.

(* ================================================================== *)
(** * [src/controllers/conversationController.js] and the agent
      controller *)
(* ================================================================== *)

Module Controllers.

Import Sys.
Local Open Scope sys_scope.

(** The body of POST /v1/conversations, as far as the handler reads
    it: [thread_id] and [message] are strings when present. *)
Record send_body : Type := {
  body_agent_id : jsval;
  body_thread_id : option jsstring;
  body_message : option jsstring
}.

(** [data[field]]. *)
Definition field_of (data : send_body) (field : jsstring) : option jsval :=
  if eqb field (js "agent_id") then Some (body_agent_id data)
  else if eqb field (js "thread_id") then Some (of_text (body_thread_id data))
  else if eqb field (js "message") then Some (of_text (body_message data))
  else None.

(** [logError(error, controllerName, functionName)] of
    [services/logError.js]: appends the entry to the log file and
    returns. *)
Definition logError (error : exn) (controllerName functionName : jsstring)
  : C unit :=
  emit (ErrorLog error controllerName functionName).

(** [res.status(status).json(body)]. *)
Definition json (status : N) (b : payload) : C reply :=
  ret {| http_status := status; body := b |}.

(** The [catch] of every handler: the error is logged and answered with
    the status 500. *)
Definition internal_error (controllerName functionName : jsstring)
           (error : exn) : C reply :=
  logError error controllerName functionName ;;
  json 500 (response (CodeNumber 500) (js "Internal server error")
                     (DataError error)).

Section Handlers.

Variable string_nan : jsstring -> bool.
Variable db : database.
Variable api : ServiceCalls.openai.

(** [sendMessageToAgent(req, res)], with [req.body] as [data]; [fuel]
    bounds the polling of [sendMessage]. *)
Definition sendMessageToAgent (fuel : nat) (data : send_body) : C reply :=
  try (match validate truthy (field_of data)
               (Some [js "agent_id"; js "thread_id"; js "message"]) with
       | Some validationError =>
           json 400 (responseWithoutData (CodeNumber 400) validationError)
       | None =>
           agent <- Models.getAgentById string_nan (Some db)
                      (body_agent_id data) ;;
           match agent with
           | [] => json 404 (responseWithoutData (CodeNumber 404)
                                                 (js "Agent not found"))
           | agent :: _ =>
               conversation <- Models.getConversationByThreadId
                                 (Some db) (text_of (body_thread_id data)) ;;
               match conversation with
               | [] => json 404 (responseWithoutData
                                   (CodeNumber 404)
                                   (js "Conversation not found"))
               | conversation :: _ =>
                   Models.updateConversationById
                     string_nan (Some db) (conversation_id conversation) ;;
                   openAIResponse <-
                     exchange (sendMessage (ServiceCalls.chat api) fuel
                                 (text_of (body_message data))
                                 (text_of (body_thread_id data))
                                 (text_of (assistant_id agent))) ;;
                   let openAIResponse := removeCitations openAIResponse in
                   emit (ConsoleOut (js "openAIResponse") openAIResponse) ;;
                   json 200 (response
                               (CodeText (js "success"))
                               (js "Message has been sent and replied!")
                               (DataMessage openAIResponse))
               end
           end
       end)
  catch (internal_error (js "conversationController")
                        (js "sendMessageToAgent")).

(** [getConversationByAgentId(req, res)], with [req.params.id] as
    [agentId]. *)
Definition getConversationByAgentId (agentId : jsval) : C reply :=
  try (if negb (truthy agentId)
       then json 400 (responseWithoutData (CodeNumber 400)
                                          (js "Agent ID is required"))
       else
         agent <- Models.getAgentById string_nan (Some db) agentId ;;
         match agent with
         | [] => json 404 (responseWithoutData (CodeNumber 404)
                                               (js "Agent not found"))
         | agent :: _ =>
             result <- Models.getConversationByAgentId
                         string_nan (Some db) agentId ;;
             threadId <-
               match result with
               | [] =>
                   threadId <- ServiceCalls.createThread api ;;
                   Models.createConversation (Some db) agentId threadId ;;
                   ret (Some threadId)
               | conversation :: _ =>
                   ret (conversation_thread_id conversation)
               end ;;
             json 200 (response (CodeNumber 200)
                                (js "Conversations fetched successfully")
                                (DataThread threadId agent))
         end)
  catch (internal_error (js "conversationController")
                        (js "getConversationByAgentId")).

(** [getMessageHistoryByThreadId(req, res)], with [req.params.id] as
    [threadId]. *)
Definition getMessageHistoryByThreadId (threadId : jsstring) : C reply :=
  try (if falsy threadId
       then json 400 (responseWithoutData (CodeNumber 400)
                                          (js "Thread ID is required"))
       else
         conversation <- Models.getConversationByThreadId
                           (Some db) threadId ;;
         match conversation with
         | [] => json 404 (responseWithoutData (CodeNumber 404)
                                               (js "Conversation not found"))
         | _ :: _ =>
             result <- ServiceCalls.retrieveThreadMessages api threadId ;;
             json 200 (response (CodeNumber 200)
                                (js "Message history fetched successfully")
                                (DataHistory result))
         end)
  catch (internal_error (js "conversationController")
                        (js "getMessageHistoryByThreadId")).

(** [deleteAgentById(req, res)] of the agent controller, with
    [req.params.id] as [id]. *)
Definition deleteAgentById (id : jsval) : C reply :=
  try (if negb (truthy id)
       then json 400 (responseWithoutData (CodeNumber 400)
                                          (js "ID is required"))
       else
         agent <- Models.getAgentById string_nan (Some db) id ;;
         match agent with
         | [] => json 404 (responseWithoutData (CodeNumber 404)
                                               (js "Agent not found"))
         | agent :: _ =>
             (if negb (falsy (text_of (vector_store_id agent)))
              then
                try (ServiceCalls.deleteStoreVector
                       api (text_of (vector_store_id agent)))
                catch (fun error =>
                         logError error (js "agentController")
                                  (js "deleteAgentById"))
              else ret tt) ;;
             (if negb (falsy (text_of (assistant_id agent)))
              then
                try (ServiceCalls.deleteAssistant
                       api (text_of (assistant_id agent)))
                catch (fun error =>
                         logError error (js "agentController")
                                  (js "deleteAgentById"))
              else ret tt) ;;
             Models.deleteAgentById string_nan (Some db) id ;;
             json 200 (responseWithoutData (CodeNumber 200)
                                           (js "Agent deleted successfully"))
         end)
  catch (internal_error (js "agentController") (js "deleteAgentById")).

End Handlers.

End Controllers.

(** The statements sent to the database, among the effects. *)
Definition is_query (e : sys_event) : bool :=
  match e with Query _ => true | _ => false end.

(** The fields that [sendMessageToAgent] requires. *)
Definition send_fields : list jsstring :=
  [js "agent_id"; js "thread_id"; js "message"].

(** A database, remote services and bodies for the examples. *)
Module HandlerScenario.

(** A test for strings that are no number: here, any string with a code
    unit that is no decimal digit. *)
Definition digits_nan (s : jsstring) : bool :=
  negb (forallb (fun c => N.leb 48 c && N.leb c 57) s).

Definition agent_7 : agent :=
  {| agent_id := 7; agent_name := js "[TEST] bot";
     agent_instructions := js "be brief";
     assistant_id := Some (js "asst_1");
     vector_store_id := Some (js "vs_1") |}.

Definition conversation_3 : conversation :=
  {| conversation_id := 3; conversation_agent_id := 7;
     conversation_thread_id := Some (js "thread_1") |}.

(** Agent 7 with its conversation on thread_1. *)
Definition db_one : database :=
  {| agents_by_id := fun id =>
       match id with
       | VNumber 7 => inr [agent_7]
       | _ => inr []
       end;
     agent_deleted := fun _ => inr tt;
     conversations_by_agent := fun id =>
       match id with
       | VNumber 7 => inr [conversation_3]
       | _ => inr []
       end;
     conversations_by_thread := fun t =>
       if eqb t (js "thread_1") then inr [conversation_3] else inr [];
     conversation_inserted := fun _ _ => inr tt;
     conversation_updated := fun _ => inr tt |}.

(** Agent 7 without a conversation. *)
Definition db_fresh : database :=
  {| agents_by_id := agents_by_id db_one;
     agent_deleted := fun _ => inr tt;
     conversations_by_agent := fun _ => inr [];
     conversations_by_thread := fun _ => inr [];
     conversation_inserted := fun _ _ => inr tt;
     conversation_updated := fun _ => inr tt |}.

Definition openai_up : ServiceCalls.openai :=
  {| ServiceCalls.chat := api_scripted;
     ServiceCalls.thread_created := inr (js "thread_9");
     ServiceCalls.thread_messages := fun _ => inr [user_message];
     ServiceCalls.store_deleted := fun _ => inr tt;
     ServiceCalls.assistant_deleted := fun _ => inr tt;
     ServiceCalls.assistant_created := inr (js "asst_2");
     ServiceCalls.assistant_updated := fun _ _ => inr tt |}.

(** Every call but the post of the user message is rejected. *)
Definition openai_down : ServiceCalls.openai :=
  {| ServiceCalls.chat := api_list_down;
     ServiceCalls.thread_created := inl (js "ECONNRESET");
     ServiceCalls.thread_messages := fun _ => inl (js "ECONNRESET");
     ServiceCalls.store_deleted := fun _ => inl (js "ECONNRESET");
     ServiceCalls.assistant_deleted := fun _ => inl (js "ECONNRESET");
     ServiceCalls.assistant_created := inl (js "ECONNRESET");
     ServiceCalls.assistant_updated := fun _ _ => inl (js "ECONNRESET") |}.

Definition body_hi : Controllers.send_body :=
  {| Controllers.body_agent_id := VNumber 7;
     Controllers.body_thread_id := Some (js "thread_1");
     Controllers.body_message := Some (js "hi") |}.

End HandlerScenario.
Import HandlerScenario.


(* ================================================================== *)
(** * Properties of the strings *)
(* ================================================================== *)

Lemma eqb_eq (a b : jsstring) : eqb a b = true <-> a = b.
Proof.
  unfold eqb. destruct (list_eq_dec N.eq_dec a b); split; congruence.
Qed.

Lemma eqb_refl (a : jsstring) : eqb a a = true.
Proof. now apply eqb_eq. Qed.

Lemma eqb_neq (a b : jsstring) : eqb a b = false <-> a <> b.
Proof.
  unfold eqb. destruct (list_eq_dec N.eq_dec a b); split; congruence.
Qed.

(** ** The matcher on the citation pattern *)

Lemma lazy_close (cl : char16) (s : jsstring) :
  exec (Cat LazyDotStar (Lit cl)) s Some = find_close cl s.
Proof.
  induction s as [|d s IH]; simpl; [reflexivity|].
  destruct (N.eqb d cl); [reflexivity|].
  destruct (line_terminator d); [reflexivity|].
  exact IH.
Qed.

Lemma match_here_nil : match_here [] = None.
Proof. reflexivity. Qed.

Lemma match_here_cons (c : char16) (rest : jsstring) :
  match_here (c :: rest) =
  if N.eqb c thick_open then find_close thick_close rest
  else if N.eqb c square_open then find_close square_close rest
  else None.
Proof.
  unfold match_here, citation.
  change (exec (Alt ?a ?b) ?s ?k)
    with (match exec a s k with Some r => Some r | None => exec b s k end).
  change (exec (Cat (Lit ?o) ?r) (c :: rest) Some)
    with (if N.eqb c o then exec r rest Some else None).
  rewrite !lazy_close.
  destruct (N.eqb c thick_open) eqn:Ht.
  - apply N.eqb_eq in Ht. subst c.
    destruct (find_close thick_close rest); reflexivity.
  - reflexivity.
Qed.

Lemma find_close_shorter (cl : char16) (s r : jsstring) :
  find_close cl s = Some r -> List.length r < List.length s.
Proof.
  revert r. induction s as [|d s IH]; simpl; intros r H; [discriminate|].
  destruct (N.eqb d cl).
  - injection H as <-. lia.
  - destruct (line_terminator d); [discriminate|].
    apply IH in H. lia.
Qed.

Lemma match_here_shorter (s r : jsstring) :
  match_here s = Some r -> List.length r < List.length s.
Proof.
  destruct s as [|c rest]; [discriminate|].
  rewrite match_here_cons.
  destruct (N.eqb c thick_open);
    [|destruct (N.eqb c square_open); [|discriminate]];
    intros H; apply find_close_shorter in H; simpl; lia.
Qed.

(** ** The global replace *)

(** Any fuel from the length of the input on gives the same result. *)
Lemma replace_loop_fuel_eq (n : nat) :
  forall s f1 f2,
    List.length s <= n -> List.length s <= f1 -> List.length s <= f2 ->
    replace_loop f1 s = replace_loop f2 s.
Proof.
  induction n as [|n IH]; intros s f1 f2 Hn H1 H2.
  - destruct s; [|simpl in Hn; lia]. destruct f1, f2; reflexivity.
  - destruct s as [|c rest]; [destruct f1, f2; reflexivity|].
    simpl in Hn, H1, H2.
    destruct f1 as [|f1]; [lia|]. destruct f2 as [|f2]; [lia|].
    cbn [replace_loop].
    destruct (match_here (c :: rest)) as [after|] eqn:E.
    + apply match_here_shorter in E. simpl in E. apply IH; lia.
    + f_equal. apply IH; lia.
Qed.

Lemma replace_loop_fuel (fuel : nat) (s : jsstring) :
  List.length s <= fuel -> replace_loop fuel s = replaceAll s.
Proof.
  intros H. apply replace_loop_fuel_eq with (n := List.length s); lia.
Qed.

Lemma replaceAll_nil : replaceAll [] = [].
Proof. reflexivity. Qed.

Lemma replaceAll_cons (c : char16) (rest : jsstring) :
  replaceAll (c :: rest) =
  match match_here (c :: rest) with
  | Some after => replaceAll after
  | None => c :: replaceAll rest
  end.
Proof.
  unfold replaceAll. cbn [List.length replace_loop].
  destruct (match_here (c :: rest)) as [after|] eqn:E; [|reflexivity].
  apply match_here_shorter in E. simpl in E.
  apply replace_loop_fuel. lia.
Qed.

(** Induction on the length of the input, the scheme of the scan. *)
Lemma scan_ind (P : jsstring -> Prop) :
  P [] ->
  (forall c rest after,
      match_here (c :: rest) = Some after -> P after -> P (c :: rest)) ->
  (forall c rest, match_here (c :: rest) = None -> P rest -> P (c :: rest)) ->
  forall s, P s.
Proof.
  intros Hnil Hhit Hmiss s.
  remember (List.length s) as n eqn:Hn.
  revert s Hn. induction n as [n IH] using lt_wf_ind. intros s ->.
  destruct s as [|c rest]; [exact Hnil|].
  destruct (match_here (c :: rest)) as [after|] eqn:E.
  - apply Hhit with after; [exact E|].
    apply (IH (List.length after)); [now apply match_here_shorter in E|reflexivity].
  - apply Hmiss; [exact E|].
    apply (IH (List.length rest)); [simpl; lia|reflexivity].
Qed.

(** A closing bracket that is out of reach stays out of reach when an
    earlier match is taken out. *)
Lemma find_close_skip (cl cl' : char16) (s after : jsstring) :
  line_terminator cl' = false ->
  find_close cl s = None -> find_close cl' s = Some after ->
  find_close cl after = None.
Proof.
  intros Hcl'. revert after.
  induction s as [|d s IH]; simpl; intros after H H'; [discriminate|].
  destruct (N.eqb d cl); [discriminate|].
  destruct (N.eqb d cl') eqn:E.
  - injection H' as <-. apply N.eqb_eq in E. subst d.
    rewrite Hcl' in H. exact H.
  - destruct (line_terminator d); [discriminate|]. now apply IH.
Qed.

Lemma match_here_skip (cl : char16) (c : char16) (rest after : jsstring) :
  find_close cl rest = None -> match_here (c :: rest) = Some after ->
  find_close cl after = None.
Proof.
  rewrite match_here_cons. intros H.
  destruct (N.eqb c thick_open);
    [|destruct (N.eqb c square_open); [|discriminate]];
    apply find_close_skip; auto.
Qed.

Lemma find_close_replaceAll (cl : char16) (s : jsstring) :
  find_close cl s = None -> find_close cl (replaceAll s) = None.
Proof.
  induction s as [|c rest after E IH|c rest E IH] using scan_ind.
  - auto.
  - intros H. rewrite replaceAll_cons, E. apply IH.
    simpl in H. destruct (N.eqb c cl); [discriminate|].
    destruct (line_terminator c) eqn:L.
    + (* a match never starts at a line terminator *)
      rewrite match_here_cons in E.
      unfold line_terminator in L.
      destruct (N.eqb c thick_open) eqn:E1;
        [apply N.eqb_eq in E1; subst c; discriminate|].
      destruct (N.eqb c square_open) eqn:E2;
        [apply N.eqb_eq in E2; subst c; discriminate|discriminate].
    + eapply match_here_skip; eauto.
  - intros H. rewrite replaceAll_cons, E. simpl in *.
    destruct (N.eqb c cl); [discriminate|].
    destruct (line_terminator c); [reflexivity|]. now apply IH.
Qed.

(** The output of the replace holds no match. *)
Lemma replaceAll_no_match (s : jsstring) : no_match (replaceAll s).
Proof.
  induction s as [|c rest after E IH|c rest E IH] using scan_ind.
  - exact I.
  - rewrite replaceAll_cons, E. exact IH.
  - rewrite replaceAll_cons, E. split; [|exact IH].
    rewrite match_here_cons in *.
    destruct (N.eqb c thick_open);
      [|destruct (N.eqb c square_open); [|reflexivity]];
      now apply find_close_replaceAll.
Qed.

(** Without a match the replace changes nothing. *)
Lemma no_match_replaceAll (s : jsstring) : no_match s -> replaceAll s = s.
Proof.
  induction s as [|c rest IH]; [reflexivity|].
  intros [E H]. rewrite replaceAll_cons, E. f_equal. now apply IH.
Qed.

Lemma find_close_app_none (cl : char16) (a b : jsstring) :
  find_close cl (a ++ b) = None -> find_close cl a = None.
Proof.
  induction a as [|d a IH]; simpl; [reflexivity|].
  destruct (N.eqb d cl); [discriminate|].
  destruct (line_terminator d); auto.
Qed.

Lemma no_match_app_l (a b : jsstring) : no_match (a ++ b) -> no_match a.
Proof.
  induction a as [|c a IH]; simpl; [auto|].
  intros [E H]. split; [|now apply IH].
  change (match_here (c :: a ++ b) = None) in E.
  rewrite match_here_cons in *.
  destruct (N.eqb c thick_open);
    [|destruct (N.eqb c square_open); [|reflexivity]];
    eapply find_close_app_none; eauto.
Qed.

Lemma no_match_app_r (a b : jsstring) : no_match (a ++ b) -> no_match b.
Proof.
  induction a as [|c a IH]; simpl; [auto|]. intros [_ H]. now apply IH.
Qed.

(** A span on one line is a match. *)
Lemma find_close_line (cl : char16) (body b : jsstring) :
  one_line body = true -> find_close cl (body ++ cl :: b) <> None.
Proof.
  induction body as [|d body IH]; simpl; intros H.
  - rewrite N.eqb_refl. discriminate.
  - apply andb_prop in H as [Hd H].
    destruct (N.eqb d cl); [discriminate|].
    apply negb_true_iff in Hd. rewrite Hd. now apply IH.
Qed.

Lemma no_match_line_span (op cl : char16) (s u : jsstring) :
  (forall rest, match_here (op :: rest) = find_close cl rest) ->
  no_match s -> line_span op cl u -> ~ contains s u.
Proof.
  intros Hop H (body & -> & L) (a & b & ->).
  apply no_match_app_r in H. cbn [app no_match] in H. destruct H as [E _].
  rewrite Hop, <- app_assoc in E. cbn [app] in E.
  now apply (find_close_line cl body b) in L.
Qed.

Lemma no_match_line_span_free (s : jsstring) :
  no_match s -> line_span_free s.
Proof.
  intros H u [Hu|Hu]; revert Hu; apply no_match_line_span; auto;
    intros rest; now rewrite match_here_cons.
Qed.

(** ** [trim] *)

Lemma trimStart_suffix (s : jsstring) : exists p, s = p ++ trimStart s.
Proof.
  induction s as [|c s [p IH]]; [now exists []|]. simpl.
  destruct (trimmable c).
  - exists (c :: p). simpl. now f_equal.
  - now exists [].
Qed.

Lemma trimEnd_prefix (s : jsstring) : exists q, s = trimEnd s ++ q.
Proof.
  unfold trimEnd. destruct (trimStart_suffix (rev s)) as [p E].
  exists (rev p). rewrite <- rev_app_distr, <- E. now rewrite rev_involutive.
Qed.

Lemma trimStart_start_ok (s : jsstring) : start_ok (trimStart s).
Proof.
  induction s as [|c s IH]; [exact I|]. simpl.
  destruct (trimmable c) eqn:E; [exact IH|exact E].
Qed.

Lemma start_ok_trimStart (s : jsstring) : start_ok s -> trimStart s = s.
Proof.
  destruct s as [|c s]; [reflexivity|]. simpl. now intros ->.
Qed.

Lemma trimStart_app_keep (c : char16) (l m : jsstring) :
  trimmable c = false -> trimStart (l ++ c :: m) = trimStart l ++ c :: m.
Proof.
  intros Hc. induction l as [|d l IH]; simpl.
  - now rewrite Hc.
  - destruct (trimmable d); [exact IH|reflexivity].
Qed.

Lemma trimEnd_cons_keep (c : char16) (t : jsstring) :
  trimmable c = false -> trimEnd (c :: t) = c :: trimEnd t.
Proof.
  intros Hc. unfold trimEnd. simpl.
  rewrite trimStart_app_keep by exact Hc.
  rewrite rev_app_distr. reflexivity.
Qed.

Lemma start_ok_trimEnd (t : jsstring) : start_ok t -> start_ok (trimEnd t).
Proof.
  destruct t as [|c t]; [intros _; exact I|].
  simpl. intros Hc. now rewrite trimEnd_cons_keep.
Qed.

Lemma trimEnd_idem (s : jsstring) : trimEnd (trimEnd s) = trimEnd s.
Proof.
  unfold trimEnd. rewrite rev_involutive.
  now rewrite start_ok_trimStart by apply trimStart_start_ok.
Qed.

Lemma trim_idem (s : jsstring) : trim (trim s) = trim s.
Proof.
  unfold trim.
  rewrite start_ok_trimStart by apply start_ok_trimEnd, trimStart_start_ok.
  apply trimEnd_idem.
Qed.

Lemma no_match_trim (s : jsstring) : no_match s -> no_match (trim s).
Proof.
  intros H. unfold trim.
  destruct (trimStart_suffix s) as [p Ep].
  destruct (trimEnd_prefix (trimStart s)) as [q Eq].
  rewrite Ep in H. apply no_match_app_r in H.
  rewrite Eq in H. now apply no_match_app_l in H.
Qed.

(** ** [removeCitations] *)

Lemma removeCitations_no_match (text : jsstring) :
  no_match (removeCitations text).
Proof.
  unfold removeCitations. destruct (falsy text); [exact I|].
  apply no_match_trim, replaceAll_no_match.
Qed.

Lemma removeCitations_idem (text : jsstring) :
  removeCitations (removeCitations text) = removeCitations text.
Proof.
  pose proof (removeCitations_no_match text) as H.
  unfold removeCitations at 1.
  destruct (falsy (removeCitations text)) eqn:E.
  - destruct (removeCitations text); [reflexivity|discriminate].
  - rewrite (no_match_replaceAll _ H).
    unfold removeCitations. destruct (falsy text); [reflexivity|].
    apply trim_idem.
Qed.

(** ** [includes] and [replace] with a string pattern *)

Lemma starts_with_app (pat s : jsstring) :
  starts_with pat s = true <-> exists b, s = pat ++ b.
Proof.
  revert s. induction pat as [|p pat IH]; intros s; simpl.
  - split; [now exists s|reflexivity].
  - destruct s as [|c s].
    + split; [discriminate|]. intros [b H]. discriminate.
    + rewrite andb_true_iff, N.eqb_eq, IH. split.
      * intros [-> [b ->]]. now exists b.
      * intros [b H]. injection H as -> ->. split; [reflexivity|now exists b].
Qed.

Lemma skipn_pat (pat b : jsstring) : skipn (List.length pat) (pat ++ b) = b.
Proof. induction pat; simpl; auto. Qed.

Lemma includes_occurs (pat s : jsstring) :
  includes pat s = true <-> exists n, occurs_at pat s n.
Proof.
  induction s as [|c s IH].
  - simpl. rewrite orb_false_r, starts_with_app. split.
    + intros [b E]. exists 0, [], b. now split.
    + intros (n & a & b & E & _). destruct a; [now exists b|discriminate].
  - cbn [includes]. rewrite orb_true_iff, IH, starts_with_app. split.
    + intros [[b E]|(n & a & b & E & L)].
      * exists 0, [], b. now split.
      * exists (S n), (c :: a), b. subst. now split.
    + intros (n & a & b & E & L). destruct a as [|d a].
      * left. now exists b.
      * right. injection E as -> E. exists (List.length a), a, b. now split.
Qed.

(** [replace] takes out the leftmost occurrence and nothing else. *)
Lemma replace_first_leftmost (pat a b : jsstring) :
  (forall n, occurs_at pat (a ++ pat ++ b) n -> List.length a <= n) ->
  replace_first pat (a ++ pat ++ b) = a ++ b.
Proof.
  induction a as [|c a IH]; intros Hmin.
  - simpl app. 
    assert (E : starts_with pat (pat ++ b) = true)
      by (apply starts_with_app; now exists b).
    destruct pat as [|p pat]; [destruct b; reflexivity|].
    cbn [replace_first app]. cbn [app] in E. rewrite E.
    apply (skipn_pat (p :: pat)).
  - destruct (starts_with pat ((c :: a) ++ pat ++ b)) eqn:E.
    + apply starts_with_app in E as [b' E].
      assert (L : List.length (c :: a) <= 0).
      { apply Hmin. exists [], b'. now split. }
      simpl in L. lia.
    + cbn [app] in *. 
      replace (replace_first pat (c :: a ++ pat ++ b))
        with (c :: replace_first pat (a ++ pat ++ b)).
      * f_equal. apply IH. intros n (a' & b' & E' & L).
        assert (H : List.length (c :: a) <= S n).
        { apply Hmin. exists (c :: a'), b'. split; [now rewrite E'|simpl; lia]. }
        simpl in H. lia.
      * destruct pat; [discriminate|]. cbn [replace_first]. now rewrite E.
Qed.

Lemma replace_first_absent (pat s : jsstring) :
  includes pat s = false -> replace_first pat s = s.
Proof.
  induction s as [|c s IH]; cbn [includes]; intros H;
    apply orb_false_iff in H as [E H].
  - destruct pat; [discriminate|reflexivity].
  - destruct pat as [|p pat]; [discriminate|].
    cbn [replace_first]. rewrite E. f_equal. now apply IH.
Qed.

(** ** [strip_assistant] *)

Lemma strip_assistant_leftmost (p s : jsstring) :
  (forall n, occurs_at assistant_label (p ++ assistant_label ++ s) n ->
             List.length p <= n) ->
  strip_assistant (p ++ assistant_label ++ s) = p ++ s.
Proof.
  intros H. unfold strip_assistant.
  replace (includes assistant_label (p ++ assistant_label ++ s)) with true.
  - now apply replace_first_leftmost.
  - symmetry. apply includes_occurs.
    exists (List.length p), p, s. now split.
Qed.

Lemma strip_assistant_absent (v : jsstring) :
  (forall n, ~ occurs_at assistant_label v n) -> strip_assistant v = v.
Proof.
  intros H. unfold strip_assistant.
  destruct (includes assistant_label v) eqn:E; [|reflexivity].
  apply includes_occurs in E as [n Hn]. now apply H in Hn.
Qed.


(* ================================================================== *)
(** * Properties of [sendMessage] *)
(* ================================================================== *)

(** ** Counting the events of a trace *)

Lemma count_app (p : event -> bool) (tr tr' : list event) :
  count p (tr ++ tr') = count p tr + count p tr'.
Proof. unfold count. now rewrite filter_app, length_app. Qed.

Lemma status_fetches_app (tr tr' : list event) :
  status_fetches (tr ++ tr') = status_fetches tr + status_fetches tr'.
Proof. apply count_app. Qed.

Lemma listings_app (tr tr' : list event) :
  listings (tr ++ tr') = listings tr + listings tr'.
Proof. apply count_app. Qed.

Lemma status_fetches_poll_events (t id : jsstring) (n : nat) :
  status_fetches (poll_events t id n) = n.
Proof.
  induction n as [|n IH]; [reflexivity|].
  change (S (status_fetches (poll_events t id n)) = S n). now rewrite IH.
Qed.

Lemma listings_poll_events (t id : jsstring) (n : nat) :
  listings (poll_events t id n) = 0.
Proof. induction n as [|n IH]; [reflexivity|exact IH]. Qed.

Lemma listings_retry_events (t : jsstring) (attempt k : nat) :
  listings (retry_events t attempt k) = k.
Proof.
  revert attempt. induction k as [|k IH]; intros attempt; [reflexivity|].
  change (S (listings (retry_events t (S attempt) k)) = S k). now rewrite IH.
Qed.

Lemma status_fetches_retry_events (t : jsstring) (attempt k : nat) :
  status_fetches (retry_events t attempt k) = 0.
Proof.
  revert attempt. induction k as [|k IH]; intros attempt; [reflexivity|].
  apply IH.
Qed.

(** Unfolds the operations of the monad and the calls, and brings the
    traces to the form [tr ++ [e1; ...; en]]. *)
Ltac run_eff :=
  cbv [bind try_catch sleep emit console_log axios_get_run
       axios_list_messages axios_post_message axios_create_run await
       logError throw ret out_of_fuel];
  rewrite <- ?app_assoc; cbn [app].

(** ** Steps of the monad *)

Section Steps.

Context {A B : Type}.

Lemma bind_return (m : M A) (f : A -> M B) (tr tr' : list event) (a : A) :
  m tr = (Return a, tr') -> bind m f tr = f a tr'.
Proof. unfold bind. now intros ->. Qed.

Lemma bind_throw (m : M A) (f : A -> M B) (tr tr' : list event) (e : exn) :
  m tr = (Throw e, tr') -> bind m f tr = (Throw e, tr').
Proof. unfold bind. now intros ->. Qed.

Lemma bind_out_of_fuel (m : M A) (f : A -> M B) (tr tr' : list event) :
  m tr = (OutOfFuel, tr') -> bind m f tr = (OutOfFuel, tr').
Proof. unfold bind. now intros ->. Qed.

Lemma try_return (m : M A) (h : exn -> M A) (tr tr' : list event) (a : A) :
  m tr = (Return a, tr') -> try_catch m h tr = (Return a, tr').
Proof. unfold try_catch. now intros ->. Qed.

Lemma try_throw (m : M A) (h : exn -> M A) (tr tr' : list event) (e : exn) :
  m tr = (Throw e, tr') -> try_catch m h tr = h e tr'.
Proof. unfold try_catch. now intros ->. Qed.

Lemma try_bind_return (m : M A) (f : A -> M B) (h : exn -> M B)
      (tr tr' : list event) (a : A) :
  m tr = (Return a, tr') -> try_catch (bind m f) h tr = try_catch (f a) h tr'.
Proof. unfold try_catch, bind. now intros ->. Qed.

Lemma try_bind_throw (m : M A) (f : A -> M B) (h : exn -> M B)
      (tr tr' : list event) (e : exn) :
  m tr = (Throw e, tr') -> try_catch (bind m f) h tr = h e tr'.
Proof. unfold try_catch, bind. now intros ->. Qed.

End Steps.

Lemma bind_assoc {A B C} (m : M A) (f : A -> M B) (g : B -> M C)
      (tr : list event) :
  bind (bind m f) g tr = bind m (fun x => bind (f x) g) tr.
Proof. unfold bind. now destruct (m tr) as [[a|e|] tr']. Qed.

Lemma bind_ext {A B} (m : M A) (f g : A -> M B) (tr : list event) :
  (forall a tr', f a tr' = g a tr') -> bind m f tr = bind m g tr.
Proof. intros H. unfold bind. destruct (m tr) as [[a|e|] tr']; auto. Qed.

Lemma bind_cong {A B} (m m' : M A) (f g : A -> M B) (tr : list event) :
  m tr = m' tr -> (forall a tr', f a tr' = g a tr') ->
  bind m f tr = bind m' g tr.
Proof.
  intros Hm H. unfold bind. rewrite Hm.
  destruct (m' tr) as [[a|e|] tr']; auto.
Qed.

Lemma try_cong {A} (m m' : M A) (h : exn -> M A) (tr : list event) :
  m tr = m' tr -> try_catch m h tr = try_catch m' h tr.
Proof. intros Hm. unfold try_catch. now rewrite Hm. Qed.

(** ** The polling loop *)

Section Polling.

Variable api : remote.
Variables threadId runId : jsstring.

Lemma poll_done (fuel : nat) (response : run) (tr : list event) :
  pending (run_status response) = false ->
  poll api fuel threadId runId response tr = (Return response, tr).
Proof. intros H. destruct fuel; simpl; now rewrite H. Qed.

Lemma poll_turn (fuel : nat) (response : run) (tr : list event) :
  pending (run_status response) = true ->
  poll api (S fuel) threadId runId response tr =
  match get_run api (status_fetches tr) with
  | inr x =>
      poll api fuel threadId runId x
           (tr ++ [Sleep 5000; Call (GetRun threadId runId)])
  | inl e =>
      (Throw (AxiosError e),
       tr ++ [Sleep 5000; Call (GetRun threadId runId);
              Log Site3 (AxiosError e)])
  end.
Proof.
  intros H. cbn [poll]. rewrite H.
  run_eff. rewrite status_fetches_app, Nat.add_0_r.
  destruct (get_run api (status_fetches tr)); run_eff; reflexivity.
Qed.

(** While the run is pending the loop goes on: [n] pending fetches make
    [n] turns. *)
Lemma poll_pending (n : nat) :
  forall fuel tr response,
    pending (run_status response) = true ->
    (forall i, i < n ->
       exists x, get_run api (status_fetches tr + i) = inr x /\
                 pending (run_status x) = true) ->
    n <= fuel ->
    exists response',
      pending (run_status response') = true /\
      poll api fuel threadId runId response tr =
      poll api (fuel - n) threadId runId response'
           (tr ++ poll_events threadId runId n).
Proof.
  induction n as [|n IH]; intros fuel tr response Hp Hs Hf.
  - exists response. now rewrite Nat.sub_0_r, app_nil_r.
  - destruct fuel as [|fuel]; [lia|].
    destruct (Hs 0) as (x & Ex & Px); [lia|]. rewrite Nat.add_0_r in Ex.
    rewrite poll_turn, Ex by exact Hp.
    destruct (IH fuel (tr ++ [Sleep 5000; Call (GetRun threadId runId)]) x)
      as (r' & Pr' & E); [exact Px| |lia|].
    + intros i Hi. rewrite status_fetches_app.
      destruct (Hs (S i)) as (y & Ey & Py); [lia|].
      exists y. split; [|exact Py]. rewrite <- Ey. f_equal.
      change (status_fetches [Sleep 5000; Call (GetRun threadId runId)])
        with 1. lia.
    + exists r'. split; [exact Pr'|]. rewrite E, <- app_assoc. reflexivity.
Qed.

Lemma poll_events_snoc (n : nat) :
  poll_events threadId runId (S n) =
  poll_events threadId runId n ++ [Sleep 5000; Call (GetRun threadId runId)].
Proof.
  induction n as [|n IH]; [reflexivity|].
  change (Sleep 5000 :: Call (GetRun threadId runId)
            :: poll_events threadId runId (S n) =
          (Sleep 5000 :: Call (GetRun threadId runId)
             :: poll_events threadId runId n)
            ++ [Sleep 5000; Call (GetRun threadId runId)]).
  rewrite IH. reflexivity.
Qed.

(** The first fetch and the loop, up to the fetch of rank [n]. *)
Lemma await_run_reach (n : nat) (fuel : nat) (tr : list event) :
  status_fetches tr = 0 -> pending_before api (S n) -> n <= fuel ->
  exists response,
    pending (run_status response) = true /\
    await_run api fuel threadId runId tr =
    poll api (fuel - n) threadId runId response
         (tr ++ Call (GetRun threadId runId) :: poll_events threadId runId n).
Proof.
  intros Htr Hp Hf. unfold await_run.
  destruct (Hp 0) as (x & Ex & Px); [lia|].
  erewrite bind_return;
    [|apply try_return; unfold axios_get_run, await;
      rewrite Htr, Ex; reflexivity].
  destruct (@poll_pending n fuel (tr ++ [Call (GetRun threadId runId)]) x)
    as (r' & Pr' & E); [exact Px| |exact Hf|].
  - intros i Hi. rewrite status_fetches_app, Htr.
    destruct (Hp (S i)) as (y & Ey & Py); [lia|]. now exists y.
  - exists r'. split; [exact Pr'|]. rewrite E, <- app_assoc. reflexivity.
Qed.

Lemma status_fetches_reached (n : nat) (tr : list event) :
  status_fetches tr = 0 ->
  status_fetches
    (tr ++ Call (GetRun threadId runId) :: poll_events threadId runId n)
  = S n.
Proof.
  intros Htr. rewrite status_fetches_app, Htr.
  change (S (status_fetches (poll_events threadId runId n)) = S n).
  now rewrite status_fetches_poll_events.
Qed.

(** The fetch of rank [n] is the first that finds the run out of the
    pending statuses: the loop is left with it. *)
Lemma await_run_final (n : nat) (fuel : nat) (tr : list event) (final : run) :
  status_fetches tr = 0 -> pending_before api n ->
  get_run api n = inr final -> pending (run_status final) = false ->
  n <= fuel ->
  await_run api fuel threadId runId tr =
  (Return final,
   tr ++ Call (GetRun threadId runId) :: poll_events threadId runId n).
Proof.
  intros Htr Hp Ef Pf Hf. destruct n as [|n].
  - unfold await_run. erewrite bind_return;
      [|apply try_return; unfold axios_get_run, await;
        rewrite Htr, Ef; reflexivity].
    now apply poll_done.
  - destruct (@await_run_reach n fuel tr) as (r & Pr & ->);
      [exact Htr|exact Hp|lia|].
    replace (fuel - n) with (S (fuel - S n)) by lia.
    rewrite poll_turn by exact Pr.
    rewrite status_fetches_reached, Ef by exact Htr.
    rewrite poll_done by exact Pf.
    rewrite poll_events_snoc, <- app_assoc. reflexivity.
Qed.

(** The fetch of rank [n] is rejected: the error is logged and thrown,
    no further fetch is made. *)
Lemma await_run_rejected (n : nat) (fuel : nat) (tr : list event)
      (e : jsstring) :
  status_fetches tr = 0 -> pending_before api n ->
  get_run api n = inl e -> n <= fuel ->
  await_run api fuel threadId runId tr =
  (Throw (AxiosError e),
   tr ++ Call (GetRun threadId runId) :: poll_events threadId runId n
      ++ [Log (fetch_site n) (AxiosError e)]).
Proof.
  intros Htr Hp Ef Hf. destruct n as [|n].
  - unfold await_run. erewrite bind_throw; [reflexivity|].
    erewrite try_throw;
      [|unfold axios_get_run, await; rewrite Htr, Ef; reflexivity].
    run_eff. reflexivity.
  - destruct (@await_run_reach n fuel tr) as (r & Pr & ->);
      [exact Htr|exact Hp|lia|].
    replace (fuel - n) with (S (fuel - S n)) by lia.
    rewrite poll_turn by exact Pr.
    rewrite status_fetches_reached, Ef by exact Htr.
    rewrite poll_events_snoc, <- !app_assoc. reflexivity.
Qed.

End Polling.

(** ** The retrieval loop *)

Section Retrieval.

Variable api : remote.
Variables threadId runId : jsstring.

Lemma has_text_unanswered (lastMessage : option message) (tr : list event) :
  unanswered lastMessage = true ->
  has_text lastMessage tr = (Return false, tr).
Proof.
  destruct lastMessage as [m|]; [|reflexivity]. simpl.
  destruct (msg_content m) as [[|[[|c v]|] ps]|]; try discriminate;
    reflexivity.
Qed.

Lemma has_text_answer (lastMessage : option message) (v : jsstring)
      (tr : list event) :
  answer_of lastMessage = Some v ->
  has_text lastMessage tr = (Return true, tr) /\
  text_value lastMessage tr = (Return v, tr).
Proof.
  destruct lastMessage as [m|]; [|discriminate]. simpl.
  destruct (msg_content m) as [[|[[|c w]|] ps]|]; try discriminate.
  intros [= <-]. split; reflexivity.
Qed.

Lemma has_text_true (lastMessage : option message) (tr tr' : list event) :
  has_text lastMessage tr = (Return true, tr') ->
  exists v, answer_of lastMessage = Some v.
Proof.
  destruct lastMessage as [m|]; [|discriminate]. simpl.
  destruct (msg_content m) as [[|[[|c w]|] ps]|]; try discriminate.
  intros _. now exists (c :: w).
Qed.

(** A turn whose listing is rejected: the error is logged and thrown
    again, the loop is left. *)
Lemma retrieve_rejected (remaining attempt : nat) (lm : option message)
      (tr : list event) (e : jsstring) :
  list_messages api (listings tr) = inl e ->
  retrieve api (S remaining) attempt threadId runId lm tr =
  (Throw (AxiosError e),
   tr ++ [Call (ListMessages threadId);
          Log (SiteRetry (attempt + 1)) (AxiosError e)]).
Proof. intros E. cbn [retrieve]. run_eff. rewrite E. run_eff. reflexivity. Qed.

(** A turn that finds no answer: a line on the console, the delay, and
    the next turn. *)
Lemma retrieve_miss (remaining attempt : nat) (lm : option message)
      (tr : list event) (data : list message) :
  list_messages api (listings tr) = inr data ->
  unanswered (select runId data) = true ->
  retrieve api (S remaining) attempt threadId runId lm tr =
  retrieve api remaining (S attempt) threadId runId (select runId data)
           (tr ++ [Call (ListMessages threadId); Console (attempt + 1);
                   Sleep delay]).
Proof.
  intros E U. cbn [retrieve].
  unfold bind at 1. unfold try_catch. unfold bind at 1.
  unfold axios_list_messages, await. rewrite E.
  unfold bind at 1. rewrite (has_text_unanswered _ _ U).
  run_eff. reflexivity.
Qed.

(** A turn that finds the answer: [break]. *)
Lemma retrieve_hit (remaining attempt : nat) (lm : option message)
      (tr : list event) (data : list message) (v : jsstring) :
  list_messages api (listings tr) = inr data ->
  answer_of (select runId data) = Some v ->
  retrieve api (S remaining) attempt threadId runId lm tr =
  (Return (select runId data), tr ++ [Call (ListMessages threadId)]).
Proof.
  intros E A. cbn [retrieve].
  unfold bind at 1. unfold try_catch. unfold bind at 1.
  unfold axios_list_messages, await. rewrite E.
  unfold bind at 1.
  destruct (has_text_answer _ (tr ++ [Call (ListMessages threadId)]) A)
    as [-> _].
  reflexivity.
Qed.

(** [k] turns without an answer. *)
Lemma retrieve_misses (k : nat) :
  forall remaining attempt lm tr,
    unanswered lm = true ->
    (forall i, i < k ->
       exists data, list_messages api (listings tr + i) = inr data /\
                    unanswered (select runId data) = true) ->
    exists lm',
      unanswered lm' = true /\
      retrieve api (k + remaining) attempt threadId runId lm tr =
      retrieve api remaining (attempt + k) threadId runId lm'
               (tr ++ retry_events threadId attempt k).
Proof.
  induction k as [|k IH]; intros remaining attempt lm tr U H.
  - exists lm. now rewrite Nat.add_0_r, app_nil_r.
  - destruct (H 0) as (data & E & Ud); [lia|]. rewrite Nat.add_0_r in E.
    cbn [Nat.add]. rewrite (retrieve_miss _ _ _ _ E Ud).
    destruct (IH remaining (S attempt) (select runId data)
                 (tr ++ [Call (ListMessages threadId);
                         Console (attempt + 1); Sleep delay]))
      as (lm' & U' & E'); [exact Ud| |].
    + intros i Hi. destruct (H (S i)) as (d & Ed & Udd); [lia|].
      exists d. split; [|exact Udd]. rewrite <- Ed. f_equal.
      rewrite listings_app.
      change (listings [Call (ListMessages threadId);
                        Console (attempt + 1); Sleep delay]) with 1.
      lia.
    + exists lm'. split; [exact U'|]. rewrite E', <- app_assoc.
      cbn [app retry_events]. f_equal. lia.
Qed.

(** What the loop returns is its initial [lastMessage] or the selection
    of a listing. *)
Lemma retrieve_returns (remaining : nat) :
  forall attempt lm tr res tr',
    retrieve api remaining attempt threadId runId lm tr = (Return res, tr') ->
    res = lm \/
    exists i data, list_messages api i = inr data /\ res = select runId data.
Proof.
  induction remaining as [|remaining IH]; intros attempt lm tr res tr'.
  - simpl. intros [= <- _]. now left.
  - cbn [retrieve].
    unfold bind at 1. unfold try_catch. unfold bind at 1.
    unfold axios_list_messages, await.
    destruct (list_messages api (listings tr)) as [e|data] eqn:E.
    + run_eff. discriminate.
    + unfold bind at 1.
      destruct (has_text (select runId data)
                         (tr ++ [Call (ListMessages threadId)]))
        as [[[|]|e|] tr1] eqn:Ht; run_eff; try discriminate.
      * intros [= <- _]. right. now exists (listings tr), data.
      * intros H. apply IH in H as [->|H]; [|now right].
        right. now exists (listings tr), data.
Qed.

(** The selection is the last message of the run in the listing. *)
Lemma pop_last {A} (l : list A) (a : A) :
  pop l = Some a -> exists l', l = l' ++ [a].
Proof.
  induction l as [|b l IH]; [discriminate|].
  destruct l as [|c l].
  - intros [= ->]. now exists [].
  - intros H. destruct (IH H) as [l' E]. exists (b :: l'). simpl.
    now rewrite <- E.
Qed.

Lemma filter_snoc_split (p : message -> bool) (data l' : list message)
      (m : message) :
  filter p data = l' ++ [m] ->
  exists before after,
    data = before ++ m :: after /\ p m = true /\
    forall m', In m' after -> p m' = false.
Proof.
  revert l'. induction data as [|d data IH]; intros l' E.
  - destruct l'; discriminate.
  - simpl in E. destruct (p d) eqn:Pd.
    + destruct l' as [|x l'].
      * injection E as -> E. exists [], data. repeat split; auto.
        intros m' Hm'. destruct (p m') eqn:Pm'; [|reflexivity].
        assert (Hin : In m' (filter p data)) by (apply filter_In; auto).
        now rewrite E in Hin.
      * injection E as -> E. destruct (IH _ E) as (b & a & -> & Pm & Ha).
        exists (x :: b), a. auto.
    + destruct (IH _ E) as (b & a & -> & Pm & Ha).
      exists (d :: b), a. auto.
Qed.

Lemma select_last_of_run (data : list message) (m : message) :
  select runId data = Some m -> last_of_run runId data m.
Proof.
  unfold select. intros H. apply pop_last in H as [l' E].
  now apply filter_snoc_split in E.
Qed.

End Retrieval.


(** ** Which events a computation adds *)

Section Emits.

Variable P : event -> Prop.

Lemma emits_ret {A} (a : A) : emits P (ret a).
Proof. intros tr. exists []. now rewrite app_nil_r. Qed.

Lemma emits_throw {A} (e : exn) : emits P (@throw A e).
Proof. intros tr. exists []. now rewrite app_nil_r. Qed.

Lemma emits_out_of_fuel {A} : emits P (@out_of_fuel A).
Proof. intros tr. exists []. now rewrite app_nil_r. Qed.

Lemma emits_emit (e : event) : P e -> emits P (emit e).
Proof. intros H tr. exists [e]. split; [reflexivity|now constructor]. Qed.

Lemma emits_await {A} (q : request) (answer : list event -> jsstring + A) :
  P (Call q) -> emits P (fun tr => await q (answer tr) tr).
Proof.
  intros H tr. exists [Call q]. unfold await.
  destruct (answer tr); (split; [reflexivity|now constructor]).
Qed.

Lemma emits_bind {A B} (m : M A) (f : A -> M B) :
  emits P m -> (forall a, emits P (f a)) -> emits P (bind m f).
Proof.
  intros Hm Hf tr. unfold bind. destruct (Hm tr) as (evs & E & F).
  destruct (m tr) as [[a|e|] tr']; simpl in E; subst tr';
    [|now exists evs..].
  destruct (Hf a (tr ++ evs)) as (evs' & E' & F').
  exists (evs ++ evs'). rewrite E', app_assoc. split; [reflexivity|].
  apply Forall_app. now split.
Qed.

Lemma emits_try {A} (m : M A) (h : exn -> M A) :
  emits P m -> (forall e, emits P (h e)) -> emits P (try_catch m h).
Proof.
  intros Hm Hh tr. unfold try_catch. destruct (Hm tr) as (evs & E & F).
  destruct (m tr) as [[a|e|] tr']; simpl in E; subst tr';
    [now exists evs| |now exists evs].
  destruct (Hh e (tr ++ evs)) as (evs' & E' & F').
  exists (evs ++ evs'). rewrite E', app_assoc. split; [reflexivity|].
  apply Forall_app. now split.
Qed.

Lemma emits_logError {A} (site : log_site) (e : exn) :
  P (Log site e) -> emits P (@logError A site e).
Proof.
  intros H. apply emits_bind; [now apply emits_emit|].
  intros _. apply emits_throw.
Qed.

Variable api : remote.
Variables threadId runId : jsstring.

Lemma emits_has_text (lm : option message) : emits P (has_text lm).
Proof.
  destruct lm as [m|]; [|apply emits_ret]. simpl.
  destruct (msg_content m) as [[|[v|] ps]|];
    auto using emits_ret, emits_throw.
Qed.

Lemma emits_text_value (lm : option message) : emits P (text_value lm).
Proof.
  destruct lm as [m|]; [|apply emits_throw]. simpl.
  destruct (msg_content m) as [[|[v|] ps]|];
    auto using emits_ret, emits_throw.
Qed.

Hypothesis P_log : forall site e, P (Log site e).
Hypothesis P_sleep : forall ms, P (Sleep ms).
Hypothesis P_console : forall n, P (Console n).

Lemma emits_retrieve (remaining : nat) :
  P (Call (ListMessages threadId)) ->
  forall attempt lm,
    emits P (retrieve api remaining attempt threadId runId lm).
Proof.
  intros Hl.
  induction remaining as [|remaining IH]; intros attempt lm;
    [apply emits_ret|].
  cbn [retrieve]. apply emits_bind.
  - apply emits_try; [|intros e; now apply emits_logError].
    apply emits_bind; [now apply emits_await|]. intros data.
    apply emits_bind; [apply emits_has_text|]. intros [|].
    + apply emits_ret.
    + apply emits_bind; [now apply emits_emit|]. intros _.
      apply emits_bind; [now apply emits_emit|]. intros _.
      apply emits_ret.
  - intros [lm'|lm']; [apply emits_ret|apply IH].
Qed.

Lemma emits_answer_phase :
  P (Call (ListMessages threadId)) ->
  emits P (answer_phase api threadId runId).
Proof.
  intros Hl. unfold answer_phase.
  apply emits_bind; [now apply emits_retrieve|]. intros lm.
  apply emits_bind; [apply emits_has_text|]. intros [|]; simpl.
  - apply emits_bind; [apply emits_text_value|]. intros v. apply emits_ret.
  - apply emits_throw.
Qed.

Lemma emits_poll (fuel : nat) :
  P (Call (GetRun threadId runId)) ->
  forall response, emits P (poll api fuel threadId runId response).
Proof.
  intros Hg. induction fuel as [|fuel IH]; intros response; cbn [poll];
    destruct (pending (run_status response));
    try apply emits_ret; try apply emits_out_of_fuel.
  apply emits_bind; [now apply emits_emit|]. intros _.
  apply emits_bind; [|exact IH].
  apply emits_try; [now apply emits_await|].
  intros e. now apply emits_logError.
Qed.

Lemma emits_await_run (fuel : nat) :
  P (Call (GetRun threadId runId)) ->
  emits P (await_run api fuel threadId runId).
Proof.
  intros Hg. unfold await_run. apply emits_bind; [|now apply emits_poll].
  apply emits_try; [now apply emits_await|].
  intros e. now apply emits_logError.
Qed.

End Emits.

Lemma retrieval_no_fetch (evs : list event) :
  Forall retrieval_event evs -> status_fetches evs = 0.
Proof.
  induction 1 as [|e evs He _ IH]; [reflexivity|].
  destruct e as [[]| | |]; try contradiction; exact IH.
Qed.

Lemma retrieval_no_create (evs : list event) :
  Forall retrieval_event evs -> count is_create_run evs = 0.
Proof.
  induction 1 as [|e evs He _ IH]; [reflexivity|].
  destruct e as [[]| | |]; try contradiction; exact IH.
Qed.

(** ** The phases of [sendMessage] *)

Section Exchange.

Variable api : remote.
Variable fuel : nat.
Variables message threadId assistantId : jsstring.

Lemma sendMessage_invalid (tr : list event) :
  falsy message || falsy threadId || falsy assistantId = true ->
  sendMessage api fuel message threadId assistantId tr =
  (Throw invalid_payload, tr).
Proof. unfold sendMessage. now intros ->. Qed.

Hypothesis valid :
  falsy message || falsy threadId || falsy assistantId = false.

(** The post is rejected: logged at "sendMessage 1" and thrown. *)
Lemma sendMessage_post_rejected (tr : list event) (e : jsstring) :
  post_message api = inl e ->
  sendMessage api fuel message threadId assistantId tr =
  (Throw (AxiosError e),
   tr ++ [Call (PostMessage threadId message); Log Site1 (AxiosError e)]).
Proof.
  intros E. unfold sendMessage. rewrite valid.
  erewrite bind_throw; [reflexivity|].
  erewrite try_throw;
    [|unfold axios_post_message, await; rewrite E; reflexivity].
  run_eff. reflexivity.
Qed.

(** After the post: the [try] block that starts with the run
    creation. *)
Lemma sendMessage_posted (tr : list event) (u : unit) :
  post_message api = inr u ->
  sendMessage api fuel message threadId assistantId tr =
  try_catch
    (bind (axios_create_run api threadId assistantId)
          (fun run =>
             bind (await_run api fuel threadId (run_id run))
                  (fun _ => answer_phase api threadId (run_id run))))
    (logError Site5)
    (tr ++ [Call (PostMessage threadId message)]).
Proof.
  intros E. unfold sendMessage. rewrite valid.
  erewrite bind_return;
    [|apply try_return; unfold axios_post_message, await; rewrite E;
      reflexivity].
  unfold try_catch.
  match goal with
  | |- match ?a with _ => _ end = match ?b with _ => _ end =>
      replace b with a; [reflexivity|]
  end.
  apply bind_ext. intros r0 tr1. unfold await_run.
  rewrite bind_assoc. reflexivity.
Qed.

Lemma sendMessage_create_rejected (tr : list event) (u : unit)
      (e : jsstring) :
  post_message api = inr u -> create_run api = inl e ->
  sendMessage api fuel message threadId assistantId tr =
  (Throw (AxiosError e),
   tr ++ [Call (PostMessage threadId message);
          Call (CreateRun threadId assistantId);
          Log Site5 (AxiosError e)]).
Proof.
  intros Ep Ec. rewrite (sendMessage_posted _ Ep).
  erewrite try_bind_throw;
    [|unfold axios_create_run, await; rewrite Ec; reflexivity].
  run_eff. reflexivity.
Qed.

Lemma sendMessage_created (u : unit) (r0 : run) :
  post_message api = inr u -> create_run api = inr r0 ->
  sendMessage api fuel message threadId assistantId [] =
  try_catch
    (bind (await_run api fuel threadId (run_id r0))
          (fun _ => answer_phase api threadId (run_id r0)))
    (logError Site5)
    [Call (PostMessage threadId message);
     Call (CreateRun threadId assistantId)].
Proof.
  intros Ep Ec. rewrite (sendMessage_posted _ Ep).
  erewrite try_bind_return;
    [|unfold axios_create_run, await; rewrite Ec; reflexivity].
  reflexivity.
Qed.

(** The polling ends at the status fetch of rank [n]. *)
Lemma sendMessage_polled (u : unit) (r0 final : run) (n : nat) :
  post_message api = inr u -> create_run api = inr r0 ->
  pending_before api n -> get_run api n = inr final ->
  pending (run_status final) = false -> n <= fuel ->
  sendMessage api fuel message threadId assistantId [] =
  try_catch (answer_phase api threadId (run_id r0)) (logError Site5)
            (polled_events message threadId assistantId (run_id r0) n).
Proof.
  intros Ep Ec Hp Ef Pf Hf. rewrite (sendMessage_created Ep Ec).
  erewrite try_bind_return;
    [|apply await_run_final with (n := n) (final := final); auto].
  reflexivity.
Qed.

(** The status fetch of rank [n] is rejected. *)
Lemma sendMessage_fetch_rejected (u : unit) (r0 : run) (n : nat)
      (e : jsstring) :
  post_message api = inr u -> create_run api = inr r0 ->
  pending_before api n -> get_run api n = inl e -> n <= fuel ->
  sendMessage api fuel message threadId assistantId [] =
  (Throw (AxiosError e),
   polled_events message threadId assistantId (run_id r0) n
     ++ [Log (fetch_site n) (AxiosError e); Log Site5 (AxiosError e)]).
Proof.
  intros Ep Ec Hp Ef Hf. rewrite (sendMessage_created Ep Ec).
  erewrite try_bind_throw;
    [|apply await_run_rejected with (n := n) (e := e); auto].
  run_eff. unfold polled_events. cbn [app]. rewrite <- app_assoc.
  reflexivity.
Qed.

End Exchange.

(** ** The answer phase *)

Section Answer.

Variable api : remote.
Variables threadId runId : jsstring.
Variable tr : list event.
Hypothesis no_listing : listings tr = 0.

Lemma misses_from (k : nat) :
  misses api runId k ->
  forall i, i < k ->
    exists data, list_messages api (listings tr + i) = inr data /\
                 unanswered (select runId data) = true.
Proof. intros H i Hi. rewrite no_listing. now apply H. Qed.

Lemma listings_retried (k : nat) :
  listings (tr ++ retry_events threadId 0 k) = k.
Proof. now rewrite listings_app, no_listing, listings_retry_events. Qed.

(** No listing of the five has an answer: the error of the retrieval. *)
Lemma answer_phase_exhausted :
  misses api runId retries ->
  answer_phase api threadId runId tr =
  (Throw not_retrieved, tr ++ retry_events threadId 0 retries).
Proof.
  intros H. unfold answer_phase.
  destruct (@retrieve_misses api threadId runId retries 0 0 None tr)
    as (lm & U & E); [reflexivity|now apply misses_from|].
  rewrite Nat.add_0_r in E.
  erewrite bind_return; [|rewrite E; reflexivity].
  erewrite bind_return; [|now apply has_text_unanswered].
  reflexivity.
Qed.

(** The listing of rank [k] is the first with an answer. *)
Lemma answer_phase_hit (k : nat) (data : list message) (v : jsstring) :
  k < retries -> misses api runId k ->
  list_messages api k = inr data ->
  answer_of (select runId data) = Some v ->
  answer_phase api threadId runId tr =
  (Return (strip_assistant v),
   tr ++ retry_events threadId 0 k ++ [Call (ListMessages threadId)]).
Proof.
  intros Hk Hm Ed Av. unfold answer_phase.
  destruct (@retrieve_misses api threadId runId k (retries - k) 0 None tr)
    as (lm & U & E); [reflexivity|now apply misses_from|].
  replace (k + (retries - k)) with retries in E by lia.
  replace (retries - k) with (S (retries - S k)) in E by lia.
  rewrite retrieve_hit with (data := data) (v := v) in E;
    [|now rewrite listings_retried|exact Av].
  erewrite bind_return; [|exact E].
  destruct (has_text_answer
              _ (tr ++ retry_events threadId 0 k
                    ++ [Call (ListMessages threadId)]) Av) as [Ht Ev].
  rewrite <- app_assoc.
  erewrite bind_return; [|exact Ht].
  cbn [negb]. erewrite bind_return; [|exact Ev]. reflexivity.
Qed.

(** The listing of rank [k] is rejected. *)
Lemma answer_phase_rejected (k : nat) (e : jsstring) :
  k < retries -> misses api runId k ->
  list_messages api k = inl e ->
  answer_phase api threadId runId tr =
  (Throw (AxiosError e),
   tr ++ retry_events threadId 0 k
      ++ [Call (ListMessages threadId);
          Log (SiteRetry (k + 1)) (AxiosError e)]).
Proof.
  intros Hk Hm Ee. unfold answer_phase.
  destruct (@retrieve_misses api threadId runId k (retries - k) 0 None tr)
    as (lm & U & E); [reflexivity|now apply misses_from|].
  replace (k + (retries - k)) with retries in E by lia.
  replace (retries - k) with (S (retries - S k)) in E by lia.
  rewrite retrieve_rejected with (e := e) in E
    by now rewrite listings_retried.
  erewrite bind_throw; [|exact E]. now rewrite <- app_assoc.
Qed.

End Answer.

Lemma listings_polled (m t a id : jsstring) (n : nat) :
  listings (polled_events m t a id n) = 0.
Proof.
  unfold polled_events. rewrite listings_app, listings_poll_events.
  reflexivity.
Qed.

Lemma status_fetches_polled (m t a id : jsstring) (n : nat) :
  status_fetches (polled_events m t a id n) = S n.
Proof.
  unfold polled_events. rewrite status_fetches_app, status_fetches_poll_events.
  reflexivity.
Qed.

(** ** The retrieval reads the remote through its listings only *)

Section SameListings.

Variables api api' : remote.
Variables threadId runId : jsstring.
Hypothesis same : forall i, list_messages api i = list_messages api' i.

Lemma retrieve_same_listings (remaining : nat) :
  forall attempt lm tr,
    retrieve api remaining attempt threadId runId lm tr =
    retrieve api' remaining attempt threadId runId lm tr.
Proof.
  induction remaining as [|remaining IH]; intros attempt lm tr;
    [reflexivity|].
  cbn [retrieve]. apply bind_cong.
  - apply try_cong. apply bind_cong; [|reflexivity].
    unfold axios_list_messages. now rewrite same.
  - intros [lm'|lm'] tr'; [reflexivity|apply IH].
Qed.

Lemma answer_phase_same_listings (tr : list event) :
  answer_phase api threadId runId tr = answer_phase api' threadId runId tr.
Proof.
  unfold answer_phase. apply bind_cong; [|reflexivity].
  apply retrieve_same_listings.
Qed.

End SameListings.

Lemma create_poll_events (t id : jsstring) (n : nat) :
  count is_create_run (poll_events t id n) = 0.
Proof. induction n as [|n IH]; [reflexivity|exact IH]. Qed.

Lemma create_polled (m t a id : jsstring) (n : nat) :
  count is_create_run (polled_events m t a id n) = 1.
Proof.
  unfold polled_events. rewrite count_app, create_poll_events. reflexivity.
Qed.

(** After the polling, the trace is the one of the polling followed by
    events of the retrieval. *)
Lemma answer_phase_trace (api : remote) (t id : jsstring) (tr : list event) :
  exists evs,
    snd (try_catch (answer_phase api t id) (logError Site5) tr) = tr ++ evs /\
    Forall retrieval_event evs.
Proof.
  apply (@emits_try retrieval_event).
  - apply emits_answer_phase; simpl; auto.
  - intros e. apply emits_logError. exact I.
Qed.

(** ** What [sendMessage] returns *)

Lemma try_bind_out_of_fuel {A B} (m : M A) (f : A -> M B) (h : exn -> M B)
      (tr tr' : list event) :
  m tr = (OutOfFuel, tr') -> try_catch (bind m f) h tr = (OutOfFuel, tr').
Proof. unfold try_catch, bind. now intros ->. Qed.

Lemma answer_phase_returns (api : remote) (t id : jsstring)
      (tr tr' : list event) (x : jsstring) :
  try_catch (answer_phase api t id) (logError Site5) tr = (Return x, tr') ->
  exists i data v,
    list_messages api i = inr data /\
    answer_of (select id data) = Some v /\
    x = strip_assistant v.
Proof.
  unfold answer_phase.
  destruct (retrieve api retries 0 t id None tr) as [[lm|e|] tr1] eqn:R.
  - erewrite try_bind_return by exact R.
    destruct (has_text lm tr1) as [[[|]|e|] tr2] eqn:Ht.
    + destruct (has_text_true _ _ Ht) as [v Av].
      destruct (has_text_answer _ tr1 Av) as [Ht' Ev].
      erewrite try_bind_return by exact Ht'. cbn [negb].
      erewrite try_bind_return by exact Ev.
      unfold try_catch, ret. intros [= <- _].
      apply retrieve_returns in R as [->|(i & data & Ed & ->)];
        [discriminate|].
      now exists i, data, v.
    + erewrite try_bind_return by exact Ht. cbn [negb].
      run_eff. discriminate.
    + erewrite try_bind_throw by exact Ht. run_eff. discriminate.
    + erewrite try_bind_out_of_fuel by exact Ht. discriminate.
  - erewrite try_bind_throw by exact R. run_eff. discriminate.
  - erewrite try_bind_out_of_fuel by exact R. discriminate.
Qed.

Lemma sendMessage_returns (api : remote) (fuel : nat)
      (m t a x : jsstring) (tr : list event) :
  sendMessage api fuel m t a [] = (Return x, tr) ->
  exists r0 i data v,
    create_run api = inr r0 /\
    list_messages api i = inr data /\
    answer_of (select (run_id r0) data) = Some v /\
    x = strip_assistant v.
Proof.
  destruct (falsy m || falsy t || falsy a) eqn:valid.
  { now rewrite sendMessage_invalid. }
  destruct (post_message api) as [e|u] eqn:Ep.
  { now rewrite sendMessage_post_rejected with (e := e). }
  destruct (create_run api) as [e|r0] eqn:Ec.
  { now rewrite sendMessage_create_rejected with (u := u) (e := e). }
  rewrite sendMessage_created with (u := u) (r0 := r0) by assumption.
  destruct (await_run api fuel t (run_id r0)
              [Call (PostMessage t m); Call (CreateRun t a)])
    as [[response|e|] tr1] eqn:W.
  - erewrite try_bind_return by exact W. intros H.
    apply answer_phase_returns in H as (i & data & v & H).
    now exists r0, i, data, v.
  - erewrite try_bind_throw by exact W. run_eff. discriminate.
  - erewrite try_bind_out_of_fuel by exact W. discriminate.
Qed.


Unset Implicit Arguments.

(* ================================================================== *)
(** * The sanitizer: [removeCitations] *)
(* ================================================================== *)

(** A bracket pair over two lines survives the sanitizer: the dot of the
    pattern does not cross the line feed. *)
Lemma removeCitations_two_lines_counterexample :
  removeCitations two_lines = two_lines /\
  ~ span_free (removeCitations two_lines).
Proof.
  split; [reflexivity|]. intros H.
  apply (H two_lines).
  - right. exists (js "a" ++ [10%N] ++ js "b"). reflexivity.
  - exists [], []. reflexivity.
Qed.

(** C7 (amended): for every input text, the output of [removeCitations]
    contains no thick-bracket pair and no square-bracket pair whose body
    is free of line terminators (no substring of the output matches the
    pattern of the sanitizer); hence every text that
    [sendMessageToAgent] returns is free of both kinds of one-line
    spans. *)
Theorem removeCitations_line_span_free
        (text : jsstring) (api : remote) (fuel : nat)
        (message threadId assistantId reply : jsstring) (tr : list event) :
  line_span_free (removeCitations text) /\
  (sendMessageToAgent api fuel message threadId assistantId [] =
     (Return reply, tr) ->
   line_span_free reply).
Proof.
  split.
  - apply no_match_line_span_free, removeCitations_no_match.
  - unfold sendMessageToAgent, bind, ret.
    destruct (sendMessage api fuel message threadId assistantId [])
      as [[x|e|] tr']; try discriminate.
    intros [= <- _].
    apply no_match_line_span_free, removeCitations_no_match.
Qed.

Lemma removeCitations_line_span_free_witness :
  line_span_free (removeCitations (js "see [1] and [23].")) /\
  line_span_free (js "see  Assistant: x").
Proof.
  destruct (removeCitations_line_span_free
              (js "see [1] and [23].") api_scripted 3
              (js "hi") (js "thread_1") (js "asst_1") (js "see  Assistant: x")
              (snd (sendMessageToAgent api_scripted 3 (js "hi")
                                       (js "thread_1") (js "asst_1") [])))
    as [H1 H2].
  split; [exact H1|]. apply H2. vm_compute. reflexivity.
Defined.

(** C8: [removeCitations] is idempotent. *)
Theorem removeCitations_idempotent (x : jsstring) :
  removeCitations (removeCitations x) = removeCitations x.
Proof. apply removeCitations_idem. Qed.

(* ================================================================== *)
(** * The orchestrator: [sendMessage] *)
(* ================================================================== *)

(** C2: if one of the three arguments of [sendMessage] is empty, the call
    fails with the invalid-payload error before any remote call: the
    trace stays empty. *)
Theorem sendMessage_invalid_request
        (api : remote) (fuel : nat)
        (message threadId assistantId : jsstring) :
  message = [] \/ threadId = [] \/ assistantId = [] ->
  sendMessage api fuel message threadId assistantId [] =
    (Throw invalid_payload, []) /\
  invalid_request invalid_payload /\
  remote_calls (snd (sendMessage api fuel message threadId assistantId [])) = 0.
Proof.
  intros H.
  assert (E : falsy message || falsy threadId || falsy assistantId = true).
  { destruct H as [->|[->| ->]]; simpl;
      rewrite ?orb_true_r; reflexivity. }
  rewrite (@sendMessage_invalid api fuel message threadId assistantId [] E).
  repeat split.
Qed.

Lemma sendMessage_invalid_request_witness :
  sendMessage api_scripted 3 (js "hi") [] (js "asst_1") [] =
    (Throw invalid_payload, []) /\
  invalid_request invalid_payload /\
  remote_calls
    (snd (sendMessage api_scripted 3 (js "hi") [] (js "asst_1") [])) = 0.
Proof.
  apply (sendMessage_invalid_request api_scripted 3 (js "hi") [] (js "asst_1")).
  right. left. reflexivity.
Defined.

(** With a rejected post no run is created: [sendMessage] ends with the
    error of the post. *)
Lemma post_failure_counterexample :
  post_message api_post_down = inl (js "ECONNRESET") /\
  sendMessage api_post_down 3 (js "hi") (js "thread_1") (js "asst_1") [] =
    (Throw (AxiosError (js "ECONNRESET")),
     [Call (PostMessage (js "thread_1") (js "hi"));
      Log Site1 (AxiosError (js "ECONNRESET"))]) /\
  ~ starts_job
      (snd (sendMessage api_post_down 3 (js "hi") (js "thread_1")
                        (js "asst_1") [])).
Proof.
  split; [reflexivity|]. split; [reflexivity|].
  intros (t & a & [H|[H|[]]]); discriminate.
Qed.

(** C9 (amended): within one [sendMessage] call the run is created only
    after the post of the user message has succeeded: the post is the
    first remote call, the run creation follows it at once when the post
    succeeds, and when the post is rejected [sendMessage] logs the error,
    throws it and creates no run. *)
Theorem sendMessage_job_after_post
        (api : remote) (fuel : nat)
        (message threadId assistantId : jsstring) :
  falsy message || falsy threadId || falsy assistantId = false ->
  (forall e, post_message api = inl e ->
     sendMessage api fuel message threadId assistantId [] =
       (Throw (AxiosError e),
        [Call (PostMessage threadId message); Log Site1 (AxiosError e)])) /\
  (forall u, post_message api = inr u ->
     exists evs,
       snd (sendMessage api fuel message threadId assistantId []) =
       Call (PostMessage threadId message)
         :: Call (CreateRun threadId assistantId) :: evs) /\
  (starts_job (snd (sendMessage api fuel message threadId assistantId []))
   <-> exists u, post_message api = inr u).
Proof.
  intros valid.
  assert (Hrej : forall e, post_message api = inl e ->
     sendMessage api fuel message threadId assistantId [] =
       (Throw (AxiosError e),
        [Call (PostMessage threadId message); Log Site1 (AxiosError e)])).
  { intros e E. now rewrite (@sendMessage_post_rejected api fuel message threadId
                   assistantId valid [] e E). }
  assert (Hok : forall u, post_message api = inr u ->
     exists evs,
       snd (sendMessage api fuel message threadId assistantId []) =
       Call (PostMessage threadId message)
         :: Call (CreateRun threadId assistantId) :: evs).
  { intros u Ep. destruct (create_run api) as [e|r0] eqn:Ec.
    - rewrite (@sendMessage_create_rejected api fuel message threadId
                 assistantId valid [] u e Ep Ec).
      now eexists.
    - rewrite (@sendMessage_created api fuel message threadId assistantId
                 valid u r0 Ep Ec).
      assert (Hem : emits any_event
                (try_catch
                   (bind (await_run api fuel threadId (run_id r0))
                      (fun _ => answer_phase api threadId (run_id r0)))
                   (logError Site5))).
      { apply emits_try; [|intros e; now apply emits_logError].
        apply emits_bind; [now apply emits_await_run|].
        intros _. now apply emits_answer_phase. }
      destruct (Hem [Call (PostMessage threadId message);
                     Call (CreateRun threadId assistantId)])
        as (evs & -> & _).
      now exists evs. }
  split; [exact Hrej|]. split; [exact Hok|]. split.
  - intros Hs. destruct (post_message api) as [e|u] eqn:Ep; [|now exists u].
    rewrite (Hrej e eq_refl) in Hs.
    destruct Hs as (t & a & [H|[H|[]]]); discriminate.
  - intros [u Ep]. destruct (Hok u Ep) as [evs ->].
    exists threadId, assistantId. right. now left.
Qed.

Lemma sendMessage_job_after_post_witness :
  snd (sendMessage api_scripted 3 (js "hi") (js "thread_1") (js "asst_1") [])
  <> [] /\
  starts_job
    (snd (sendMessage api_scripted 3 (js "hi") (js "thread_1")
                      (js "asst_1") [])).
Proof.
  destruct (sendMessage_job_after_post
              api_scripted 3 (js "hi") (js "thread_1") (js "asst_1")
              eq_refl) as (_ & Hok & Hiff).
  split.
  - destruct (Hok tt eq_refl) as [evs ->]. discriminate.
  - apply Hiff. now exists tt.
Defined.

(** A rejected status fetch in the loop ends [sendMessage], although the
    next fetch would have found the run completed. *)
Lemma fetch_retry_counterexample :
  get_run api_fetch_flaky 1 = inl (js "timeout") /\
  get_run api_fetch_flaky 2 = inr (run_1 "completed") /\
  sendMessage api_fetch_flaky 10 (js "hi") (js "thread_1") (js "asst_1") [] =
    (Throw (AxiosError (js "timeout")),
     [Call (PostMessage (js "thread_1") (js "hi"));
      Call (CreateRun (js "thread_1") (js "asst_1"));
      Call (GetRun (js "thread_1") (js "run_1"));
      Sleep 5000;
      Call (GetRun (js "thread_1") (js "run_1"));
      Log Site3 (AxiosError (js "timeout"));
      Log Site5 (AxiosError (js "timeout"))]) /\
  ~ fetches_again 1
      (snd (sendMessage api_fetch_flaky 10 (js "hi") (js "thread_1")
                        (js "asst_1") [])).
Proof.
  repeat split. unfold fetches_again. vm_compute. lia.
Qed.

(** C3 (amended): a status fetch that is rejected is final for the whole
    [sendMessage] call: the error is logged where the fetch was made and
    again at "sendMessage 5", and thrown to the caller; the rejected
    fetch is the last event but the two log entries, so no status fetch
    and no other remote call follows it. *)
Theorem sendMessage_fetch_failure_final
        (api : remote) (fuel : nat)
        (message threadId assistantId : jsstring)
        (u : unit) (r0 : run) (n : nat) (e : jsstring) :
  falsy message || falsy threadId || falsy assistantId = false ->
  post_message api = inr u -> create_run api = inr r0 ->
  pending_before api n -> get_run api n = inl e -> n <= fuel ->
  sendMessage api fuel message threadId assistantId [] =
    (Throw (AxiosError e),
     polled_events message threadId assistantId (run_id r0) n
       ++ [Log (fetch_site n) (AxiosError e); Log Site5 (AxiosError e)]) /\
  status_fetches
    (snd (sendMessage api fuel message threadId assistantId [])) = S n /\
  listings (snd (sendMessage api fuel message threadId assistantId [])) = 0.
Proof.
  intros valid Ep Ec Hp Ef Hf.
  rewrite (@sendMessage_fetch_rejected api fuel message threadId assistantId
             valid u r0 n e Ep Ec Hp Ef Hf).
  split; [reflexivity|]. cbn [snd].
  rewrite status_fetches_app, listings_app, status_fetches_polled,
    listings_polled.
  split; [apply Nat.add_0_r|reflexivity].
Qed.

Lemma sendMessage_fetch_failure_final_witness :
  status_fetches
    (snd (sendMessage api_fetch_flaky 10 (js "hi") (js "thread_1")
                      (js "asst_1") [])) = 2.
Proof.
  apply (sendMessage_fetch_failure_final
           api_fetch_flaky 10 (js "hi") (js "thread_1") (js "asst_1")
           tt (run_1 "queued") 1 (js "timeout")); try reflexivity.
  - intros i Hi. exists (run_1 "queued").
    destruct i as [|i]; [split; reflexivity|lia].
  - lia.
Defined.

(** A failed run whose thread holds no answer ends in the error of the
    exhausted retrieval, the same as a completed run without answer:
    no error of its own tells the failure of the job. *)
Lemma job_failed_counterexample :
  get_run api_job_failed 0 = inr (run_1 "failed") /\
  terminal_failure (run_status (run_1 "failed")) /\
  fst (sendMessage api_job_failed 3 (js "hi") (js "thread_1")
                   (js "asst_1") []) = Throw not_retrieved /\
  ~ surfaces_job_failed
      (sendMessage api_job_failed 3 (js "hi") (js "thread_1")
                   (js "asst_1") []).
Proof.
  split; [reflexivity|]. split; [now left|]. split; [reflexivity|].
  intros (e & He & _ & Hn). apply Hn.
  change (@Throw jsstring not_retrieved = Throw e) in He.
  now injection He as <-.
Qed.

Lemma terminal_failure_not_pending (status : jsstring) :
  terminal_failure status -> pending status = false.
Proof. intros [->|[->| ->]]; reflexivity. Qed.

(** C1 (amended): when the status fetch of rank [n] finds the run failed,
    cancelled or expired, the polling stops there (no further status
    fetch, the run is created once and not again) and [sendMessage] goes
    on to the retrieval of the answer as it does for a completed run:
    outcome and trace are those of the same exchange with the status
    completed, so the call returns the answer if one is found and
    otherwise fails as a completed run without answer does. *)
Theorem sendMessage_failed_run_as_completed
        (api : remote) (fuel : nat)
        (message threadId assistantId : jsstring)
        (u : unit) (r0 final : run) (n : nat) :
  falsy message || falsy threadId || falsy assistantId = false ->
  post_message api = inr u -> create_run api = inr r0 ->
  pending_before api n -> get_run api n = inr final ->
  terminal_failure (run_status final) -> n <= fuel ->
  sendMessage api fuel message threadId assistantId [] =
    sendMessage (with_status api n (js "completed")) fuel
                message threadId assistantId [] /\
  status_fetches
    (snd (sendMessage api fuel message threadId assistantId [])) = S n /\
  count is_create_run
    (snd (sendMessage api fuel message threadId assistantId [])) = 1.
Proof.
  intros valid Ep Ec Hp Ef Ht Hf.
  pose proof (terminal_failure_not_pending _ Ht) as Pf.
  rewrite (@sendMessage_polled api fuel message threadId assistantId valid
             u r0 final n Ep Ec Hp Ef Pf Hf).
  split.
  - assert (Hp' : pending_before (with_status api n (js "completed")) n).
    { intros i Hi. destruct (Hp i Hi) as (x & Ex & Px). exists x.
      split; [|exact Px]. cbn [get_run with_status].
      replace (Nat.eqb i n) with false; [exact Ex|].
      symmetry. apply Nat.eqb_neq. lia. }
    assert (Ef' : get_run (with_status api n (js "completed")) n =
                  inr {| run_id := run_id final;
                         run_status := js "completed" |}).
    { cbn [get_run with_status]. now rewrite Nat.eqb_refl, Ef. }
    rewrite (@sendMessage_polled (with_status api n (js "completed")) fuel
               message threadId assistantId valid u r0 _ n
               Ep Ec Hp' Ef' eq_refl Hf).
    apply try_cong. now apply answer_phase_same_listings.
  - destruct (answer_phase_trace api threadId (run_id r0)
                (polled_events message threadId assistantId (run_id r0) n))
      as (evs & -> & F).
    rewrite status_fetches_app, count_app, status_fetches_polled,
      create_polled, (retrieval_no_fetch F), (retrieval_no_create F).
    split; lia.
Qed.

Lemma sendMessage_failed_run_as_completed_witness :
  sendMessage api_job_failed_late 3 (js "hi") (js "thread_1") (js "asst_1") []
  = sendMessage (with_status api_job_failed_late 1 (js "completed")) 3
                (js "hi") (js "thread_1") (js "asst_1") [] /\
  fst (sendMessage api_job_failed_late 3 (js "hi") (js "thread_1")
                   (js "asst_1") []) = Return (js "partial").
Proof.
  split; [|reflexivity].
  apply (sendMessage_failed_run_as_completed
           api_job_failed_late 3 (js "hi") (js "thread_1") (js "asst_1")
           tt (run_1 "queued") (run_1 "expired") 1); try reflexivity.
  - intros i Hi. exists (run_1 "in_progress").
    destruct i as [|i]; [split; reflexivity|lia].
  - right. right. reflexivity.
  - lia.
Defined.

(** C4: with the statuses queued, in_progress, in_progress, completed
    the polling makes four status fetches, with a delay of 5000 ms
    before each but the first, and leaves the loop with the completed
    run; the whole [sendMessage] call makes four status fetches, whatever
    the retrieval does afterwards. *)
Theorem sendMessage_four_polls
        (api : remote) (fuel : nat)
        (message threadId assistantId : jsstring) (u : unit) (r0 : run) :
  falsy message || falsy threadId || falsy assistantId = false ->
  post_message api = inr u -> create_run api = inr r0 ->
  statuses api [js "queued"; js "in_progress"; js "in_progress";
                js "completed"] ->
  3 <= fuel ->
  (exists final,
     run_status final = js "completed" /\
     forall tr, status_fetches tr = 0 ->
       await_run api fuel threadId (run_id r0) tr =
       (Return final,
        tr ++ [Call (GetRun threadId (run_id r0));
               Sleep 5000; Call (GetRun threadId (run_id r0));
               Sleep 5000; Call (GetRun threadId (run_id r0));
               Sleep 5000; Call (GetRun threadId (run_id r0))])) /\
  status_fetches
    (snd (sendMessage api fuel message threadId assistantId [])) = 4.
Proof.
  intros valid Ep Ec Hs Hf.
  destruct (Hs 3 _ eq_refl) as (final & Ef & Sf).
  assert (Hp : pending_before api 3).
  { intros i Hi.
    destruct i as [|[|[|i]]];
      [destruct (Hs 0 _ eq_refl) as (x & Ex & Sx)
      |destruct (Hs 1 _ eq_refl) as (x & Ex & Sx)
      |destruct (Hs 2 _ eq_refl) as (x & Ex & Sx)
      |lia];
      exists x; (split; [exact Ex|]); rewrite Sx; reflexivity. }
  assert (Pf : pending (run_status final) = false) by now rewrite Sf.
  split.
  - exists final. split; [exact Sf|]. intros tr Htr.
    now apply await_run_final with (n := 3).
  - rewrite (@sendMessage_polled api fuel message threadId assistantId valid
               u r0 final 3 Ep Ec Hp Ef Pf Hf).
    destruct (answer_phase_trace api threadId (run_id r0)
                (polled_events message threadId assistantId (run_id r0) 3))
      as (evs & -> & F).
    now rewrite status_fetches_app, status_fetches_polled,
      (retrieval_no_fetch F).
Qed.

Lemma sendMessage_four_polls_witness :
  status_fetches
    (snd (sendMessage api_scripted 3 (js "hi") (js "thread_1")
                      (js "asst_1") [])) = 4.
Proof.
  apply (sendMessage_four_polls
           api_scripted 3 (js "hi") (js "thread_1") (js "asst_1")
           tt (run_1 "queued")); try reflexivity.
  intros i s Hi.
  destruct i as [|[|[|[|i]]]]; simpl in Hi; try discriminate;
    [ | | | | destruct i; discriminate ];
    injection Hi as <-; eexists; split; reflexivity.
Defined.

(** A rejected listing ends the retrieval at its first attempt, with the
    error of the listing. *)
Lemma retrieval_budget_counterexample :
  (forall i, ~ yields api_list_down (js "run_1") i) /\
  sendMessage api_list_down 3 (js "hi") (js "thread_1") (js "asst_1") [] =
    (Throw (AxiosError (js "timeout")),
     [Call (PostMessage (js "thread_1") (js "hi"));
      Call (CreateRun (js "thread_1") (js "asst_1"));
      Call (GetRun (js "thread_1") (js "run_1"));
      Call (ListMessages (js "thread_1"));
      Log (SiteRetry 1) (AxiosError (js "timeout"));
      Log Site5 (AxiosError (js "timeout"))]) /\
  listings
    (snd (sendMessage api_list_down 3 (js "hi") (js "thread_1")
                      (js "asst_1") [])) = 1 /\
  fst (sendMessage api_list_down 3 (js "hi") (js "thread_1")
                   (js "asst_1") []) <> Throw not_retrieved.
Proof.
  split; [|repeat split; discriminate].
  intros i (data & m & E & _). discriminate.
Qed.

(** C5 (amended): if each of the five listings succeeds and the message
    selected in it (the last one with the run id and the role assistant)
    is missing, has no content, or has an empty text in its first part,
    the retrieval makes exactly [retries] = 5 listings, each followed by
    a console line and a delay of [delay] = 5000 ms, and [sendMessage]
    then fails with the error "Failed to retrieve assistant message after
    retries.", logged at "sendMessage 5". *)
Theorem sendMessage_retrieval_exhausted
        (api : remote) (fuel : nat)
        (message threadId assistantId : jsstring)
        (u : unit) (r0 final : run) (n : nat) :
  falsy message || falsy threadId || falsy assistantId = false ->
  post_message api = inr u -> create_run api = inr r0 ->
  pending_before api n -> get_run api n = inr final ->
  pending (run_status final) = false -> n <= fuel ->
  misses api (run_id r0) retries ->
  sendMessage api fuel message threadId assistantId [] =
    (Throw not_retrieved,
     polled_events message threadId assistantId (run_id r0) n
       ++ retry_events threadId 0 retries ++ [Log Site5 not_retrieved]) /\
  answer_not_found not_retrieved /\
  retry_events threadId 0 retries =
    [Call (ListMessages threadId); Console 1; Sleep 5000;
     Call (ListMessages threadId); Console 2; Sleep 5000;
     Call (ListMessages threadId); Console 3; Sleep 5000;
     Call (ListMessages threadId); Console 4; Sleep 5000;
     Call (ListMessages threadId); Console 5; Sleep 5000] /\
  listings (snd (sendMessage api fuel message threadId assistantId [])) = 5.
Proof.
  intros valid Ep Ec Hp Ef Pf Hf Hm.
  rewrite (@sendMessage_polled api fuel message threadId assistantId valid
             u r0 final n Ep Ec Hp Ef Pf Hf).
  erewrite try_throw;
    [|apply answer_phase_exhausted; [apply listings_polled|exact Hm]].
  run_eff. cbn [snd].
  repeat split.
  rewrite !listings_app, listings_polled, listings_retry_events.
  reflexivity.
Qed.

Lemma sendMessage_retrieval_exhausted_witness :
  fst (sendMessage api_silent 3 (js "hi") (js "thread_1") (js "asst_1") [])
  = Throw not_retrieved /\
  listings
    (snd (sendMessage api_silent 3 (js "hi") (js "thread_1")
                      (js "asst_1") [])) = 5.
Proof.
  destruct (sendMessage_retrieval_exhausted
              api_silent 3 (js "hi") (js "thread_1") (js "asst_1")
              tt (run_1 "queued") (run_1 "completed") 0)
    as (E & _ & _ & L); try reflexivity.
  - intros i Hi. lia.
  - lia.
  - intros i Hi. exists [user_message]. split; reflexivity.
  - split; [now rewrite E|exact L].
Defined.

(** A listing that holds an answer of the run, followed by a message of
    the run with an empty text, does not end the retrieval. *)
Lemma first_answer_counterexample :
  yields api_empty_last (js "run_1") 0 /\
  fst (sendMessage api_empty_last 3 (js "hi") (js "thread_1")
                   (js "asst_1") []) = Throw not_retrieved /\
  listings
    (snd (sendMessage api_empty_last 3 (js "hi") (js "thread_1")
                      (js "asst_1") [])) = 5.
Proof.
  split; [|split; reflexivity].
  exists [assistant_message (js "hello"); assistant_message []],
         (assistant_message (js "hello")).
  split; [reflexivity|]. split; [now left|]. split; [reflexivity|].
  now exists 104%N, (js "ello"), [].
Qed.

(** C6 (amended): at the first listing in which the last message with the
    run id of the job and the role assistant has a text that is not empty
    in its first content part, the retrieval stops with that message
    (earlier listings having succeeded without such a message):
    [sendMessage] returns its text, less the first "Assistant:", and
    makes no further listing and no further delay. *)
Theorem sendMessage_answer_at_once
        (api : remote) (fuel : nat)
        (message threadId assistantId : jsstring)
        (u : unit) (r0 final : run) (n k : nat)
        (data : list Remote.message) (v : jsstring) :
  falsy message || falsy threadId || falsy assistantId = false ->
  post_message api = inr u -> create_run api = inr r0 ->
  pending_before api n -> get_run api n = inr final ->
  pending (run_status final) = false -> n <= fuel ->
  k < retries -> misses api (run_id r0) k ->
  list_messages api k = inr data ->
  answer_of (select (run_id r0) data) = Some v ->
  sendMessage api fuel message threadId assistantId [] =
    (Return (strip_assistant v),
     polled_events message threadId assistantId (run_id r0) n
       ++ retry_events threadId 0 k ++ [Call (ListMessages threadId)]) /\
  listings (snd (sendMessage api fuel message threadId assistantId []))
  = S k /\
  exists msg,
    select (run_id r0) data = Some msg /\
    last_of_run (run_id r0) data msg /\
    exists rest, msg_content msg = Some (TextPart v :: rest).
Proof.
  intros valid Ep Ec Hp Ef Pf Hf Hk Hm Ed Av.
  rewrite (@sendMessage_polled api fuel message threadId assistantId valid
             u r0 final n Ep Ec Hp Ef Pf Hf).
  erewrite try_return;
    [|apply answer_phase_hit with (data := data);
      [apply listings_polled|exact Hk|exact Hm|exact Ed|exact Av]].
  split; [reflexivity|]. cbn [snd]. split.
  - rewrite !listings_app, listings_polled, listings_retry_events.
    cbn. lia.
  - destruct (select (run_id r0) data) as [msg|] eqn:S; [|discriminate].
    exists msg. split; [reflexivity|].
    split; [now apply select_last_of_run|].
    simpl in Av.
    destruct (msg_content msg) as [[|[[|c w]|] rest]|]; try discriminate.
    injection Av as <-. now exists rest.
Qed.

Lemma sendMessage_answer_at_once_witness :
  fst (sendMessage api_scripted 3 (js "hi") (js "thread_1") (js "asst_1") [])
  = Return (js " see [1] Assistant: x") /\
  listings
    (snd (sendMessage api_scripted 3 (js "hi") (js "thread_1")
                      (js "asst_1") [])) = 2.
Proof.
  destruct (sendMessage_answer_at_once
              api_scripted 3 (js "hi") (js "thread_1") (js "asst_1")
              tt (run_1 "queued") (run_1 "completed") 3 1
              [user_message;
               assistant_message (js "Assistant: see [1] Assistant: x")]
              (js "Assistant: see [1] Assistant: x"))
    as (E & L & _); try reflexivity.
  - intros i Hi. destruct i as [|[|[|i]]]; [| | |lia];
      eexists; split; reflexivity.
  - unfold retries. lia.
  - intros i Hi. exists [user_message].
    destruct i as [|i]; [split; reflexivity|lia].
  - split; [now rewrite E|exact L].
Defined.

(** C10: when the retrieval finds the answer text [v], [sendMessage]
    returns [v] with the first occurrence of "Assistant:" taken out: if
    [v] is [p ++ "Assistant:" ++ s] with no earlier occurrence, the result
    is [p ++ s], later occurrences included; without an occurrence the
    result is [v].  The citation sanitizer of [sendMessageToAgent] runs
    after that, on the result.  No other text is ever returned: whatever
    [sendMessage] returns is the stripped text of a retrieved answer. *)
Theorem sendMessage_strips_assistant_label
        (api : remote) (fuel : nat)
        (message threadId assistantId : jsstring)
        (u : unit) (r0 final : run) (n k : nat)
        (data : list Remote.message) (v : jsstring) :
  falsy message || falsy threadId || falsy assistantId = false ->
  post_message api = inr u -> create_run api = inr r0 ->
  pending_before api n -> get_run api n = inr final ->
  pending (run_status final) = false -> n <= fuel ->
  k < retries -> misses api (run_id r0) k ->
  list_messages api k = inr data ->
  answer_of (select (run_id r0) data) = Some v ->
  fst (sendMessage api fuel message threadId assistantId []) =
    Return (strip_assistant v) /\
  fst (sendMessageToAgent api fuel message threadId assistantId []) =
    Return (removeCitations (strip_assistant v)) /\
  (forall p s,
      v = p ++ assistant_label ++ s ->
      (forall i, occurs_at assistant_label v i -> List.length p <= i) ->
      strip_assistant v = p ++ s) /\
  ((forall i, ~ occurs_at assistant_label v i) -> strip_assistant v = v) /\
  (forall x tr,
      sendMessage api fuel message threadId assistantId [] = (Return x, tr) ->
      exists i data' v',
        list_messages api i = inr data' /\
        answer_of (select (run_id r0) data') = Some v' /\
        x = strip_assistant v').
Proof.
  intros valid Ep Ec Hp Ef Pf Hf Hk Hm Ed Av.
  assert (E : sendMessage api fuel message threadId assistantId [] =
              (Return (strip_assistant v),
               polled_events message threadId assistantId (run_id r0) n
                 ++ retry_events threadId 0 k
                 ++ [Call (ListMessages threadId)])).
  { rewrite (@sendMessage_polled api fuel message threadId assistantId valid
               u r0 final n Ep Ec Hp Ef Pf Hf).
    apply try_return. apply answer_phase_hit with (data := data); auto.
    apply listings_polled. }
  split; [now rewrite E|]. split.
  { unfold sendMessageToAgent. erewrite bind_return by exact E.
    reflexivity. }
  split.
  { intros p s -> Hmin. now apply strip_assistant_leftmost. }
  split; [apply strip_assistant_absent|].
  intros x tr H.
  destruct (sendMessage_returns _ _ _ _ _ H)
    as (r0' & i & data' & v' & Ec' & Ed' & Av' & ->).
  rewrite Ec in Ec'. injection Ec' as <-.
  now exists i, data', v'.
Qed.

Lemma sendMessage_strips_assistant_label_witness :
  fst (sendMessage api_scripted 3 (js "hi") (js "thread_1") (js "asst_1") [])
  = Return (js " see [1] Assistant: x") /\
  fst (sendMessageToAgent api_scripted 3 (js "hi") (js "thread_1")
                          (js "asst_1") []) =
    Return (js "see  Assistant: x").
Proof.
  destruct (sendMessage_strips_assistant_label
              api_scripted 3 (js "hi") (js "thread_1") (js "asst_1")
              tt (run_1 "queued") (run_1 "completed") 3 1
              [user_message;
               assistant_message (js "Assistant: see [1] Assistant: x")]
              (js "Assistant: see [1] Assistant: x"))
    as (E1 & E2 & Hl & _); try reflexivity.
  - intros i Hi. destruct i as [|[|[|i]]]; [| | |lia];
      eexists; split; reflexivity.
  - unfold retries. lia.
  - intros i Hi. exists [user_message].
    destruct i as [|i]; [split; reflexivity|lia].
  - split.
    + rewrite E1, (Hl [] (js " see [1] Assistant: x"));
        [reflexivity|reflexivity|intros i _; apply Nat.le_0_l].
    + rewrite E2. reflexivity.
Defined.


(* ================================================================== *)
(** * Further properties of [removeCitations] *)
(* ================================================================== *)

Lemma subseq_refl (s : jsstring) : subseq s s.
Proof. induction s; constructor; auto. Qed.

Lemma subseq_app_drop (m u s : jsstring) : subseq u s -> subseq u (m ++ s).
Proof. intros H. induction m; simpl; [exact H|now constructor]. Qed.

Lemma subseq_app_keep (u s q : jsstring) : subseq u s -> subseq u (s ++ q).
Proof.
  induction 1 as [|c u s _ IH|c u s _ IH]; simpl.
  - induction q; constructor; auto.
  - now constructor.
  - now constructor.
Qed.

Lemma subseq_trans (u v s : jsstring) : subseq u v -> subseq v s -> subseq u s.
Proof.
  intros Huv Hvs. revert u Huv.
  induction Hvs as [|c v s _ IH|c v s _ IH]; intros u Huv.
  - exact Huv.
  - inversion Huv; subst; constructor; auto.
  - constructor. auto.
Qed.

Lemma subseq_length (u s : jsstring) :
  subseq u s -> List.length u <= List.length s.
Proof. induction 1; simpl; lia. Qed.

Lemma find_close_suffix (cl : char16) (s after : jsstring) :
  find_close cl s = Some after -> exists m, s = m ++ after.
Proof.
  revert after. induction s as [|d s IH]; simpl; intros after H;
    [discriminate|].
  destruct (N.eqb d cl).
  - injection H as <-. now exists [d].
  - destruct (line_terminator d); [discriminate|].
    destruct (IH _ H) as [m ->]. now exists (d :: m).
Qed.

Lemma match_here_suffix (s after : jsstring) :
  match_here s = Some after -> exists m, s = m ++ after.
Proof.
  destruct s as [|c rest]; [discriminate|]. rewrite match_here_cons.
  destruct (N.eqb c thick_open);
    [|destruct (N.eqb c square_open); [|discriminate]];
    intros H; apply find_close_suffix in H as [m ->]; now exists (c :: m).
Qed.

Lemma replaceAll_subseq (s : jsstring) : subseq (replaceAll s) s.
Proof.
  induction s as [|c rest after E IH|c rest E IH] using scan_ind.
  - constructor.
  - rewrite replaceAll_cons, E.
    destruct (match_here_suffix _ _ E) as [m ->]. now apply subseq_app_drop.
  - rewrite replaceAll_cons, E. now constructor.
Qed.

Lemma trim_subseq (s : jsstring) : subseq (trim s) s.
Proof.
  unfold trim.
  destruct (trimStart_suffix s) as [p Ep].
  destruct (trimEnd_prefix (trimStart s)) as [q Eq].
  rewrite Ep at 2. apply subseq_app_drop.
  rewrite Eq at 2. apply subseq_app_keep, subseq_refl.
Qed.

(** X1: [removeCitations] only deletes: its output is the input with
    some code units left out, the others in their order, so it is never
    longer than the input. *)
Theorem removeCitations_only_deletes (text : jsstring) :
  subseq (removeCitations text) text /\
  List.length (removeCitations text) <= List.length text.
Proof.
  assert (H : subseq (removeCitations text) text).
  { unfold removeCitations. destruct text as [|c text]; [constructor|].
    cbn [falsy].
    apply subseq_trans with (replaceAll (c :: text));
      [apply trim_subseq|apply replaceAll_subseq]. }
  split; [exact H|now apply subseq_length].
Qed.

(** X2: the output of [removeCitations] is trimmed: it neither starts nor
    ends with white space or a line terminator. *)
Theorem removeCitations_trimmed (text : jsstring) :
  start_ok (removeCitations text) /\ start_ok (rev (removeCitations text)).
Proof.
  unfold removeCitations. destruct (falsy text); [split; exact I|].
  unfold trim. split.
  - apply start_ok_trimEnd, trimStart_start_ok.
  - unfold trimEnd. rewrite rev_involutive. apply trimStart_start_ok.
Qed.

Lemma find_close_without (cl : char16) (s : jsstring) :
  without (N.eqb cl) s = true -> find_close cl s = None.
Proof.
  induction s as [|d s IH]; simpl; [reflexivity|]. intros H.
  apply andb_prop in H as [Hd H]. apply negb_true_iff in Hd.
  rewrite N.eqb_sym, Hd. destruct (line_terminator d); auto.
Qed.

Lemma without_closing (cl : char16) (s : jsstring) :
  closing cl = true -> without closing s = true ->
  without (N.eqb cl) s = true.
Proof.
  intros Hcl. induction s as [|d s IH]; simpl; [reflexivity|]. intros H.
  apply andb_prop in H as [Hd H]. rewrite (IH H), andb_true_r.
  destruct (N.eqb cl d) eqn:E; [|reflexivity].
  apply N.eqb_eq in E. subst d. now rewrite Hcl in Hd.
Qed.

Lemma no_match_without_opening (s : jsstring) :
  without opening s = true -> no_match s.
Proof.
  induction s as [|c s IH]; [exact (fun _ => I)|]. cbn [without forallb].
  intros H. apply andb_prop in H as [Hc H]. split; [|now apply IH].
  rewrite match_here_cons. unfold opening in Hc.
  apply negb_true_iff, orb_false_iff in Hc as [-> ->]. reflexivity.
Qed.

Lemma no_match_without_closing (s : jsstring) :
  without closing s = true -> no_match s.
Proof.
  induction s as [|c s IH]; [exact (fun _ => I)|]. cbn [without forallb].
  intros H. apply andb_prop in H as [Hc H]. split; [|now apply IH].
  rewrite match_here_cons.
  destruct (N.eqb c thick_open);
    [|destruct (N.eqb c square_open); [|reflexivity]];
    apply find_close_without, without_closing; auto.
Qed.

(** X3: a text without an opening bracket, or without a closing
    bracket, is trimmed and otherwise left as it is. *)
Theorem removeCitations_without_brackets (text : jsstring) :
  without opening text = true \/ without closing text = true ->
  removeCitations text = trim text.
Proof.
  intros H. unfold removeCitations.
  destruct text as [|c text]; [reflexivity|]. cbn [falsy].
  rewrite no_match_replaceAll; [reflexivity|].
  destruct H; [now apply no_match_without_opening
              |now apply no_match_without_closing].
Qed.

Lemma removeCitations_without_brackets_witness :
  removeCitations (js "  see [note  ") = js "see [note".
Proof.
  rewrite (removeCitations_without_brackets (js "  see [note  "));
    [reflexivity|]. right. reflexivity.
Defined.

Lemma find_close_nearest (cl : char16) (body rest : jsstring) :
  one_line body = true -> without (N.eqb cl) body = true ->
  find_close cl (body ++ cl :: rest) = Some rest.
Proof.
  induction body as [|d body IH]; simpl; intros L W.
  - now rewrite N.eqb_refl.
  - apply andb_prop in L as [Ld L]. apply andb_prop in W as [Wd W].
    apply negb_true_iff in Ld, Wd. rewrite N.eqb_sym, Wd, Ld. now apply IH.
Qed.

Lemma replaceAll_keeps_prefix (pre s : jsstring) :
  without opening pre = true -> replaceAll (pre ++ s) = pre ++ replaceAll s.
Proof.
  induction pre as [|c pre IH]; [reflexivity|]. cbn [without forallb app].
  intros H. apply andb_prop in H as [Hc H].
  rewrite replaceAll_cons, match_here_cons. unfold opening in Hc.
  apply negb_true_iff, orb_false_iff in Hc as [-> ->].
  f_equal. now apply IH.
Qed.

(** X4: the lazy quantifier closes a span at the nearest closing
    bracket: after a prefix without opening bracket, a bracket pair whose
    body holds neither a line terminator nor its closing bracket is
    removed up to that closing bracket, other brackets inside the body
    included, and the scan goes on behind it. *)
Theorem removeCitations_nearest_close
        (op cl : char16) (pre body rest : jsstring) :
  bracket_pair op cl ->
  without opening pre = true ->
  one_line body = true -> without (N.eqb cl) body = true ->
  replaceAll (pre ++ op :: body ++ cl :: rest) = pre ++ replaceAll rest /\
  removeCitations (pre ++ op :: body ++ cl :: rest) =
    trim (pre ++ replaceAll rest).
Proof.
  intros Hp Hpre L W.
  assert (E : replaceAll (pre ++ op :: body ++ cl :: rest) =
              pre ++ replaceAll rest).
  { rewrite replaceAll_keeps_prefix by exact Hpre. f_equal.
    rewrite replaceAll_cons, match_here_cons.
    destruct Hp as [[-> ->]|[-> ->]]; cbn [N.eqb thick_open square_open];
      rewrite ?N.eqb_refl;
      change (N.eqb square_open thick_open) with false; cbn iota;
      now rewrite find_close_nearest. }
  split; [exact E|].
  unfold removeCitations.
  destruct (pre ++ op :: body ++ cl :: rest) eqn:D.
  - destruct pre; discriminate.
  - cbn [falsy]. now rewrite E.
Qed.

Lemma removeCitations_nearest_close_witness :
  removeCitations (js "X" ++ [thick_open] ++ js "1[0" ++ [thick_close]
                      ++ js ", see [1]].") = js "X, see ].".
Proof.
  destruct (removeCitations_nearest_close
              thick_open thick_close (js "X") (js "1[0") (js ", see [1]].")
              (or_introl (conj eq_refl eq_refl)) eq_refl eq_refl eq_refl)
    as [_ E].
  cbn [app] in *. rewrite E. reflexivity.
Defined.

(* ================================================================== *)
(** * Further properties of [sendMessage] *)
(* ================================================================== *)

(** ** How many events of a kind a computation adds *)

Section Adds.

Variable p : event -> bool.

Lemma adds_weaken {A} (n n' : nat) (m : M A) :
  n <= n' -> adds p n m -> adds p n' m.
Proof. intros Hn H tr. specialize (H tr). lia. Qed.

Lemma adds_emits {A} (m : M A) :
  emits (fun e => p e = false) m -> adds p 0 m.
Proof.
  intros H tr. destruct (H tr) as (evs & -> & F).
  rewrite count_app.
  assert (E : count p evs = 0).
  { unfold count. induction F as [|e evs He _ IH]; simpl; [reflexivity|].
    now rewrite He. }
  lia.
Qed.

Lemma adds_bind {A B} (n1 n2 : nat) (m : M A) (f : A -> M B) :
  adds p n1 m -> (forall a, adds p n2 (f a)) -> adds p (n1 + n2) (bind m f).
Proof.
  intros Hm Hf tr. unfold bind. specialize (Hm tr).
  destruct (m tr) as [[a|e|] tr']; cbn [snd] in *; try lia.
  specialize (Hf a tr'). lia.
Qed.

Lemma adds_try {A} (n1 n2 : nat) (m : M A) (h : exn -> M A) :
  adds p n1 m -> (forall e, adds p n2 (h e)) ->
  adds p (n1 + n2) (try_catch m h).
Proof.
  intros Hm Hh tr. unfold try_catch. specialize (Hm tr).
  destruct (m tr) as [[a|e|] tr']; cbn [snd] in *; try lia.
  specialize (Hh e tr'). lia.
Qed.

End Adds.

Lemma not_listing_log (site : log_site) (e : exn) :
  is_list_messages (Log site e) = false.
Proof. reflexivity. Qed.

Lemma adds_listing_retrieve (api : remote) (t id : jsstring) (remaining : nat) :
  forall attempt lm,
    adds is_list_messages remaining (retrieve api remaining attempt t id lm).
Proof.
  induction remaining as [|remaining IH]; intros attempt lm.
  - apply adds_emits, emits_ret.
  - cbn [retrieve]. change (S remaining) with (1 + remaining).
    apply adds_bind.
    + change 1 with (1 + 0). apply adds_try.
      * change 1 with (1 + 0). apply adds_bind.
        -- intros tr. unfold axios_list_messages, await.
           destruct (list_messages api (listings tr)); cbn [snd];
             rewrite count_app; cbn; lia.
        -- intros data. apply adds_emits.
           apply emits_bind; [apply emits_has_text|]. intros [|].
           ++ apply emits_ret.
           ++ apply emits_bind; [now apply emits_emit|]. intros _.
              apply emits_bind; [now apply emits_emit|]. intros _.
              apply emits_ret.
      * intros e. apply adds_emits. now apply emits_logError.
    + intros [lm'|lm'].
      * apply adds_weaken with (n := 0); [lia|]. apply adds_emits, emits_ret.
      * apply IH.
Qed.

Lemma adds_listing_answer_phase (api : remote) (t id : jsstring) :
  adds is_list_messages retries (answer_phase api t id).
Proof.
  unfold answer_phase. rewrite <- (Nat.add_0_r retries).
  apply adds_bind; [apply adds_listing_retrieve|].
  intros lm. apply adds_emits.
  apply emits_bind; [apply emits_has_text|]. intros [|]; cbn [negb].
  - apply emits_bind; [apply emits_text_value|]. intros v. apply emits_ret.
  - apply emits_throw.
Qed.

(** The [try] block of [sendMessage] behind the run creation adds
    events of the polling and of the retrieval only. *)
Lemma emits_after_creation (P : event -> Prop) (api : remote) (fuel : nat)
      (t id : jsstring) :
  (forall site e, P (Log site e)) -> (forall ms, P (Sleep ms)) ->
  (forall n, P (Console n)) ->
  P (Call (GetRun t id)) -> P (Call (ListMessages t)) ->
  emits P (try_catch
             (bind (await_run api fuel t id)
                   (fun _ => answer_phase api t id))
             (logError Site5)).
Proof.
  intros Hlog Hsleep Hcons Hget Hlist.
  apply emits_try; [|intros e; now apply emits_logError].
  apply emits_bind; [now apply emits_await_run|].
  intros _. now apply emits_answer_phase.
Qed.

(** X5: whatever the remote answers, one [sendMessage] call posts the
    user message at most once, creates at most one run and lists the
    messages at most [retries] = 5 times. *)
Theorem sendMessage_call_budget
        (api : remote) (fuel : nat)
        (message threadId assistantId : jsstring) :
  count is_post_message
    (snd (sendMessage api fuel message threadId assistantId [])) <= 1 /\
  count is_create_run
    (snd (sendMessage api fuel message threadId assistantId [])) <= 1 /\
  listings
    (snd (sendMessage api fuel message threadId assistantId [])) <= 5.
Proof.
  destruct (falsy message || falsy threadId || falsy assistantId) eqn:valid.
  { rewrite sendMessage_invalid by exact valid. cbn. lia. }
  destruct (post_message api) as [e|u] eqn:Ep.
  { rewrite sendMessage_post_rejected with (e := e) by assumption.
    cbn. lia. }
  destruct (create_run api) as [e|r0] eqn:Ec.
  { rewrite sendMessage_create_rejected with (u := u) (e := e)
      by assumption.
    cbn. lia. }
  rewrite sendMessage_created with (u := u) (r0 := r0) by assumption.
  repeat split.
  - apply (adds_emits is_post_message); apply emits_after_creation;
      reflexivity.
  - apply (adds_emits is_create_run); apply emits_after_creation;
      reflexivity.
  - change 5 with (count is_list_messages
                     [Call (PostMessage threadId message);
                      Call (CreateRun threadId assistantId)]
                   + ((0 + retries) + 0)).
    apply adds_try.
    + apply adds_bind; [|intros _; apply adds_listing_answer_phase].
      apply adds_emits. now apply emits_await_run.
    + intros e. apply adds_emits. now apply emits_logError.
Qed.

(** Closes the premises of a theorem on a scripted remote. *)
Ltac script_premise :=
  first [ reflexivity | lia | (unfold retries; lia) | (intros ? ?; lia) ].

(** What a [try] block whose handler is [logError] adds when it
    throws: the events of the block, then the call of [logError]. *)
Lemma try_logError_appends {A} (m : M A) (site : log_site)
      (tr tr2 : list event) (e : exn) :
  emits any_event m ->
  try_catch m (logError site) tr = (Throw e, tr2) ->
  exists evs, tr2 = tr ++ evs ++ [Log site e].
Proof.
  intros Hm. unfold try_catch. destruct (Hm tr) as (evs & E & _).
  destruct (m tr) as [[a|e'|] tr']; try discriminate.
  simpl in E. subst tr'. run_eff. intros [= <- <-]. now exists evs.
Qed.

(** X6: with valid arguments, an exception that leaves [sendMessage] has
    been handed to [this.logError] just before: the last event of the
    trace is the call of [logError] for that very exception.  The label
    tells the step that failed: it is "sendMessage 1" exactly when the
    post of the message was rejected, and the trace is then the post and
    this call alone; otherwise the post went through, it is the first
    event, and the label is "sendMessage 5". *)
Theorem sendMessage_failure_logged
        (api : remote) (fuel : nat)
        (message threadId assistantId : jsstring)
        (e : exn) (tr : list event) :
  falsy message || falsy threadId || falsy assistantId = false ->
  sendMessage api fuel message threadId assistantId [] = (Throw e, tr) ->
  (exists reason,
     post_message api = inl reason /\ e = AxiosError reason /\
     tr = [Call (PostMessage threadId message); Log Site1 e]) \/
  (exists u evs,
     post_message api = inr u /\
     tr = Call (PostMessage threadId message) :: evs ++ [Log Site5 e]).
Proof.
  intros valid.
  destruct (post_message api) as [x|u] eqn:Ep.
  - rewrite sendMessage_post_rejected with (e := x) by assumption.
    intros [= <- <-]. left. now exists x.
  - rewrite sendMessage_posted with (u := u) by assumption.
    intros H. apply try_logError_appends in H as [evs ->].
    + right. now exists u, evs.
    + apply emits_bind;
        [apply emits_await; exact I|intros run].
      apply emits_bind; [now apply emits_await_run|].
      intros _. now apply emits_answer_phase.
Qed.

Lemma sendMessage_failure_logged_witness :
  (exists reason,
     post_message api_list_down = inl reason /\
     AxiosError (js "timeout") = AxiosError reason /\
     snd (sendMessage api_list_down 3 (js "hi") (js "thread_1")
                      (js "asst_1") []) =
     [Call (PostMessage (js "thread_1") (js "hi"));
      Log Site1 (AxiosError (js "timeout"))]) \/
  (exists u evs,
     post_message api_list_down = inr u /\
     snd (sendMessage api_list_down 3 (js "hi") (js "thread_1")
                      (js "asst_1") []) =
     Call (PostMessage (js "thread_1") (js "hi"))
       :: evs ++ [Log Site5 (AxiosError (js "timeout"))]).
Proof.
  apply (sendMessage_failure_logged
           api_list_down 3 (js "hi") (js "thread_1") (js "asst_1")
           (AxiosError (js "timeout"))
           (snd (sendMessage api_list_down 3 (js "hi") (js "thread_1")
                             (js "asst_1") [])));
    reflexivity.
Defined.

(** X7: a rejected run creation ends [sendMessage] after two remote
    calls: the error is logged once, at "sendMessage 5", and thrown; the
    status of no run is fetched and no message is listed. *)
Theorem sendMessage_creation_rejected
        (api : remote) (fuel : nat)
        (message threadId assistantId : jsstring) (u : unit) (e : jsstring) :
  falsy message || falsy threadId || falsy assistantId = false ->
  post_message api = inr u -> create_run api = inl e ->
  sendMessage api fuel message threadId assistantId [] =
    (Throw (AxiosError e),
     [Call (PostMessage threadId message);
      Call (CreateRun threadId assistantId);
      Log Site5 (AxiosError e)]) /\
  remote_calls
    (snd (sendMessage api fuel message threadId assistantId [])) = 2.
Proof.
  intros valid Ep Ec.
  rewrite sendMessage_create_rejected with (u := u) (e := e) by assumption.
  split; reflexivity.
Qed.

Lemma sendMessage_creation_rejected_witness :
  remote_calls
    (snd (sendMessage
            {| post_message := inr tt; create_run := inl (js "down");
               get_run := get_run api_silent;
               list_messages := list_messages api_silent |}
            3 (js "hi") (js "thread_1") (js "asst_1") [])) = 2.
Proof.
  apply (sendMessage_creation_rejected
           {| post_message := inr tt; create_run := inl (js "down");
              get_run := get_run api_silent;
              list_messages := list_messages api_silent |}
           3 (js "hi") (js "thread_1") (js "asst_1") tt (js "down"));
    reflexivity.
Defined.

Lemma has_text_unreadable (lm : option message) (tr : list event) :
  unreadable lm = true -> has_text lm tr = (Throw TypeError, tr).
Proof.
  destruct lm as [m|]; [|discriminate]. simpl.
  destruct (msg_content m) as [[|[v|] ps]|]; try discriminate; reflexivity.
Qed.

Lemma retrieve_unreadable (api : remote) (t id : jsstring)
      (remaining attempt : nat) (lm : option message) (tr : list event)
      (data : list message) :
  list_messages api (listings tr) = inr data ->
  unreadable (select id data) = true ->
  retrieve api (S remaining) attempt t id lm tr =
  (Throw TypeError,
   tr ++ [Call (ListMessages t); Log (SiteRetry (attempt + 1)) TypeError]).
Proof.
  intros E U. cbn [retrieve].
  erewrite bind_throw; [reflexivity|].
  erewrite try_bind_return;
    [|unfold axios_list_messages, await; rewrite E; reflexivity].
  erewrite try_bind_throw; [|now apply has_text_unreadable].
  run_eff. reflexivity.
Qed.

(** X8: when the message selected at attempt [k] has an empty array of
    content parts, or a first part that is no text, the check of the code
    throws a TypeError: the retrieval stops at that attempt, the
    TypeError is logged at "sendMessage retry k+1" and "sendMessage 5"
    and leaves [sendMessage]; the remaining attempts are not made. *)
Theorem sendMessage_unreadable_content
        (api : remote) (fuel : nat)
        (message threadId assistantId : jsstring)
        (u : unit) (r0 final : run) (n k : nat)
        (data : list Remote.message) :
  falsy message || falsy threadId || falsy assistantId = false ->
  post_message api = inr u -> create_run api = inr r0 ->
  pending_before api n -> get_run api n = inr final ->
  pending (run_status final) = false -> n <= fuel ->
  k < retries -> misses api (run_id r0) k ->
  list_messages api k = inr data ->
  unreadable (select (run_id r0) data) = true ->
  sendMessage api fuel message threadId assistantId [] =
    (Throw TypeError,
     polled_events message threadId assistantId (run_id r0) n
       ++ retry_events threadId 0 k
       ++ [Call (ListMessages threadId);
           Log (SiteRetry (k + 1)) TypeError; Log Site5 TypeError]) /\
  listings (snd (sendMessage api fuel message threadId assistantId []))
  = S k.
Proof.
  intros valid Ep Ec Hp Ef Pf Hf Hk Hm Ed U.
  rewrite (@sendMessage_polled api fuel message threadId assistantId valid
             u r0 final n Ep Ec Hp Ef Pf Hf).
  set (tr := polled_events message threadId assistantId (run_id r0) n).
  assert (Ltr : listings tr = 0) by apply listings_polled.
  destruct (@retrieve_misses api threadId (run_id r0) k (retries - k) 0
              None tr)
    as (lm & _ & E); [reflexivity|now apply misses_from|].
  replace (k + (retries - k)) with retries in E by lia.
  replace (retries - k) with (S (retries - S k)) in E by lia.
  rewrite retrieve_unreadable with (data := data) in E;
    [| now rewrite listings_retried | exact U].
  unfold answer_phase. erewrite try_bind_throw by exact E.
  run_eff. split; [reflexivity|]. cbn [snd].
  rewrite !listings_app, Ltr, listings_retry_events. cbn. lia.
Qed.

Lemma sendMessage_unreadable_content_witness :
  fst (sendMessage
         {| post_message := inr tt; create_run := inr (run_1 "queued");
            get_run := fun _ => inr (run_1 "completed");
            list_messages := fun _ =>
              inr [{| msg_run_id := Some (js "run_1");
                      msg_role := js "assistant";
                      msg_content := Some [] |}] |}
         3 (js "hi") (js "thread_1") (js "asst_1") []) = Throw TypeError.
Proof.
  destruct (sendMessage_unreadable_content
              {| post_message := inr tt; create_run := inr (run_1 "queued");
                 get_run := fun _ => inr (run_1 "completed");
                 list_messages := fun _ =>
                   inr [{| msg_run_id := Some (js "run_1");
                           msg_role := js "assistant";
                           msg_content := Some [] |}] |}
              3 (js "hi") (js "thread_1") (js "asst_1")
              tt (run_1 "queued") (run_1 "completed") 0 0
              [{| msg_run_id := Some (js "run_1");
                  msg_role := js "assistant";
                  msg_content := Some [] |}])
    as [E _]; [script_premise .. | now rewrite E].
Defined.

(** X9: a rejected listing of the messages at attempt [k] ends
    [sendMessage] with that error, logged at "sendMessage retry k+1" and
    at "sendMessage 5"; the attempts after it are not made. *)
Theorem sendMessage_listing_rejected
        (api : remote) (fuel : nat)
        (message threadId assistantId : jsstring)
        (u : unit) (r0 final : run) (n k : nat) (e : jsstring) :
  falsy message || falsy threadId || falsy assistantId = false ->
  post_message api = inr u -> create_run api = inr r0 ->
  pending_before api n -> get_run api n = inr final ->
  pending (run_status final) = false -> n <= fuel ->
  k < retries -> misses api (run_id r0) k ->
  list_messages api k = inl e ->
  sendMessage api fuel message threadId assistantId [] =
    (Throw (AxiosError e),
     polled_events message threadId assistantId (run_id r0) n
       ++ retry_events threadId 0 k
       ++ [Call (ListMessages threadId);
           Log (SiteRetry (k + 1)) (AxiosError e);
           Log Site5 (AxiosError e)]) /\
  listings (snd (sendMessage api fuel message threadId assistantId []))
  = S k.
Proof.
  intros valid Ep Ec Hp Ef Pf Hf Hk Hm Ee.
  rewrite (@sendMessage_polled api fuel message threadId assistantId valid
             u r0 final n Ep Ec Hp Ef Pf Hf).
  erewrite try_throw;
    [|apply answer_phase_rejected with (k := k) (e := e);
      [apply listings_polled|exact Hk|exact Hm|exact Ee]].
  run_eff. split; [reflexivity|]. cbn [snd].
  rewrite !listings_app, listings_polled, listings_retry_events. cbn. lia.
Qed.

Lemma sendMessage_listing_rejected_witness :
  listings
    (snd (sendMessage api_list_down 3 (js "hi") (js "thread_1")
                      (js "asst_1") [])) = 1.
Proof.
  apply (sendMessage_listing_rejected
           api_list_down 3 (js "hi") (js "thread_1") (js "asst_1")
           tt (run_1 "queued") (run_1 "completed") 0 0 (js "timeout"));
    try reflexivity.
  - intros i Hi. lia.
  - lia.
  - unfold retries. lia.
  - intros i Hi. lia.
Defined.

(** X10: the polling has no bound of its own.  While the remote keeps
    answering with a pending status, [sendMessage] neither returns nor
    throws: after any number [fuel] of turns of the loop it has made
    [fuel + 1] status fetches, each turn with its delay of 5000 ms, and
    is still waiting; no message has been listed. *)
Theorem sendMessage_polls_while_pending
        (api : remote) (fuel : nat)
        (message threadId assistantId : jsstring) (u : unit) (r0 : run) :
  falsy message || falsy threadId || falsy assistantId = false ->
  post_message api = inr u -> create_run api = inr r0 ->
  always_pending api ->
  sendMessage api fuel message threadId assistantId [] =
    (OutOfFuel,
     polled_events message threadId assistantId (run_id r0) fuel) /\
  status_fetches
    (polled_events message threadId assistantId (run_id r0) fuel)
  = S fuel /\
  listings (polled_events message threadId assistantId (run_id r0) fuel) = 0.
Proof.
  intros valid Ep Ec Hp.
  rewrite (@sendMessage_created api fuel message threadId assistantId valid
             u r0 Ep Ec).
  destruct (@await_run_reach api threadId (run_id r0) fuel fuel
              [Call (PostMessage threadId message);
               Call (CreateRun threadId assistantId)])
    as (r & Pr & E); [reflexivity| |lia|].
  { intros i _. apply Hp. }
  rewrite Nat.sub_diag in E. cbn [poll] in E. rewrite Pr in E.
  erewrite try_bind_out_of_fuel by exact E.
  split; [reflexivity|].
  split; [apply status_fetches_polled|apply listings_polled].
Qed.

Lemma sendMessage_polls_while_pending_witness :
  fst (sendMessage
         {| post_message := inr tt; create_run := inr (run_1 "queued");
            get_run := fun _ => inr (run_1 "in_progress");
            list_messages := fun _ => inr [] |}
         7 (js "hi") (js "thread_1") (js "asst_1") []) = OutOfFuel.
Proof.
  destruct (sendMessage_polls_while_pending
              {| post_message := inr tt; create_run := inr (run_1 "queued");
                 get_run := fun _ => inr (run_1 "in_progress");
                 list_messages := fun _ => inr [] |}
              7 (js "hi") (js "thread_1") (js "asst_1") tt (run_1 "queued"))
    as [E _];
    [reflexivity | reflexivity | reflexivity
    | intros i; exists (run_1 "in_progress"); split; reflexivity
    | now rewrite E].
Defined.

(* ================================================================== *)
(** * [validate] *)
(* ================================================================== *)

Section ValidateProperties.

Variable value : Type.
Variable truthy : value -> bool.
Variable body : jsstring -> option value.

Lemma first_missing_none (fields : list jsstring) :
  first_missing truthy body fields = None <->
  forall field, In field fields -> present truthy body field = true.
Proof.
  induction fields as [|f fields IH]; simpl.
  - split; [intros _ field []|reflexivity].
  - destruct (present truthy body f) eqn:P; simpl.
    + rewrite IH. split.
      * intros H field [<-|Hin]; auto.
      * intros H field Hin. apply H. now right.
    + split; [discriminate|]. intros H.
      specialize (H f (or_introl eq_refl)). congruence.
Qed.

Lemma first_missing_some (fields : list jsstring) (msg : jsstring) :
  first_missing truthy body fields = Some msg ->
  exists before field after,
    fields = before ++ field :: after /\
    (forall f, In f before -> present truthy body f = true) /\
    present truthy body field = false /\
    msg = js "Missing required field: " ++ field.
Proof.
  induction fields as [|f fields IH]; simpl; [discriminate|].
  destruct (present truthy body f) eqn:P; simpl.
  - intros H. destruct (IH H) as (b & x & a & -> & Hb & Hx & ->).
    exists (f :: b), x, a. repeat split; auto.
    intros g [<-|Hg]; auto.
  - intros [= <-]. exists [], f, fields. repeat split; auto.
Qed.

End ValidateProperties.

(** X11: [validate] returns null exactly when every required field is
    truthy in the body (in particular when no field is required, or the
    list of the required fields is null). *)
Theorem validate_null_iff
        (value : Type) (truthy : value -> bool)
        (body : jsstring -> option value)
        (requiredFields : option (list jsstring)) :
  validate truthy body requiredFields = None <->
  forall fields field,
    requiredFields = Some fields -> In field fields ->
    present truthy body field = true.
Proof.
  destruct requiredFields as [[|f fields]|]; cbn [validate].
  - split; [|reflexivity]. intros _ fields field [= <-] [].
  - rewrite first_missing_none. split.
    + intros H fields' field [= <-]. apply H.
    + intros H field. now apply H.
  - split; [|reflexivity]. intros _ fields field [=].
Qed.

(** X12: when [validate] reports an error, it names the first required
    field, in the order of the list, that is missing or falsy in the
    body; the fields before it are all truthy. *)
Theorem validate_first_missing
        (value : Type) (truthy : value -> bool)
        (body : jsstring -> option value)
        (requiredFields : option (list jsstring)) (msg : jsstring) :
  validate truthy body requiredFields = Some msg ->
  exists before field after,
    requiredFields = Some (before ++ field :: after) /\
    (forall f, In f before -> present truthy body f = true) /\
    present truthy body field = false /\
    msg = js "Missing required field: " ++ field.
Proof.
  destruct requiredFields as [[|f fields]|]; cbn [validate];
    try discriminate.
  intros H. apply first_missing_some in H as (b & x & a & E & H).
  exists b, x, a. now rewrite E.
Qed.

Lemma validate_first_missing_witness :
  exists before field after,
    Some [js "name"; js "instructions"] = Some (before ++ field :: after) /\
    (forall f, In f before ->
       present (fun s : jsstring => negb (falsy s))
               (fun f => if eqb f (js "name") then Some (js "bot") else None)
               f = true) /\
    present (fun s : jsstring => negb (falsy s))
            (fun f => if eqb f (js "name") then Some (js "bot") else None)
            field = false /\
    js "Missing required field: instructions" =
      js "Missing required field: " ++ field.
Proof.
  apply (validate_first_missing
           jsstring (fun s => negb (falsy s))
           (fun f => if eqb f (js "name") then Some (js "bot") else None)
           (Some [js "name"; js "instructions"])
           (js "Missing required field: instructions")).
  reflexivity.
Defined.

(* ================================================================== *)
(** * The handlers *)
(* ================================================================== *)

(** Runs a handler: unfolds the handlers, the models, the service calls
    and the monad. *)
Ltac sys_run :=
  cbv [Controllers.sendMessageToAgent Controllers.getConversationByAgentId
       Controllers.getMessageHistoryByThreadId Controllers.deleteAgentById
       Controllers.json Controllers.internal_error Controllers.logError
       Models.getAgentById Models.deleteAgentById Models.createConversation
       Models.getConversationByAgentId Models.getConversationByThreadId
       Models.updateConversationById Models.query
       ServiceCalls.createThread ServiceCalls.retrieveThreadMessages
       ServiceCalls.createAssistant ServiceCalls.updateAssistant
       ServiceCalls.deleteAssistant ServiceCalls.deleteStoreVector
       ServiceCalls.logError ServiceCalls.axios
       Sys.bind Sys.try_catch Sys.ret Sys.throw Sys.emit Sys.await
       Sys.exchange];
  cbn [app negb].

Lemma present_agent_id (data : Controllers.send_body) :
  present truthy (Controllers.field_of data) (js "agent_id") =
  truthy (Controllers.body_agent_id data).
Proof. reflexivity. Qed.

Lemma present_thread_id (data : Controllers.send_body) :
  present truthy (Controllers.field_of data) (js "thread_id") =
  negb (falsy (text_of (Controllers.body_thread_id data))).
Proof.
  unfold present, Controllers.field_of. cbn.
  now destruct (Controllers.body_thread_id data).
Qed.

Lemma present_message (data : Controllers.send_body) :
  present truthy (Controllers.field_of data) (js "message") =
  negb (falsy (text_of (Controllers.body_message data))).
Proof.
  unfold present, Controllers.field_of. cbn.
  now destruct (Controllers.body_message data).
Qed.

Lemma validate_send_body (data : Controllers.send_body) :
  validate truthy (Controllers.field_of data) (Some send_fields) =
  if negb (truthy (Controllers.body_agent_id data))
  then Some (js "Missing required field: agent_id")
  else if falsy (text_of (Controllers.body_thread_id data))
  then Some (js "Missing required field: thread_id")
  else if falsy (text_of (Controllers.body_message data))
  then Some (js "Missing required field: message")
  else None.
Proof.
  unfold send_fields. cbn [validate first_missing].
  rewrite present_agent_id, present_thread_id, present_message.
  destruct (truthy (Controllers.body_agent_id data)); [|reflexivity].
  destruct (falsy (text_of (Controllers.body_thread_id data)));
    [reflexivity|].
  destruct (falsy (text_of (Controllers.body_message data))); reflexivity.
Qed.

Lemma sendMessageToAgent_rejects_body
        (string_nan : jsstring -> bool) (db : database)
        (api : ServiceCalls.openai) (fuel : nat)
        (data : Controllers.send_body) :
  truthy (Controllers.body_agent_id data) = false \/
  text_of (Controllers.body_thread_id data) = [] \/
  text_of (Controllers.body_message data) = [] ->
  exists field,
    In field send_fields /\
    Controllers.sendMessageToAgent string_nan db api fuel data [] =
    (Return {| http_status := 400;
               body := responseWithoutData
                         (CodeNumber 400)
                         (js "Missing required field: " ++ field) |},
     []).
Proof.
  intros H. unfold Controllers.sendMessageToAgent.
  change [js "agent_id"; js "thread_id"; js "message"] with send_fields.
  unfold Sys.try_catch. rewrite validate_send_body.
  destruct (truthy (Controllers.body_agent_id data)) eqn:Ta; cbn [negb].
  2:{ exists (js "agent_id"). split; [now left|reflexivity]. }
  destruct (falsy (text_of (Controllers.body_thread_id data))) eqn:Ft.
  { exists (js "thread_id"). split; [right; now left|reflexivity]. }
  destruct (falsy (text_of (Controllers.body_message data))) eqn:Fm.
  { exists (js "message"). split; [right; right; now left|reflexivity]. }
  destruct H as [H|[H|H]]; [discriminate| |];
    rewrite H in *; discriminate.
Qed.

(** X13: a body of POST /v1/conversations in which agent_id, thread_id
    or message is missing or falsy is answered with the status 400 and
    the message "Missing required field: " followed by the first such
    field, in the order agent_id, thread_id, message: that field is
    missing or falsy and every field before it is truthy.  Neither the
    database nor the remote service is touched. *)
Theorem sendMessageToAgent_missing_field
        (string_nan : jsstring -> bool) (db : database)
        (api : ServiceCalls.openai) (fuel : nat)
        (data : Controllers.send_body) :
  truthy (Controllers.body_agent_id data) = false \/
  text_of (Controllers.body_thread_id data) = [] \/
  text_of (Controllers.body_message data) = [] ->
  exists before field after,
    send_fields = before ++ field :: after /\
    present truthy (Controllers.field_of data) field = false /\
    (forall earlier,
       In earlier before ->
       present truthy (Controllers.field_of data) earlier = true) /\
    Controllers.sendMessageToAgent string_nan db api fuel data [] =
    (Return {| http_status := 400;
               body := responseWithoutData
                         (CodeNumber 400)
                         (js "Missing required field: " ++ field) |},
     []).
Proof.
  intros H. unfold Controllers.sendMessageToAgent.
  change [js "agent_id"; js "thread_id"; js "message"] with send_fields.
  unfold Sys.try_catch. rewrite validate_send_body.
  destruct (truthy (Controllers.body_agent_id data)) eqn:Ta; cbn [negb].
  2:{ exists [], (js "agent_id"), [js "thread_id"; js "message"].
      split; [reflexivity|]. split; [now rewrite present_agent_id, Ta|].
      split; [intros earlier []|reflexivity]. }
  destruct (falsy (text_of (Controllers.body_thread_id data))) eqn:Ft.
  { exists [js "agent_id"], (js "thread_id"), [js "message"].
    split; [reflexivity|]. split; [now rewrite present_thread_id, Ft|].
    split; [|reflexivity].
    intros earlier [<-|[]]. now rewrite present_agent_id. }
  destruct (falsy (text_of (Controllers.body_message data))) eqn:Fm.
  { exists [js "agent_id"; js "thread_id"], (js "message"), [].
    split; [reflexivity|]. split; [now rewrite present_message, Fm|].
    split; [|reflexivity].
    intros earlier [<-|[<-|[]]].
    - now rewrite present_agent_id.
    - now rewrite present_thread_id, Ft. }
  destruct H as [H|[H|H]]; [discriminate| |];
    rewrite H in *; discriminate.
Qed.

Lemma sendMessageToAgent_missing_field_witness :
  exists before field after,
    send_fields = before ++ field :: after /\
    present truthy
            (Controllers.field_of
               {| Controllers.body_agent_id := VNumber 7;
                  Controllers.body_thread_id := Some (js "thread_1");
                  Controllers.body_message := None |}) field = false /\
    (forall earlier,
       In earlier before ->
       present truthy
               (Controllers.field_of
                  {| Controllers.body_agent_id := VNumber 7;
                     Controllers.body_thread_id := Some (js "thread_1");
                     Controllers.body_message := None |}) earlier = true) /\
    Controllers.sendMessageToAgent
      digits_nan db_one openai_up 3
      {| Controllers.body_agent_id := VNumber 7;
         Controllers.body_thread_id := Some (js "thread_1");
         Controllers.body_message := None |} [] =
    (Return {| http_status := 400;
               body := responseWithoutData
                         (CodeNumber 400)
                         (js "Missing required field: " ++ field) |},
     []).
Proof.
  apply (sendMessageToAgent_missing_field
           digits_nan db_one openai_up 3
           {| Controllers.body_agent_id := VNumber 7;
              Controllers.body_thread_id := Some (js "thread_1");
              Controllers.body_message := None |}).
  right. right. reflexivity.
Defined.

Section SendMessageToAgent.

Variable string_nan : jsstring -> bool.
Variable db : database.
Variable api : ServiceCalls.openai.
Variable fuel : nat.
Variable data : Controllers.send_body.

Let id := Controllers.body_agent_id data.
Let threadId := text_of (Controllers.body_thread_id data).
Let message := text_of (Controllers.body_message data).

(** The three required fields are present. *)
Hypothesis has_agent_id : truthy id = true.
Hypothesis has_thread_id : falsy threadId = false.
Hypothesis has_message : falsy message = false.

Lemma validate_passes :
  validate truthy (Controllers.field_of data)
           (Some [js "agent_id"; js "thread_id"; js "message"]) = None.
Proof.
  change [js "agent_id"; js "thread_id"; js "message"] with send_fields.
  rewrite validate_send_body. fold id threadId message.
  now rewrite has_agent_id, has_thread_id, has_message.
Qed.

(** The handler behind the validation. *)
Lemma sendMessageToAgent_validated (tr : list sys_event) :
  Controllers.sendMessageToAgent string_nan db api fuel data tr =
  Sys.try_catch
    (Sys.bind
       (Models.getAgentById string_nan (Some db) id)
       (fun agent =>
          match agent with
          | [] => Controllers.json
                    404 (responseWithoutData (CodeNumber 404)
                                             (js "Agent not found"))
          | agent :: _ =>
              Sys.bind
                (Models.getConversationByThreadId (Some db) threadId)
                (fun conversation =>
                   match conversation with
                   | [] => Controllers.json
                             404 (responseWithoutData
                                    (CodeNumber 404)
                                    (js "Conversation not found"))
                   | conversation :: _ =>
                       Sys.bind
                         (Models.updateConversationById
                            string_nan (Some db)
                            (conversation_id conversation))
                         (fun _ =>
                            Sys.bind
                              (Sys.exchange
                                 (sendMessage (ServiceCalls.chat api) fuel
                                    message threadId
                                    (text_of (assistant_id agent))))
                              (fun openAIResponse =>
                                 Sys.bind
                                   (Sys.emit
                                      (ConsoleOut
                                         (js "openAIResponse")
                                         (removeCitations openAIResponse)))
                                   (fun _ =>
                                      Controllers.json
                                        200
                                        (response
                                           (CodeText (js "success"))
                                           (js "Message has been sent and replied!")
                                           (DataMessage
                                              (removeCitations
                                                 openAIResponse))))))
                   end)
          end))
    (Controllers.internal_error (js "conversationController")
                                (js "sendMessageToAgent")) tr.
Proof.
  unfold Controllers.sendMessageToAgent, Sys.try_catch.
  now rewrite validate_passes.
Qed.

End SendMessageToAgent.

Lemma sendMessageToAgent_rejects_nan
        (string_nan : jsstring -> bool) (db : database)
        (api : ServiceCalls.openai) (fuel : nat)
        (data : Controllers.send_body) :
  truthy (Controllers.body_agent_id data) = true ->
  falsy (text_of (Controllers.body_thread_id data)) = false ->
  falsy (text_of (Controllers.body_message data)) = false ->
  isNaN string_nan (Controllers.body_agent_id data) = true ->
  Controllers.sendMessageToAgent string_nan db api fuel data [] =
  (Return {| http_status := 500;
             body := response (CodeNumber 500) (js "Internal server error")
                       (DataError (Error (js "Id must be a number"))) |},
   [ErrorLog (Error (js "Id must be a number"))
             (js "conversationController") (js "sendMessageToAgent")]).
Proof.
  intros Ha Ht Hm Hnan.
  rewrite sendMessageToAgent_validated by assumption.
  sys_run. rewrite Ha, Hnan. reflexivity.
Qed.

(** X14: an agent_id that is truthy but no number (a string that does
    not parse as a number) is answered with the status 500, not 400: the
    model function rejects it with "Id must be a number" before any
    statement reaches the database, the handler logs that error, and the
    remote service is not called. *)
Theorem sendMessageToAgent_non_numeric_agent
        (string_nan : jsstring -> bool) (db : database)
        (api : ServiceCalls.openai) (fuel : nat)
        (data : Controllers.send_body) :
  truthy (Controllers.body_agent_id data) = true ->
  falsy (text_of (Controllers.body_thread_id data)) = false ->
  falsy (text_of (Controllers.body_message data)) = false ->
  isNaN string_nan (Controllers.body_agent_id data) = true ->
  Controllers.sendMessageToAgent string_nan db api fuel data [] =
  (Return {| http_status := 500;
             body := response (CodeNumber 500) (js "Internal server error")
                       (DataError (Error (js "Id must be a number"))) |},
   [ErrorLog (Error (js "Id must be a number"))
             (js "conversationController") (js "sendMessageToAgent")]).
Proof. apply sendMessageToAgent_rejects_nan. Qed.

Lemma sendMessageToAgent_non_numeric_agent_witness :
  fst (Controllers.sendMessageToAgent
         digits_nan db_one openai_up 3
         {| Controllers.body_agent_id := VString (js "seven");
            Controllers.body_thread_id := Some (js "thread_1");
            Controllers.body_message := Some (js "hi") |} []) =
  Return {| http_status := 500;
            body := response (CodeNumber 500) (js "Internal server error")
                      (DataError (Error (js "Id must be a number"))) |}.
Proof.
  rewrite (sendMessageToAgent_non_numeric_agent
             digits_nan db_one openai_up 3
             {| Controllers.body_agent_id := VString (js "seven");
                Controllers.body_thread_id := Some (js "thread_1");
                Controllers.body_message := Some (js "hi") |}
             eq_refl eq_refl eq_refl eq_refl).
  reflexivity.
Defined.

(** X15: with the three fields present and a numeric agent_id, an agent
    that the database does not know is answered with 404 "Agent not
    found" after one statement, and a thread without conversation with
    404 "Conversation not found" after two; in both cases the remote
    service is not called and no row is updated. *)
Theorem sendMessageToAgent_not_found
        (string_nan : jsstring -> bool) (db : database)
        (api : ServiceCalls.openai) (fuel : nat)
        (data : Controllers.send_body) :
  truthy (Controllers.body_agent_id data) = true ->
  falsy (text_of (Controllers.body_thread_id data)) = false ->
  falsy (text_of (Controllers.body_message data)) = false ->
  isNaN string_nan (Controllers.body_agent_id data) = false ->
  (agents_by_id db (Controllers.body_agent_id data) = inr [] ->
   Controllers.sendMessageToAgent string_nan db api fuel data [] =
   (Return {| http_status := 404;
              body := responseWithoutData (CodeNumber 404)
                                          (js "Agent not found") |},
    [Query (SelectAgentById (Controllers.body_agent_id data))])) /\
  (forall agent others,
     agents_by_id db (Controllers.body_agent_id data) =
       inr (agent :: others) ->
     conversations_by_thread db (text_of (Controllers.body_thread_id data))
       = inr [] ->
     Controllers.sendMessageToAgent string_nan db api fuel data [] =
     (Return {| http_status := 404;
                body := responseWithoutData (CodeNumber 404)
                                            (js "Conversation not found") |},
      [Query (SelectAgentById (Controllers.body_agent_id data));
       Query (SelectConversationByThreadId
                (text_of (Controllers.body_thread_id data)))])).
Proof.
  intros Ha Ht Hm Hnan. split.
  - intros Eg. rewrite sendMessageToAgent_validated by assumption.
    sys_run. rewrite Ha, Hnan. sys_run. rewrite Eg. reflexivity.
  - intros agent others Eg Ec.
    rewrite sendMessageToAgent_validated by assumption.
    sys_run. rewrite Ha, Hnan. sys_run. rewrite Eg. sys_run.
    rewrite Ht. sys_run. rewrite Ec. reflexivity.
Qed.

Lemma sendMessageToAgent_not_found_witness :
  fst (Controllers.sendMessageToAgent
         digits_nan db_one openai_up 3
         {| Controllers.body_agent_id := VNumber 8;
            Controllers.body_thread_id := Some (js "thread_1");
            Controllers.body_message := Some (js "hi") |} []) =
  Return {| http_status := 404;
            body := responseWithoutData (CodeNumber 404)
                                        (js "Agent not found") |}.
Proof.
  destruct (sendMessageToAgent_not_found
              digits_nan db_one openai_up 3
              {| Controllers.body_agent_id := VNumber 8;
                 Controllers.body_thread_id := Some (js "thread_1");
                 Controllers.body_message := Some (js "hi") |}
              eq_refl eq_refl eq_refl eq_refl) as [H _].
  now rewrite (H eq_refl).
Defined.

Section Checked.

Variable string_nan : jsstring -> bool.
Variable db : database.
Variable api : ServiceCalls.openai.
Variable fuel : nat.
Variable data : Controllers.send_body.
Variables (agent : agent) (agents : list Db.agent).
Variables (conversation : conversation) (conversations : list Db.conversation).

Hypothesis has_agent_id : truthy (Controllers.body_agent_id data) = true.
Hypothesis has_thread_id :
  falsy (text_of (Controllers.body_thread_id data)) = false.
Hypothesis has_message :
  falsy (text_of (Controllers.body_message data)) = false.
Hypothesis numeric : isNaN string_nan (Controllers.body_agent_id data) = false.
Hypothesis agent_found :
  agents_by_id db (Controllers.body_agent_id data) = inr (agent :: agents).
Hypothesis conversation_found :
  conversations_by_thread db (text_of (Controllers.body_thread_id data)) =
  inr (conversation :: conversations).
Hypothesis row_id : conversation_id conversation <> 0%Z.
Hypothesis updated :
  conversation_updated db (conversation_id conversation) = inr tt.

(** The handler once the checks have passed and the row is updated. *)
Lemma sendMessageToAgent_checked :
  Controllers.sendMessageToAgent string_nan db api fuel data [] =
  match sendMessage (ServiceCalls.chat api) fuel
          (text_of (Controllers.body_message data))
          (text_of (Controllers.body_thread_id data))
          (text_of (assistant_id agent)) [] with
  | (Return x, evs) =>
      (Return {| http_status := 200;
                 body := response (CodeText (js "success"))
                           (js "Message has been sent and replied!")
                           (DataMessage (removeCitations x)) |},
       [Query (SelectAgentById (Controllers.body_agent_id data));
        Query (SelectConversationByThreadId
                 (text_of (Controllers.body_thread_id data)));
        Query (UpdateConversationById (conversation_id conversation))]
         ++ List.map Exchange evs
         ++ [ConsoleOut (js "openAIResponse") (removeCitations x)])
  | (Throw e, evs) =>
      (Return {| http_status := 500;
                 body := response (CodeNumber 500)
                           (js "Internal server error") (DataError e) |},
       [Query (SelectAgentById (Controllers.body_agent_id data));
        Query (SelectConversationByThreadId
                 (text_of (Controllers.body_thread_id data)));
        Query (UpdateConversationById (conversation_id conversation))]
         ++ List.map Exchange evs
         ++ [ErrorLog e (js "conversationController")
                      (js "sendMessageToAgent")])
  | (OutOfFuel, evs) =>
      (OutOfFuel,
       [Query (SelectAgentById (Controllers.body_agent_id data));
        Query (SelectConversationByThreadId
                 (text_of (Controllers.body_thread_id data)));
        Query (UpdateConversationById (conversation_id conversation))]
         ++ List.map Exchange evs)
  end.
Proof.
  rewrite sendMessageToAgent_validated by assumption.
  sys_run. rewrite has_agent_id, numeric. sys_run. rewrite agent_found.
  sys_run. rewrite has_thread_id. sys_run. rewrite conversation_found.
  sys_run. cbn [truthy isNaN].
  replace (Z.eqb (conversation_id conversation) 0) with false
    by (symmetry; now apply Z.eqb_neq).
  sys_run. rewrite updated. sys_run.
  destruct (sendMessage (ServiceCalls.chat api) fuel
              (text_of (Controllers.body_message data))
              (text_of (Controllers.body_thread_id data))
              (text_of (assistant_id agent)) []) as [[x|e|] evs];
    sys_run; rewrite <- ?app_assoc; reflexivity.
Qed.

End Checked.

(** X16: every exception of [sendMessage] (invalid arguments, a rejected
    remote call, the exhausted retrieval, a TypeError) is answered alike:
    the handler logs it and replies with the status 500 and "Internal
    server error".  The conversation row has been updated before the
    exchange and stays updated. *)
Theorem sendMessageToAgent_exchange_failed
        (string_nan : jsstring -> bool) (db : database)
        (api : ServiceCalls.openai) (fuel : nat)
        (data : Controllers.send_body)
        (agent : Db.agent) (agents : list Db.agent)
        (conversation : Db.conversation)
        (conversations : list Db.conversation)
        (e : exn) (evs : list event) :
  truthy (Controllers.body_agent_id data) = true ->
  falsy (text_of (Controllers.body_thread_id data)) = false ->
  falsy (text_of (Controllers.body_message data)) = false ->
  isNaN string_nan (Controllers.body_agent_id data) = false ->
  agents_by_id db (Controllers.body_agent_id data) = inr (agent :: agents) ->
  conversations_by_thread db (text_of (Controllers.body_thread_id data)) =
    inr (conversation :: conversations) ->
  conversation_id conversation <> 0%Z ->
  conversation_updated db (conversation_id conversation) = inr tt ->
  sendMessage (ServiceCalls.chat api) fuel
    (text_of (Controllers.body_message data))
    (text_of (Controllers.body_thread_id data))
    (text_of (assistant_id agent)) [] = (Throw e, evs) ->
  Controllers.sendMessageToAgent string_nan db api fuel data [] =
  (Return {| http_status := 500;
             body := response (CodeNumber 500)
                       (js "Internal server error") (DataError e) |},
   [Query (SelectAgentById (Controllers.body_agent_id data));
    Query (SelectConversationByThreadId
             (text_of (Controllers.body_thread_id data)));
    Query (UpdateConversationById (conversation_id conversation))]
     ++ List.map Exchange evs
     ++ [ErrorLog e (js "conversationController")
                  (js "sendMessageToAgent")]).
Proof.
  intros Ha Ht Hm Hn Eg Ec Hid Eu Es.
  rewrite (sendMessageToAgent_checked
             string_nan db api fuel data agent agents conversation
             conversations Ha Ht Hm Hn Eg Ec Hid Eu).
  now rewrite Es.
Qed.

Lemma sendMessageToAgent_exchange_failed_witness :
  fst (Controllers.sendMessageToAgent digits_nan db_one openai_down 3
                                      body_hi []) =
  Return {| http_status := 500;
            body := response (CodeNumber 500) (js "Internal server error")
                      (DataError (AxiosError (js "timeout"))) |}.
Proof.
  rewrite (sendMessageToAgent_exchange_failed
             digits_nan db_one openai_down 3 body_hi
             agent_7 [] conversation_3 []
             (AxiosError (js "timeout"))
             (snd (sendMessage api_list_down 3 (js "hi") (js "thread_1")
                               (js "asst_1") []))
             eq_refl eq_refl eq_refl eq_refl eq_refl eq_refl
             ltac:(discriminate) eq_refl eq_refl).
  reflexivity.
Defined.

(** X17: when [sendMessage] returns the text [x], the handler replies
    with the status 200, the status text 'success' and the message
    [removeCitations x]; its effects are, in this order, the lookup of
    the agent, the lookup of the conversation, the update of the
    conversation row, the exchange with the remote service and one line
    on the console. *)
Theorem sendMessageToAgent_replied
        (string_nan : jsstring -> bool) (db : database)
        (api : ServiceCalls.openai) (fuel : nat)
        (data : Controllers.send_body)
        (agent : Db.agent) (agents : list Db.agent)
        (conversation : Db.conversation)
        (conversations : list Db.conversation)
        (x : jsstring) (evs : list event) :
  truthy (Controllers.body_agent_id data) = true ->
  falsy (text_of (Controllers.body_thread_id data)) = false ->
  falsy (text_of (Controllers.body_message data)) = false ->
  isNaN string_nan (Controllers.body_agent_id data) = false ->
  agents_by_id db (Controllers.body_agent_id data) = inr (agent :: agents) ->
  conversations_by_thread db (text_of (Controllers.body_thread_id data)) =
    inr (conversation :: conversations) ->
  conversation_id conversation <> 0%Z ->
  conversation_updated db (conversation_id conversation) = inr tt ->
  sendMessage (ServiceCalls.chat api) fuel
    (text_of (Controllers.body_message data))
    (text_of (Controllers.body_thread_id data))
    (text_of (assistant_id agent)) [] = (Return x, evs) ->
  Controllers.sendMessageToAgent string_nan db api fuel data [] =
  (Return {| http_status := 200;
             body := response (CodeText (js "success"))
                       (js "Message has been sent and replied!")
                       (DataMessage (removeCitations x)) |},
   [Query (SelectAgentById (Controllers.body_agent_id data));
    Query (SelectConversationByThreadId
             (text_of (Controllers.body_thread_id data)));
    Query (UpdateConversationById (conversation_id conversation))]
     ++ List.map Exchange evs
     ++ [ConsoleOut (js "openAIResponse") (removeCitations x)]).
Proof.
  intros Ha Ht Hm Hn Eg Ec Hid Eu Es.
  rewrite (sendMessageToAgent_checked
             string_nan db api fuel data agent agents conversation
             conversations Ha Ht Hm Hn Eg Ec Hid Eu).
  now rewrite Es.
Qed.

Lemma sendMessageToAgent_replied_witness :
  fst (Controllers.sendMessageToAgent digits_nan db_one openai_up 3
                                      body_hi []) =
  Return {| http_status := 200;
            body := response (CodeText (js "success"))
                      (js "Message has been sent and replied!")
                      (DataMessage (js "see  Assistant: x")) |}.
Proof.
  rewrite (sendMessageToAgent_replied
             digits_nan db_one openai_up 3 body_hi
             agent_7 [] conversation_3 []
             (js " see [1] Assistant: x")
             (snd (sendMessage api_scripted 3 (js "hi") (js "thread_1")
                               (js "asst_1") []))
             eq_refl eq_refl eq_refl eq_refl eq_refl eq_refl
             ltac:(discriminate) eq_refl eq_refl).
  reflexivity.
Defined.

Lemma no_exchange_in (tr : list sys_event) (ev : event) :
  forallb (fun e => match e with Exchange _ => false | _ => true end) tr
  = true ->
  ~ In (Exchange ev) tr.
Proof.
  intros H Hin. rewrite forallb_forall in H. now apply H in Hin.
Qed.

(** X18: the handler talks to the remote service only after all its
    checks: whenever an effect of [sendMessage] shows in the trace, the
    three fields were present, the agent and the conversation were found
    and the conversation row was updated, and the three statements come
    first in the trace. *)
Theorem sendMessageToAgent_exchange_guarded
        (string_nan : jsstring -> bool) (db : database)
        (api : ServiceCalls.openai) (fuel : nat)
        (data : Controllers.send_body) (ev : event) :
  In (Exchange ev)
     (snd (Controllers.sendMessageToAgent string_nan db api fuel data [])) ->
  validate truthy (Controllers.field_of data) (Some send_fields) = None /\
  exists agent agents conversation conversations rest,
    agents_by_id db (Controllers.body_agent_id data) = inr (agent :: agents) /\
    conversations_by_thread db (text_of (Controllers.body_thread_id data)) =
      inr (conversation :: conversations) /\
    conversation_updated db (conversation_id conversation) = inr tt /\
    snd (Controllers.sendMessageToAgent string_nan db api fuel data []) =
      Query (SelectAgentById (Controllers.body_agent_id data))
        :: Query (SelectConversationByThreadId
                    (text_of (Controllers.body_thread_id data)))
        :: Query (UpdateConversationById (conversation_id conversation))
        :: rest.
Proof.
  rewrite validate_send_body.
  destruct (truthy (Controllers.body_agent_id data)) eqn:Ha.
  2:{ destruct (sendMessageToAgent_rejects_body
                  string_nan db api fuel data (or_introl Ha))
        as (f & _ & ->). intros []. }
  destruct (falsy (text_of (Controllers.body_thread_id data))) eqn:Ht.
  { destruct (sendMessageToAgent_rejects_body string_nan db api fuel data)
      as (f & _ & ->); [|intros []].
    right. left. now destruct (text_of (Controllers.body_thread_id data)). }
  destruct (falsy (text_of (Controllers.body_message data))) eqn:Hm.
  { destruct (sendMessageToAgent_rejects_body string_nan db api fuel data)
      as (f & _ & ->); [|intros []].
    right. right. now destruct (text_of (Controllers.body_message data)). }
  cbn [negb]. intros Hin. split; [reflexivity|]. revert Hin.
  destruct (isNaN string_nan (Controllers.body_agent_id data)) eqn:Hn.
  { rewrite sendMessageToAgent_rejects_nan by assumption.
    intros [H|[]]. discriminate. }
  rewrite sendMessageToAgent_validated by assumption.
  sys_run. rewrite Ha, Hn. sys_run.
  destruct (agents_by_id db (Controllers.body_agent_id data))
    as [msg|[|agent agents]] eqn:Eg; sys_run;
    try (intros Hin; exfalso; revert Hin; apply no_exchange_in; reflexivity).
  rewrite Ht. sys_run.
  destruct (conversations_by_thread
              db (text_of (Controllers.body_thread_id data)))
    as [msg|[|conversation conversations]] eqn:Ec; sys_run;
    try (intros Hin; exfalso; revert Hin; apply no_exchange_in; reflexivity).
  cbn [truthy isNaN].
  destruct (Z.eqb (conversation_id conversation) 0) eqn:Hz; sys_run;
    try (intros Hin; exfalso; revert Hin; apply no_exchange_in; reflexivity).
  destruct (conversation_updated db (conversation_id conversation))
    as [msg|[]] eqn:Eu; sys_run;
    try (intros Hin; exfalso; revert Hin; apply no_exchange_in; reflexivity).
  intros _. exists agent, agents, conversation, conversations.
  destruct (sendMessage (ServiceCalls.chat api) fuel
              (text_of (Controllers.body_message data))
              (text_of (Controllers.body_thread_id data))
              (text_of (assistant_id agent)) []) as [[x|e|] evs];
    sys_run; eexists; repeat split; try eassumption;
    rewrite <- ?app_assoc; reflexivity.
Qed.

Lemma sendMessageToAgent_exchange_guarded_witness :
  validate truthy (Controllers.field_of body_hi) (Some send_fields) = None.
Proof.
  apply (sendMessageToAgent_exchange_guarded
           digits_nan db_one openai_up 3 body_hi
           (Call (PostMessage (js "thread_1") (js "hi")))).
  vm_compute. right. right. right. left. reflexivity.
Defined.

(* ------------------------------------------------------------------ *)
(** ** [deleteAgentById] *)

(** The two remote deletions, as the handler runs them: a failure is
    logged and swallowed. *)
Lemma deleteStoreVector_best_effort
      (api : ServiceCalls.openai) (store : option jsstring)
      (tr : list sys_event) :
  exists evs,
    (if negb (falsy (text_of store))
     then Sys.try_catch
            (ServiceCalls.deleteStoreVector api (text_of store))
            (fun error => Controllers.logError
                            error (js "agentController")
                            (js "deleteAgentById"))
     else Sys.ret tt) tr = (Return tt, tr ++ evs) /\
    forallb (fun e => negb (is_query e)) evs = true.
Proof.
  destruct (falsy (text_of store)) eqn:F; cbn [negb].
  - exists []. now rewrite app_nil_r.
  - sys_run. rewrite F. sys_run.
    destruct (ServiceCalls.store_deleted api (text_of store)) as [msg|[]];
      sys_run; rewrite <- ?app_assoc; cbn [app]; eexists; split;
      reflexivity.
Qed.

Lemma deleteAssistant_best_effort
      (api : ServiceCalls.openai) (assistant : option jsstring)
      (tr : list sys_event) :
  exists evs,
    (if negb (falsy (text_of assistant))
     then Sys.try_catch
            (ServiceCalls.deleteAssistant api (text_of assistant))
            (fun error => Controllers.logError
                            error (js "agentController")
                            (js "deleteAgentById"))
     else Sys.ret tt) tr = (Return tt, tr ++ evs) /\
    forallb (fun e => negb (is_query e)) evs = true.
Proof.
  destruct (falsy (text_of assistant)) eqn:F; cbn [negb].
  - exists []. now rewrite app_nil_r.
  - sys_run.
    destruct (ServiceCalls.assistant_deleted api (text_of assistant))
      as [msg|[]];
      sys_run; rewrite <- ?app_assoc; cbn [app]; eexists; split;
      reflexivity.
Qed.

(** The handler for an agent that the database knows: the two remote
    deletions, then the row. *)
Lemma deleteAgentById_found
      (string_nan : jsstring -> bool) (db : database)
      (api : ServiceCalls.openai) (id : jsval)
      (agent : Db.agent) (agents : list Db.agent) :
  truthy id = true -> isNaN string_nan id = false ->
  agents_by_id db id = inr (agent :: agents) ->
  exists evs,
    forallb (fun e => negb (is_query e)) evs = true /\
    Controllers.deleteAgentById string_nan db api id [] =
    match agent_deleted db id with
    | inr _ =>
        (Return {| http_status := 200;
                   body := responseWithoutData
                             (CodeNumber 200)
                             (js "Agent deleted successfully") |},
         Query (SelectAgentById id) :: evs ++ [Query (DeleteAgentById id)])
    | inl msg =>
        (Return {| http_status := 500;
                   body := response (CodeNumber 500)
                             (js "Internal server error")
                             (DataError (Error msg)) |},
         Query (SelectAgentById id) :: evs
           ++ [Query (DeleteAgentById id);
               ErrorLog (Error msg) (js "agentController")
                        (js "deleteAgentById")])
    end.
Proof.
  intros Hid Hn Eg.
  destruct (deleteStoreVector_best_effort
              api (vector_store_id agent) [Query (SelectAgentById id)])
    as (evs1 & E1 & F1).
  destruct (deleteAssistant_best_effort
              api (assistant_id agent)
              ([Query (SelectAgentById id)] ++ evs1))
    as (evs2 & E2 & F2).
  exists (evs1 ++ evs2). split.
  { rewrite forallb_app, F1, F2. reflexivity. }
  unfold Controllers.deleteAgentById. rewrite Hid. cbn [negb].
  unfold Sys.try_catch at 1. unfold Sys.bind at 1.
  unfold Models.getAgentById at 1. rewrite Hid, Hn. cbn [negb].
  unfold Models.query, Sys.await. rewrite Eg. cbn [app].
  unfold Sys.bind at 1. cbn [app] in E1. rewrite E1.
  unfold Sys.bind at 1. cbn [app] in E2. rewrite E2.
  sys_run. rewrite Hid, Hn. sys_run.
  destruct (agent_deleted db id) as [msg|[]]; sys_run;
    rewrite <- ?app_assoc; reflexivity.
Qed.

(** X19: the remote cleanup of [deleteAgentById] is best effort.  For an
    agent that the database knows, whatever the remote service answers to
    the deletion of the vector store and of the assistant, the handler
    goes on to delete the row: the DELETE statement is the last access
    to the database, and when it succeeds the reply is 200 "Agent deleted
    successfully". *)
Theorem deleteAgentById_best_effort
        (string_nan : jsstring -> bool) (db : database)
        (api : ServiceCalls.openai) (id : jsval)
        (agent : Db.agent) (agents : list Db.agent) :
  truthy id = true -> isNaN string_nan id = false ->
  agents_by_id db id = inr (agent :: agents) ->
  agent_deleted db id = inr tt ->
  exists evs,
    forallb (fun e => negb (is_query e)) evs = true /\
    Controllers.deleteAgentById string_nan db api id [] =
    (Return {| http_status := 200;
               body := responseWithoutData
                         (CodeNumber 200)
                         (js "Agent deleted successfully") |},
     Query (SelectAgentById id) :: evs ++ [Query (DeleteAgentById id)]).
Proof.
  intros Hid Hn Eg Ed.
  destruct (deleteAgentById_found string_nan db api id agent agents
              Hid Hn Eg) as (evs & F & E).
  exists evs. split; [exact F|]. now rewrite E, Ed.
Qed.

Lemma deleteAgentById_best_effort_witness :
  fst (Controllers.deleteAgentById digits_nan db_one openai_down
                                   (VNumber 7) []) =
  Return {| http_status := 200;
            body := responseWithoutData
                      (CodeNumber 200) (js "Agent deleted successfully") |}.
Proof.
  destruct (deleteAgentById_best_effort
              digits_nan db_one openai_down (VNumber 7) agent_7 []
              eq_refl eq_refl eq_refl eq_refl) as (evs & _ & E).
  now rewrite E.
Defined.

(** X20: when the final DELETE statement fails, the handler replies with
    the status 500 and logs the error, although the remote deletions have
    already been attempted.  For an agent with a vector store and an
    assistant, whatever the remote service answers: the DELETE call for
    the store and the DELETE call for the assistant both come before the
    statement, each followed by its two log entries when it was
    rejected; after the failed statement the handler only logs its
    error, so that nothing is undone. *)
Theorem deleteAgentById_row_failure
        (string_nan : jsstring -> bool) (db : database)
        (api : ServiceCalls.openai) (id : jsval)
        (agent : Db.agent) (agents : list Db.agent)
        (store assistant msg : jsstring) :
  truthy id = true -> isNaN string_nan id = false ->
  agents_by_id db id = inr (agent :: agents) ->
  vector_store_id agent = Some store -> falsy store = false ->
  assistant_id agent = Some assistant -> falsy assistant = false ->
  agent_deleted db id = inl msg ->
  Controllers.deleteAgentById string_nan db api id [] =
  (Return {| http_status := 500;
             body := response (CodeNumber 500)
                       (js "Internal server error")
                       (DataError (Error msg)) |},
   Query (SelectAgentById id)
   :: Axios DELETE (ServiceCalls.OPENAI_URL ++ js "/v1/vector_stores/"
                      ++ store)
   :: match ServiceCalls.store_deleted api store with
      | inl e =>
          [ServiceLog (js "OpenAIService/deleteStoreVector") (AxiosError e);
           ErrorLog (AxiosError e) (js "agentController")
                    (js "deleteAgentById")]
      | inr _ => []
      end
   ++ Axios DELETE (ServiceCalls.OPENAI_URL ++ js "/v1/assistants/"
                      ++ assistant)
   :: match ServiceCalls.assistant_deleted api assistant with
      | inl e =>
          [ServiceLog (js "OpenAIService/deleteAssistant") (AxiosError e);
           ErrorLog (AxiosError e) (js "agentController")
                    (js "deleteAgentById")]
      | inr _ => []
      end
   ++ [Query (DeleteAgentById id);
       ErrorLog (Error msg) (js "agentController")
                (js "deleteAgentById")]).
Proof.
  intros Hid Hn Eg Es Fs Ea Fa Ed.
  sys_run. rewrite Hid, Hn. sys_run. rewrite Eg. sys_run.
  rewrite Es, Ea. cbn [text_of]. rewrite Fs, Fa. sys_run.
  destruct (ServiceCalls.store_deleted api store) as [e1|[]]; sys_run;
    (destruct (ServiceCalls.assistant_deleted api assistant) as [e2|[]];
     sys_run; rewrite Ed; reflexivity).
Qed.

Lemma deleteAgentById_row_failure_witness :
  Controllers.deleteAgentById
    digits_nan
    {| agents_by_id := agents_by_id db_one;
       agent_deleted := fun _ => inl (js "ER_LOCK_WAIT_TIMEOUT");
       conversations_by_agent := conversations_by_agent db_one;
       conversations_by_thread := conversations_by_thread db_one;
       conversation_inserted := conversation_inserted db_one;
       conversation_updated := conversation_updated db_one |}
    openai_up (VNumber 7) [] =
  (Return {| http_status := 500;
             body := response (CodeNumber 500) (js "Internal server error")
                       (DataError (Error (js "ER_LOCK_WAIT_TIMEOUT"))) |},
   [Query (SelectAgentById (VNumber 7));
    Axios DELETE (js "https://api.openai.com/v1/vector_stores/vs_1");
    Axios DELETE (js "https://api.openai.com/v1/assistants/asst_1");
    Query (DeleteAgentById (VNumber 7));
    ErrorLog (Error (js "ER_LOCK_WAIT_TIMEOUT")) (js "agentController")
             (js "deleteAgentById")]).
Proof.
  rewrite (deleteAgentById_row_failure
             digits_nan
             {| agents_by_id := agents_by_id db_one;
                agent_deleted := fun _ => inl (js "ER_LOCK_WAIT_TIMEOUT");
                conversations_by_agent := conversations_by_agent db_one;
                conversations_by_thread := conversations_by_thread db_one;
                conversation_inserted := conversation_inserted db_one;
                conversation_updated := conversation_updated db_one |}
             openai_up (VNumber 7) agent_7 []
             (js "vs_1") (js "asst_1") (js "ER_LOCK_WAIT_TIMEOUT")
             eq_refl eq_refl eq_refl eq_refl eq_refl eq_refl eq_refl
             eq_refl).
  reflexivity.
Defined.

(** X21: a rejected remote deletion is logged twice, by the service at
    its own label and by the controller, and the handler carries on: with
    both deletions rejected the trace is the lookup, the two attempts
    with their two log entries each, and the DELETE statement. *)
Theorem deleteAgentById_remote_down
        (string_nan : jsstring -> bool) (db : database)
        (api : ServiceCalls.openai) (id : jsval)
        (agent : Db.agent) (agents : list Db.agent)
        (store assistant e1 e2 : jsstring) :
  truthy id = true -> isNaN string_nan id = false ->
  agents_by_id db id = inr (agent :: agents) ->
  agent_deleted db id = inr tt ->
  vector_store_id agent = Some store -> falsy store = false ->
  assistant_id agent = Some assistant -> falsy assistant = false ->
  ServiceCalls.store_deleted api store = inl e1 ->
  ServiceCalls.assistant_deleted api assistant = inl e2 ->
  Controllers.deleteAgentById string_nan db api id [] =
  (Return {| http_status := 200;
             body := responseWithoutData
                       (CodeNumber 200) (js "Agent deleted successfully") |},
   [Query (SelectAgentById id);
    Axios DELETE (ServiceCalls.OPENAI_URL ++ js "/v1/vector_stores/" ++ store);
    ServiceLog (js "OpenAIService/deleteStoreVector") (AxiosError e1);
    ErrorLog (AxiosError e1) (js "agentController") (js "deleteAgentById");
    Axios DELETE (ServiceCalls.OPENAI_URL ++ js "/v1/assistants/" ++ assistant);
    ServiceLog (js "OpenAIService/deleteAssistant") (AxiosError e2);
    ErrorLog (AxiosError e2) (js "agentController") (js "deleteAgentById");
    Query (DeleteAgentById id)]).
Proof.
  intros Hid Hn Eg Ed Es Fs Ea Fa E1 E2.
  sys_run. rewrite Hid, Hn. sys_run. rewrite Eg. sys_run.
  rewrite Es, Ea. cbn [text_of]. rewrite Fs, Fa. sys_run.
  rewrite E1. sys_run. rewrite E2. sys_run. rewrite Ed. reflexivity.
Qed.

Lemma deleteAgentById_remote_down_witness :
  List.length
    (snd (Controllers.deleteAgentById digits_nan db_one openai_down
                                      (VNumber 7) [])) = 8.
Proof.
  rewrite (deleteAgentById_remote_down
             digits_nan db_one openai_down (VNumber 7) agent_7 []
             (js "vs_1") (js "asst_1") (js "ECONNRESET") (js "ECONNRESET")
             eq_refl eq_refl eq_refl eq_refl eq_refl eq_refl eq_refl eq_refl
             eq_refl eq_refl).
  reflexivity.
Defined.

(** X22: [deleteAgentById] deletes nothing for an id it cannot resolve: a
    falsy id is answered with 400 without any effect, and an id without
    agent with 404 after the lookup alone; no remote deletion is
    attempted and no DELETE statement is sent. *)
Theorem deleteAgentById_unresolved
        (string_nan : jsstring -> bool) (db : database)
        (api : ServiceCalls.openai) (id : jsval) :
  (truthy id = false ->
   Controllers.deleteAgentById string_nan db api id [] =
   (Return {| http_status := 400;
              body := responseWithoutData (CodeNumber 400)
                                          (js "ID is required") |},
    [])) /\
  (truthy id = true -> isNaN string_nan id = false ->
   agents_by_id db id = inr [] ->
   Controllers.deleteAgentById string_nan db api id [] =
   (Return {| http_status := 404;
              body := responseWithoutData (CodeNumber 404)
                                          (js "Agent not found") |},
    [Query (SelectAgentById id)])).
Proof.
  split.
  - intros Hid. sys_run. rewrite Hid. reflexivity.
  - intros Hid Hn Eg. sys_run. rewrite Hid, Hn. sys_run. rewrite Eg.
    reflexivity.
Qed.

Lemma deleteAgentById_unresolved_witness :
  snd (Controllers.deleteAgentById digits_nan db_one openai_up
                                   (VNumber 8) []) =
  [Query (SelectAgentById (VNumber 8))].
Proof.
  destruct (deleteAgentById_unresolved digits_nan db_one openai_up
                                       (VNumber 8)) as [_ H].
  now rewrite (H eq_refl eq_refl eq_refl).
Defined.

(* ------------------------------------------------------------------ *)
(** ** [getConversationByAgentId] and [getMessageHistoryByThreadId] *)

(** X23: an agent that already has a conversation keeps its thread:
    [getConversationByAgentId] answers with the thread id of the stored
    row after the two lookups; it creates no thread at the remote service
    and inserts no row. *)
Theorem getConversationByAgentId_existing
        (string_nan : jsstring -> bool) (db : database)
        (api : ServiceCalls.openai) (agentId : jsval)
        (agent : Db.agent) (agents : list Db.agent)
        (conversation : Db.conversation)
        (conversations : list Db.conversation) :
  truthy agentId = true -> isNaN string_nan agentId = false ->
  agents_by_id db agentId = inr (agent :: agents) ->
  conversations_by_agent db agentId = inr (conversation :: conversations) ->
  Controllers.getConversationByAgentId string_nan db api agentId [] =
  (Return {| http_status := 200;
             body := response (CodeNumber 200)
                       (js "Conversations fetched successfully")
                       (DataThread (conversation_thread_id conversation)
                                   agent) |},
   [Query (SelectAgentById agentId);
    Query (SelectConversationByAgentId agentId)]).
Proof.
  intros Hid Hn Eg Ec.
  sys_run. rewrite Hid, Hn. sys_run. rewrite Eg. sys_run.
  rewrite ?Hid, ?Hn. sys_run. rewrite Ec. reflexivity.
Qed.

Lemma getConversationByAgentId_existing_witness :
  Controllers.getConversationByAgentId digits_nan db_one openai_up
                                       (VNumber 7) [] =
  (Return {| http_status := 200;
             body := response (CodeNumber 200)
                       (js "Conversations fetched successfully")
                       (DataThread (Some (js "thread_1")) agent_7) |},
   [Query (SelectAgentById (VNumber 7));
    Query (SelectConversationByAgentId (VNumber 7))]).
Proof.
  apply (getConversationByAgentId_existing
           digits_nan db_one openai_up (VNumber 7) agent_7 []
           conversation_3 []); reflexivity.
Defined.

(** X24: for an agent without conversation the handler creates one
    thread at the remote service and then stores it: the INSERT carries
    the id of the created thread and comes after the creation, and the
    reply holds the same id.  When the creation is rejected nothing is
    inserted and the reply is 500. *)
Theorem getConversationByAgentId_first
        (string_nan : jsstring -> bool) (db : database)
        (api : ServiceCalls.openai) (agentId : jsval)
        (agent : Db.agent) (agents : list Db.agent) :
  truthy agentId = true -> isNaN string_nan agentId = false ->
  agents_by_id db agentId = inr (agent :: agents) ->
  conversations_by_agent db agentId = inr [] ->
  (forall threadId,
     ServiceCalls.thread_created api = inr threadId ->
     conversation_inserted db agentId threadId = inr tt ->
     Controllers.getConversationByAgentId string_nan db api agentId [] =
     (Return {| http_status := 200;
                body := response (CodeNumber 200)
                          (js "Conversations fetched successfully")
                          (DataThread (Some threadId) agent) |},
      [Query (SelectAgentById agentId);
       Query (SelectConversationByAgentId agentId);
       Axios POST (ServiceCalls.OPENAI_URL ++ js "/v1/threads");
       Query (InsertConversation agentId threadId)])) /\
  (forall e,
     ServiceCalls.thread_created api = inl e ->
     Controllers.getConversationByAgentId string_nan db api agentId [] =
     (Return {| http_status := 500;
                body := response (CodeNumber 500)
                          (js "Internal server error")
                          (DataError (AxiosError e)) |},
      [Query (SelectAgentById agentId);
       Query (SelectConversationByAgentId agentId);
       Axios POST (ServiceCalls.OPENAI_URL ++ js "/v1/threads");
       ServiceLog (js "OpenAIService/createThread") (AxiosError e);
       ErrorLog (AxiosError e) (js "conversationController")
                (js "getConversationByAgentId")])).
Proof.
  intros Hid Hn Eg Ec. split.
  - intros threadId Et Ei.
    sys_run. rewrite Hid, Hn. sys_run. rewrite Eg. sys_run.
    rewrite ?Hid, ?Hn. sys_run. rewrite Ec. sys_run. rewrite Et. sys_run.
    rewrite Ei. reflexivity.
  - intros e Et.
    sys_run. rewrite Hid, Hn. sys_run. rewrite Eg. sys_run.
    rewrite ?Hid, ?Hn. sys_run. rewrite Ec. sys_run. rewrite Et.
    reflexivity.
Qed.

Lemma getConversationByAgentId_first_witness :
  fst (Controllers.getConversationByAgentId digits_nan db_fresh openai_up
                                            (VNumber 7) []) =
  Return {| http_status := 200;
            body := response (CodeNumber 200)
                      (js "Conversations fetched successfully")
                      (DataThread (Some (js "thread_9")) agent_7) |}.
Proof.
  destruct (getConversationByAgentId_first
              digits_nan db_fresh openai_up (VNumber 7) agent_7 []
              eq_refl eq_refl eq_refl eq_refl) as [H _].
  now rewrite (H (js "thread_9") eq_refl eq_refl).
Defined.

(** X25: [getMessageHistoryByThreadId] asks the remote service for the
    messages only of a thread that has a conversation in the database: a
    thread id without row is answered with 404 after the lookup alone;
    for a known thread the messages that the remote returns are the data
    of the reply, and a rejected fetch gives the status 500. *)
Theorem getMessageHistoryByThreadId_known_threads
        (db : database) (api : ServiceCalls.openai) (threadId : jsstring) :
  falsy threadId = false ->
  (conversations_by_thread db threadId = inr [] ->
   Controllers.getMessageHistoryByThreadId db api threadId [] =
   (Return {| http_status := 404;
              body := responseWithoutData (CodeNumber 404)
                                          (js "Conversation not found") |},
    [Query (SelectConversationByThreadId threadId)])) /\
  (forall conversation conversations,
     conversations_by_thread db threadId =
       inr (conversation :: conversations) ->
     Controllers.getMessageHistoryByThreadId db api threadId [] =
     match ServiceCalls.thread_messages api threadId with
     | inr messages =>
         (Return {| http_status := 200;
                    body := response
                              (CodeNumber 200)
                              (js "Message history fetched successfully")
                              (DataHistory messages) |},
          [Query (SelectConversationByThreadId threadId);
           Axios GET (ServiceCalls.OPENAI_URL ++ js "/v1/threads/"
                        ++ threadId ++ js "/messages?limit=10&order=asc")])
     | inl e =>
         (Return {| http_status := 500;
                    body := response (CodeNumber 500)
                              (js "Internal server error")
                              (DataError (AxiosError e)) |},
          [Query (SelectConversationByThreadId threadId);
           Axios GET (ServiceCalls.OPENAI_URL ++ js "/v1/threads/"
                        ++ threadId ++ js "/messages?limit=10&order=asc");
           ServiceLog (js "OpenAIService/retrieveThreadMessages")
                      (AxiosError e);
           ErrorLog (AxiosError e) (js "conversationController")
                    (js "getMessageHistoryByThreadId")])
     end).
Proof.
  intros Ht. split.
  - intros Ec. sys_run. rewrite Ht. sys_run. rewrite Ec. reflexivity.
  - intros conversation conversations Ec.
    sys_run. rewrite Ht. sys_run. rewrite Ec. sys_run.
    destruct (ServiceCalls.thread_messages api threadId); reflexivity.
Qed.

Lemma getMessageHistoryByThreadId_known_threads_witness :
  snd (Controllers.getMessageHistoryByThreadId db_one openai_up
                                               (js "thread_2") []) =
  [Query (SelectConversationByThreadId (js "thread_2"))].
Proof.
  destruct (getMessageHistoryByThreadId_known_threads
              db_one openai_up (js "thread_2") eq_refl)
    as [H _].
  now rewrite (H eq_refl).
Defined.

(* ------------------------------------------------------------------ *)
(** ** [createAssistant] and [updateAssistant] *)

Lemma invalid_text_false (v : jsval) :
  ServiceCalls.invalid_text v = false <-> exists c s, v = VString (c :: s).
Proof.
  unfold ServiceCalls.invalid_text. split.
  - destruct v as [| |b|n|[|c s]]; cbn; try discriminate;
      try (destruct b; discriminate);
      try (destruct (Z.eqb n 0); discriminate).
    intros _. now exists c, s.
  - intros (c & s & ->). reflexivity.
Qed.

(** X26: [createAssistant] posts the payload only when name,
    instructions and model are all strings that are not empty.
    Otherwise it throws the error that names the first of the three, in
    this order, that is not; that error is not written to the log and no
    remote call is made.  A rejected post is logged and thrown. *)
Theorem createAssistant_validation
        (api : ServiceCalls.openai) (data : ServiceCalls.assistant_payload) :
  (ServiceCalls.invalid_text (ServiceCalls.payload_name data) = true ->
   ServiceCalls.createAssistant api data [] =
   (Throw (Error (js "Invalid 'name' in the assistant payload.")), [])) /\
  (ServiceCalls.invalid_text (ServiceCalls.payload_name data) = false ->
   ServiceCalls.invalid_text (ServiceCalls.payload_instructions data) = true ->
   ServiceCalls.createAssistant api data [] =
   (Throw (Error (js "Invalid 'instructions' in the assistant payload.")),
    [])) /\
  (ServiceCalls.invalid_text (ServiceCalls.payload_name data) = false ->
   ServiceCalls.invalid_text (ServiceCalls.payload_instructions data) = false ->
   ServiceCalls.invalid_text (ServiceCalls.payload_model data) = true ->
   ServiceCalls.createAssistant api data [] =
   (Throw (Error (js "Invalid 'model' in the assistant payload.")), [])) /\
  ((exists c s, ServiceCalls.payload_name data = VString (c :: s)) ->
   (exists c s, ServiceCalls.payload_instructions data = VString (c :: s)) ->
   (exists c s, ServiceCalls.payload_model data = VString (c :: s)) ->
   ServiceCalls.createAssistant api data [] =
   match ServiceCalls.assistant_created api with
   | inr id =>
       (Return id,
        [Axios POST (ServiceCalls.OPENAI_URL ++ js "/v1/assistants")])
   | inl e =>
       (Throw (AxiosError e),
        [Axios POST (ServiceCalls.OPENAI_URL ++ js "/v1/assistants");
         ServiceLog (js "OpenAIService/createAssistant") (AxiosError e)])
   end).
Proof.
  repeat split.
  - intros H. sys_run. now rewrite H.
  - intros H1 H2. sys_run. now rewrite H1, H2.
  - intros H1 H2 H3. sys_run. now rewrite H1, H2, H3.
  - intros H1 H2 H3. apply invalid_text_false in H1, H2, H3.
    sys_run. rewrite H1, H2, H3.
    destruct (ServiceCalls.assistant_created api); reflexivity.
Qed.

Lemma createAssistant_validation_witness :
  ServiceCalls.createAssistant
    openai_up
    {| ServiceCalls.payload_name := VString (js "[TEST] bot");
       ServiceCalls.payload_instructions := VUndefined;
       ServiceCalls.payload_model := VString (js "gpt-4o") |} [] =
  (Throw (Error (js "Invalid 'instructions' in the assistant payload.")), []).
Proof.
  destruct (createAssistant_validation
              openai_up
              {| ServiceCalls.payload_name := VString (js "[TEST] bot");
                 ServiceCalls.payload_instructions := VUndefined;
                 ServiceCalls.payload_model := VString (js "gpt-4o") |})
    as (_ & H & _).
  exact (H eq_refl eq_refl).
Defined.

Lemma allowed_In (key : jsstring) :
  ServiceCalls.allowed key = true <-> In key ServiceCalls.allowedFields.
Proof.
  unfold ServiceCalls.allowed. rewrite existsb_exists. split.
  - intros (k & Hin & E). apply eqb_eq in E. now subst.
  - intros Hin. exists key. split; [exact Hin|apply eqb_refl].
Qed.

Lemma filteredData_app (a b : list (jsstring * jsval)) :
  ServiceCalls.filteredData (a ++ b) =
  ServiceCalls.filteredData a ++ ServiceCalls.filteredData b.
Proof. apply filter_app. Qed.

Lemma filteredData_skip (key : jsstring) (value : jsval)
      (rest : list (jsstring * jsval)) :
  ~ In key ServiceCalls.allowedFields ->
  ServiceCalls.filteredData ((key, value) :: rest) =
  ServiceCalls.filteredData rest.
Proof.
  intros Hk. unfold ServiceCalls.filteredData. cbn [filter fst].
  destruct (ServiceCalls.allowed key) eqn:A; [|reflexivity].
  apply allowed_In in A. contradiction.
Qed.

(** X27: [updateAssistant] lets only the ten allowed fields reach the
    remote service.  Its one axios call is a POST to the URL of the
    assistant that sends an object holding exactly the properties of the
    data whose key is allowed, with their values; the answer of the
    remote to that object is the result, a rejection being passed to
    [logError] and thrown.  A property outside the list makes no
    difference: with or without it the call and the result are the
    same. *)
Theorem updateAssistant_allowed_fields
        (api : ServiceCalls.openai) (assistantId : jsstring)
        (data : list (jsstring * jsval)) :
  (exists sent,
     (forall key value,
        In (key, value) sent <->
        In (key, value) data /\ In key ServiceCalls.allowedFields) /\
     ServiceCalls.updateAssistant api assistantId data [] =
     match ServiceCalls.assistant_updated api assistantId sent with
     | inr u =>
         (Return u,
          [AxiosSend POST
             (ServiceCalls.OPENAI_URL ++ js "/v1/assistants/" ++ assistantId)
             sent])
     | inl reason =>
         (Throw (AxiosError reason),
          [AxiosSend POST
             (ServiceCalls.OPENAI_URL ++ js "/v1/assistants/" ++ assistantId)
             sent;
           ServiceLog (js "OpenAIService/updateAssistant")
                      (AxiosError reason)])
     end) /\
  (forall before key value after tr,
     data = before ++ (key, value) :: after ->
     ~ In key ServiceCalls.allowedFields ->
     ServiceCalls.updateAssistant api assistantId data tr =
     ServiceCalls.updateAssistant api assistantId (before ++ after) tr).
Proof.
  split.
  - exists (ServiceCalls.filteredData data). split.
    + intros key value. unfold ServiceCalls.filteredData.
      rewrite filter_In. cbn [fst]. rewrite allowed_In. reflexivity.
    + sys_run.
      destruct (ServiceCalls.assistant_updated
                  api assistantId (ServiceCalls.filteredData data));
        reflexivity.
  - intros before key value after tr -> Hk.
    unfold ServiceCalls.updateAssistant.
    now rewrite !filteredData_app, filteredData_skip.
Qed.

Lemma updateAssistant_allowed_fields_witness :
  ~ In (js "id") ServiceCalls.allowedFields /\
  ServiceCalls.updateAssistant
    openai_up (js "asst_1")
    [(js "name", VString (js "[TEST] bot")); (js "id", VString (js "asst_9"));
     (js "instructions", VString (js "be brief"))] [] =
  ServiceCalls.updateAssistant
    openai_up (js "asst_1")
    [(js "name", VString (js "[TEST] bot"));
     (js "instructions", VString (js "be brief"))] [].
Proof.
  assert (H : ~ In (js "id") ServiceCalls.allowedFields).
  { intros H. apply allowed_In in H. discriminate H. }
  split; [exact H|].
  destruct (updateAssistant_allowed_fields
              openai_up (js "asst_1")
              [(js "name", VString (js "[TEST] bot"));
               (js "id", VString (js "asst_9"));
               (js "instructions", VString (js "be brief"))]) as [_ K].
  exact (K [(js "name", VString (js "[TEST] bot"))]
           (js "id") (VString (js "asst_9"))
           [(js "instructions", VString (js "be brief"))] []
           eq_refl H).
Defined.

